(** * OATS: sync engine, port resolver, service life cycle and orchestrator

    A shallow embedding of the TypeScript sources
    - [src/core/dev-sync-optimized.ts]   (class [DevSyncEngine]),
    - [src/utils/port-manager.ts]        (class [PortManager]),
    - [src/core/services/base-service.ts] (class [BaseService]),
    - [src/core/orchestrator.ts]         (class [DevSyncOrchestrator]),
    - [src/utils/shutdown-manager.ts]    (class [ShutdownManager]),
    - [src/utils/process-manager.ts]     (class [ProcessManager]),
    together with a model of the change detector, whose source
    ([src/core/swagger-diff.ts]) is not at hand.

    Node runs the program on one thread: an [async] method runs without
    interruption up to its next [await], and other callbacks (timers,
    triggers, process events) run only while it is suspended there.  The
    embedding follows this: every method is cut at its [await]s into
    segments, each segment is a function on the object's fields, and a
    suspended call is recorded with the point it waits at. *)

From Stdlib Require Import ZArith String Ascii DecimalString List Bool Lia.
From Stdlib Require Import Permutation OrderedTypeEx.
Import ListNotations.

Local Open Scope Z_scope.

(* ================================================================== *)
(** * Part I. Definitions                                               *)
(* ================================================================== *)

(** ** Thrown values and settled promises *)

(** The values the code throws, by the class that is constructed. *)
Inductive Error : Type :=
| ApiSpecError (message : string) (specPath : string)
| GeneratorError (message : string) (generator : string)
| ServiceStartError (service : string) (message : string)
| JsError (message : string).

(** How an awaited promise settles. *)
Inductive Settled (A : Type) : Type :=
| Resolved (value : A)
| Rejected (reason : Error).
Arguments Resolved {A} value.
Arguments Rejected {A} reason.

(** The tasks of one kind that are suspended at an [await]: the task at
    position [i] either moves to another await or leaves the list. *)
Fixpoint update_task {P : Type} (i : nat) (next : option P) (l : list P)
  : list P :=
  match l, i with
  | [], _ => []
  | _ :: t, O => match next with Some p => p :: t | None => t end
  | h :: t, S i' => h :: update_task i' next t
  end.

(** JavaScript truthiness of an optional string: [undefined] and the
    empty string are falsy. *)
Definition truthy (s : option string) : bool :=
  match s with
  | None => false
  | Some s' => negb (String.eqb s' EmptyString)
  end.

(* ------------------------------------------------------------------ *)
(** ** DevSyncEngine ([src/core/dev-sync-optimized.ts])                 *)
(* ------------------------------------------------------------------ *)

Module DevSyncEngine.

Inductive Strategy : Type := smart | aggressive | conservative.

Definition Strategy_eqb (a b : Strategy) : bool :=
  match a, b with
  | smart, smart | aggressive, aggressive | conservative, conservative => true
  | _, _ => false
  end.

(** The fields of [RuntimeConfig] that [performSync] and
    [checkForMeaningfulChanges] read. *)
Record RuntimeConfig : Type := {
  strategy : Strategy;                (* config.sync.strategy *)
  autoLink : bool;                    (* config.sync.autoLink *)
  runInitialGeneration : bool;        (* config.sync.runInitialGeneration *)
  buildCommand : option string;       (* config.services.client.buildCommand *)
  apiSpecPath : string;               (* config.services.backend.apiSpec.path *)
  backendPath : string                (* config.resolvedPaths.backend *)
}.

Inductive SyncEventType : Type :=
| spec_changed
| generation_started
| generation_completed
| generation_failed.

(** [SyncEvent] without its timestamp. *)
Record SyncEvent : Type := {
  type : SyncEventType;
  error : option Error
}.

(** The awaited calls of [performSync]. *)
Inductive Step : Type :=
| CheckForMeaningfulChanges
| GenerateClient
| BuildClient
| LinkPackages.

(** What an execution of the engine leaves behind, in order. *)
Inductive Obs : Type :=
| Emit (ev : SyncEvent)               (* this.emit('sync-event', ev) *)
| Call (s : Step)                     (* an awaited call is started *)
| SkipLocked                          (* 'Sync already in progress, skipping...' *)
| RetryIn (retryDelay attempt : Z)    (* 'Retrying sync in ...ms (attempt ...)' *)
| MaxRetriesExceeded                  (* 'Max sync retries exceeded. ...' *)
| SyncCompleted                       (* this.lastSyncTime = new Date() *)
| Propagated (e : Error).             (* performSync's promise rejects *)

(** The engine's fields, the retry timers that are pending, and the
    executions of [performSync] suspended at an [await]. *)
Record Engine : Type := {
  syncLock : bool;
  syncRetries : Z;
  timers : list Z;                    (* delays of pending setTimeout callbacks *)
  running : list Step;                (* one entry per execution in progress *)
  trace : list Obs
}.

Definition MAX_SYNC_RETRIES : Z := 3.

(** [new DevSyncEngine(config)] *)
Definition init : Engine :=
  {| syncLock := false; syncRetries := 0; timers := []; running := [];
     trace := [] |}.

Definition set_syncLock (b : bool) (e : Engine) : Engine :=
  {| syncLock := b; syncRetries := syncRetries e; timers := timers e;
     running := running e; trace := trace e |}.

Definition set_syncRetries (n : Z) (e : Engine) : Engine :=
  {| syncLock := syncLock e; syncRetries := n; timers := timers e;
     running := running e; trace := trace e |}.

Definition setTimeout (delay : Z) (e : Engine) : Engine :=
  {| syncLock := syncLock e; syncRetries := syncRetries e;
     timers := timers e ++ [delay]; running := running e;
     trace := trace e |}.

Definition set_timers (l : list Z) (e : Engine) : Engine :=
  {| syncLock := syncLock e; syncRetries := syncRetries e; timers := l;
     running := running e; trace := trace e |}.

Definition set_running (l : list Step) (e : Engine) : Engine :=
  {| syncLock := syncLock e; syncRetries := syncRetries e;
     timers := timers e; running := l; trace := trace e |}.

Definition log (o : Obs) (e : Engine) : Engine :=
  {| syncLock := syncLock e; syncRetries := syncRetries e;
     timers := timers e; running := running e; trace := trace e ++ [o] |}.

(** [this.emit('sync-event', event)]; the listeners are taken not to
    throw. *)
Definition emit (t : SyncEventType) (err : option Error) (e : Engine)
  : Engine :=
  log (Emit {| type := t; error := err |}) e.

(** How a segment of [performSync] ends. *)
Inductive Completion : Type :=
| Await (s : Step)        (* suspended at [await s()] *)
| Return                  (* [return], or the end of the [try] block *)
| Throw (err : Error).    (* an exception leaves the segment *)

(** Starts the awaited call [s]. *)
Definition await (s : Step) (e : Engine) : Engine * Completion :=
  (log (Call s) e, Await s).

(** The end of the [try] block, lines 278-296. *)
Definition try_end (e : Engine) : Engine * Completion :=
  let e := log SyncCompleted e in
  let e := set_syncRetries 0 e in
  let e := emit generation_completed None e in
  (e, Return).

(** After [buildClient]: lines 267-276. *)
Definition try_link (cfg : RuntimeConfig) (e : Engine)
  : Engine * Completion :=
  if autoLink cfg then await LinkPackages e else try_end e.

(** After [generateClient]: lines 256-265. *)
Definition try_build (cfg : RuntimeConfig) (e : Engine)
  : Engine * Completion :=
  if truthy (buildCommand cfg) then await BuildClient e else try_link cfg e.

(** After [checkForMeaningfulChanges]: lines 242-249. *)
Definition try_generate (cfg : RuntimeConfig) (hasChanges : bool)
  (e : Engine) : Engine * Completion :=
  if negb hasChanges && Strategy_eqb (strategy cfg) smart
  then (e, Return)
  else await GenerateClient e.

(** The [try] block resumed at the await of [s], whose promise settled
    as [r].  Only [checkForMeaningfulChanges] yields a value that is
    read. *)
Definition try_resume (cfg : RuntimeConfig) (s : Step) (r : Settled bool)
  (e : Engine) : Engine * Completion :=
  match r with
  | Rejected err => (e, Throw err)
  | Resolved v =>
      match s with
      | CheckForMeaningfulChanges => try_generate cfg v e
      | GenerateClient => try_build cfg e
      | BuildClient => try_link cfg e
      | LinkPackages => try_end e
      end
  end.

(** The [catch] block, lines 297-327. *)
Definition catch_block (err : Error) (e : Engine) : Engine * Completion :=
  let e := emit generation_failed (Some err) e in
  if syncRetries e <? MAX_SYNC_RETRIES then
    let e := set_syncRetries (syncRetries e + 1) e in
    let retryDelay := 2 ^ syncRetries e * 1000 in
    let e := log (RetryIn retryDelay (syncRetries e)) e in
    (setTimeout retryDelay e, Return)
  else
    let e := log MaxRetriesExceeded e in
    (set_syncRetries 0 e, Return).

(** The [finally] block, line 329. *)
Definition finally_block (e : Engine) : Engine := set_syncLock false e.

(** [try { ... } catch (error) { ... } finally { ... }] around a segment
    of the [try] block. *)
Definition try_catch_finally (body : Engine * Completion)
  : Engine * Completion :=
  match body with
  | (e, Await s) => (e, Await s)
  | (e, Return) => (finally_block e, Return)
  | (e, Throw err) =>
      let '(e', c) := catch_block err e in (finally_block e', c)
  end.

(** Records where the execution at position [i] stands after a
    segment. *)
Definition settle_task (i : nat) (r : Engine * Completion) : Engine :=
  match r with
  | (e, Await s) => set_running (update_task i (Some s) (running e)) e
  | (e, Return) => set_running (update_task i None (running e)) e
  | (e, Throw err) =>
      log (Propagated err) (set_running (update_task i None (running e)) e)
  end.

(** [performSync()], from the call to its first [await], lines 213-235. *)
Definition performSync (cfg : RuntimeConfig) (e : Engine) : Engine :=
  if syncLock e then log SkipLocked e
  else
    let e := set_syncLock true e in
    let i := length (running e) in
    let e := set_running (running e ++ [CheckForMeaningfulChanges]) e in
    settle_task i
      (try_catch_finally
         (let e := emit generation_started None e in
          await CheckForMeaningfulChanges e)).

(** The execution at position [i] is resumed: the promise it awaits
    settled as [r]. *)
Definition resume (cfg : RuntimeConfig) (i : nat) (r : Settled bool)
  (e : Engine) : Engine :=
  match nth_error (running e) i with
  | None => e
  | Some s => settle_task i (try_catch_finally (try_resume cfg s r e))
  end.

(** The callback of the retry timer at position [j], lines 316-319. *)
Definition retry_callback (cfg : RuntimeConfig) (j : nat) (e : Engine)
  : Engine :=
  match nth_error (timers e) j with
  | None => e
  | Some _ =>
      let e := set_timers (firstn j (timers e) ++ skipn (S j) (timers e)) e in
      let e := set_syncLock false e in
      performSync cfg e
  end.

(** What the event loop can run next. *)
Inductive Action : Type :=
| Trigger                               (* debouncedSync fires: performSync() *)
| Settle (i : nat) (r : Settled bool)   (* an awaited promise settles *)
| TimerFire (j : nat).                  (* a retry timer fires *)

Definition step (cfg : RuntimeConfig) (a : Action) (e : Engine) : Engine :=
  match a with
  | Trigger => performSync cfg e
  | Settle i r => resume cfg i r e
  | TimerFire j => retry_callback cfg j e
  end.

Definition run (cfg : RuntimeConfig) (l : list Action) (e : Engine)
  : Engine :=
  fold_left (fun e a => step cfg a e) l e.

(** The number of executions of [performSync] in progress. *)
Definition in_progress (e : Engine) : nat := length (running e).

(** How the four awaited calls of one execution settle. *)
Record Outcomes : Type := {
  checked : Settled bool;
  generated : Settled bool;
  built : Settled bool;
  linked : Settled bool
}.

Definition outcome (os : Outcomes) (s : Step) : Settled bool :=
  match s with
  | CheckForMeaningfulChanges => checked os
  | GenerateClient => generated os
  | BuildClient => built os
  | LinkPackages => linked os
  end.

(** Resumes the execution at position [i] until it has finished; an
    execution has at most four awaits. *)
Fixpoint finish (fuel : nat) (cfg : RuntimeConfig) (os : Outcomes)
  (i : nat) (e : Engine) : Engine :=
  match fuel with
  | O => e
  | S fuel' =>
      match nth_error (running e) i with
      | None => e
      | Some s => finish fuel' cfg os i (resume cfg i (outcome os s) e)
      end
  end.

(** One execution from its start by [a] (a trigger or a retry timer) to
    its end, nothing else running in between. *)
Definition sync (cfg : RuntimeConfig) (a : Action) (os : Outcomes)
  (e : Engine) : Engine :=
  finish 4 cfg os (length (running e)) (step cfg a e).

(** The error with which one execution fails, if it does. *)
Definition failure (cfg : RuntimeConfig) (os : Outcomes) : option Error :=
  match checked os with
  | Rejected err => Some err
  | Resolved hasChanges =>
      if negb hasChanges && Strategy_eqb (strategy cfg) smart then None
      else
        match generated os with
        | Rejected err => Some err
        | Resolved _ =>
            let link :=
              if autoLink cfg then
                match linked os with
                | Rejected err => Some err
                | Resolved _ => None
                end
              else None in
            if truthy (buildCommand cfg) then
              match built os with
              | Rejected err => Some err
              | Resolved _ => link
              end
            else link
        end
  end.

(** The retries that follow a failed execution: while a retry timer is
    pending it fires and the execution it starts runs to its end,
    settling as the next element of [oss] says. *)
Fixpoint retries (cfg : RuntimeConfig) (oss : list Outcomes) (e : Engine)
  : Engine :=
  match timers e, oss with
  | _ :: _, os :: oss' => retries cfg oss' (sync cfg (TimerFire 0) os e)
  | _, _ => e
  end.

(** The delays of the retries announced in a trace. *)
Fixpoint retry_delays (t : list Obs) : list Z :=
  match t with
  | [] => []
  | RetryIn d _ :: t' => d :: retry_delays t'
  | _ :: t' => retry_delays t'
  end.

Definition is_event (k : SyncEventType) (o : Obs) : bool :=
  match o with
  | Emit ev =>
      match type ev, k with
      | spec_changed, spec_changed
      | generation_started, generation_started
      | generation_completed, generation_completed
      | generation_failed, generation_failed => true
      | _, _ => false
      end
  | _ => false
  end.

Definition is_call (s : Step) (o : Obs) : bool :=
  match o, s with
  | Call CheckForMeaningfulChanges, CheckForMeaningfulChanges
  | Call GenerateClient, GenerateClient
  | Call BuildClient, BuildClient
  | Call LinkPackages, LinkPackages => true
  | _, _ => false
  end.

Definition is_propagated (o : Obs) : bool :=
  match o with Propagated _ => true | _ => false end.

Definition count (p : Obs -> bool) (t : list Obs) : nat :=
  length (filter p t).

(** *** [checkForMeaningfulChanges], lines 336-401

    The change detector ([./swagger-diff.js]) is not part of the
    sources at hand; the method is embedded over any detector: a type
    of parsed documents, the detector's state, and its two methods.
    [hasSignificantChanges] may throw. *)
Section CheckForMeaningfulChanges.

Variable Doc : Type.
Variable Detector : Type.
Variable hasSignificantChanges : Doc -> Detector -> Settled bool * Detector.
Variable getCurrentHash : Detector -> option string.

(** The outcome of [await fetch(apiUrl, { signal: AbortSignal.timeout(5000) })]
    followed by [await response.json()]. *)
Inductive Fetched : Type :=
| FetchFailed (reason : Error)        (* network error, or the 5 s timeout *)
| Response (ok : bool) (statusText : string) (json : Settled Doc).

(** What the method finds outside the engine. *)
Record SpecSource : Type := {
  fetched : Fetched;                  (* the runtime endpoint *)
  existsSync : bool;                  (* existsSync(specPath) *)
  parsed : Settled Doc                (* JSON.parse(readFileSync(specPath, 'utf-8')) *)
}.

Definition isRuntimeSpec (cfg : RuntimeConfig) : bool :=
  String.prefix "runtime:" (apiSpecPath cfg)
  || String.prefix "/" (apiSpecPath cfg).

(** [path.join], without its normalisation of the result. *)
Definition join (a b : string) : string := a ++ "/" ++ b.

Definition message_of (e : Error) : string :=
  match e with
  | ApiSpecError m _ => m
  | GeneratorError m _ => m
  | ServiceStartError _ m => m
  | JsError m => m
  end.

(** The fields the method reads and writes. *)
Record Fields : Type := {
  changeDetector : Detector;
  lastGeneratedSpecHash : option string
}.

Definition checkForMeaningfulChanges (cfg : RuntimeConfig)
  (src : SpecSource) (f : Fields) : Settled bool * Fields :=
  if isRuntimeSpec cfg then
    match fetched src with
    | FetchFailed _ => (Resolved true, f)           (* catch, line 381 *)
    | Response false _ _ => (Resolved true, f)      (* !response.ok, line 362 *)
    | Response true _ (Rejected _) => (Resolved true, f)
    | Response true _ (Resolved currentSpec) =>
        match hasSignificantChanges currentSpec (changeDetector f) with
        | (Rejected _, d) =>
            (Resolved true,
             {| changeDetector := d;
                lastGeneratedSpecHash := lastGeneratedSpecHash f |})
        | (Resolved hasChanges, d) =>
            (Resolved hasChanges,
             {| changeDetector := d;
                lastGeneratedSpecHash :=
                  if hasChanges then
                    (if truthy (getCurrentHash d) then getCurrentHash d
                     else None)
                  else lastGeneratedSpecHash f |})
        end
    end
  else
    let specPath := join (backendPath cfg) (apiSpecPath cfg) in
    if negb (existsSync src) then
      (Rejected
         (ApiSpecError ("API spec file not found: " ++ specPath) specPath),
       f)
    else
      match parsed src with
      | Rejected err =>
          (Rejected
             (ApiSpecError ("Failed to parse API spec: " ++ message_of err)
                specPath), f)
      | Resolved currentSpec =>
          match hasSignificantChanges currentSpec (changeDetector f) with
          | (Rejected err, d) =>
              (Rejected
                 (ApiSpecError
                    ("Failed to parse API spec: " ++ message_of err)
                    specPath),
               {| changeDetector := d;
                  lastGeneratedSpecHash := lastGeneratedSpecHash f |})
          | (Resolved hasChanges, d) =>
              (Resolved hasChanges,
               {| changeDetector := d;
                  lastGeneratedSpecHash := lastGeneratedSpecHash f |})
          end
      end.

(** The comparison fetch fails: a network error or the timeout, or a
    status that is not OK. *)
Definition fetch_fails (src : SpecSource) : bool :=
  match fetched src with
  | FetchFailed _ => true
  | Response ok _ _ => negb ok
  end.

End CheckForMeaningfulChanges.

Arguments FetchFailed {Doc} reason.
Arguments Response {Doc} ok statusText json.
Arguments fetched {Doc} _.
Arguments existsSync {Doc} _.
Arguments parsed {Doc} _.
Arguments fetch_fails {Doc} src.
Arguments changeDetector {Detector} _.
Arguments lastGeneratedSpecHash {Detector} _.
Arguments checkForMeaningfulChanges {Doc Detector} _ _ _ _ _.

(** [shift l e]: the engine [e] with the executions [l] in progress
    ahead of its own. *)
Definition shift (l : list Step) (e : Engine) : Engine :=
  set_running (l ++ running e) e.

(** What the engine did between [e] and a later state [e']: the part
    of the trace of [e'] that comes after the trace of [e]. *)
Definition added (e e' : Engine) : list Obs :=
  skipn (List.length (trace e)) (trace e').

Definition started_ev : Obs :=
  Emit {| type := generation_started; error := None |}.
Definition failed_ev (err : Error) : Obs :=
  Emit {| type := generation_failed; error := Some err |}.
Definition completed_ev : Obs :=
  Emit {| type := generation_completed; error := None |}.

Definition is_max_retries (o : Obs) : bool :=
  match o with MaxRetriesExceeded => true | _ => false end.

(** A configuration as in [oats.config.example.json]: smart strategy,
    a build command, automatic linking, a runtime specification. *)
Definition example_config : RuntimeConfig :=
  {| strategy := smart; autoLink := true; runInitialGeneration := true;
     buildCommand := Some "npm run build"%string;
     apiSpecPath := "runtime:/openapi.json"%string;
     backendPath := "/work/backend"%string |}.

(** The detector reports no significant change. *)
Definition unchanged : Outcomes :=
  {| checked := Resolved false; generated := Resolved true;
     built := Resolved true; linked := Resolved true |}.

(** The specification changed and the generation command fails. *)
Definition generation_fails : Outcomes :=
  {| checked := Resolved true;
     generated :=
       Rejected (JsError "Command failed: npx @hey-api/openapi-ts");
     built := Resolved true; linked := Resolved true |}.

Definition is_timer (a : Action) : bool :=
  match a with TimerFire _ => true | _ => false end.

(** The values of the retry counter announced in a trace. *)
Fixpoint retry_attempts (t : list Obs) : list Z :=
  match t with
  | [] => []
  | RetryIn _ n :: t' => n :: retry_attempts t'
  | _ :: t' => retry_attempts t'
  end.

(** What one failed execution adds to the trace when it starts with
    the retry counter at [k]: it starts and fails once, with [err], it
    does not complete, nothing leaves [performSync], and it either
    announces one retry, after [2 ^ (k + 1) * 1000] ms, or gives up. *)
Definition failed_run (k : Z) (err : Error) (t : list Obs) : Prop :=
  count (is_event generation_started) t = 1%nat /\
  count (is_event generation_failed) t = 1%nat /\
  count (is_event generation_completed) t = 0%nat /\
  count is_propagated t = 0%nat /\
  In (failed_ev err) t /\
  retry_delays t = (if k <? 3 then [2 ^ (k + 1) * 1000] else []) /\
  retry_attempts t = (if k <? 3 then [k + 1] else []) /\
  count is_max_retries t = (if k <? 3 then 0%nat else 1%nat).

(** [start()], lines 136-141: the initial synchronisation is awaited,
    so [start] rejects exactly when that execution of [performSync]
    does. *)
Definition start_initial_sync (cfg : RuntimeConfig) (os : Outcomes)
  (e : Engine) : Engine :=
  if runInitialGeneration cfg then sync cfg Trigger os e else e.

End DevSyncEngine.


(* ------------------------------------------------------------------ *)
(** ** PortManager ([src/utils/port-manager.ts])                        *)
(* ------------------------------------------------------------------ *)

Module PortManager.

(** How [freePort] asks for a process to be ended. *)
Inductive KillMethod : Type :=
| Graceful      (* PlatformUtils.killProcess(pidNum) *)
| Sigkill       (* PlatformUtils.killProcess(pidNum, 'SIGKILL') *)
| ForceKill.    (* this.forceKillProcess(pidNum): kill -9 and pkill -9 -P,
                     or taskkill /F /T *)

(** The calls [freePort] makes, with what they answered. *)
Inductive Op : Type :=
| OpIsPortInUse (port : Z) (inUse : bool)
| OpGetProcessesUsingPort (port : Z) (pids : list string)
| OpKill (m : KillMethod) (pidNum : Z) (attempt : Z)
| OpWait (delay : Z)
| OpHasElevatedPrivileges (elevated : bool)
| OpTip.        (* 'Tip: Try running with elevated privileges:' *)

(** The machine [freePort] runs on: each call may change it.  A kill
    that throws is caught (line 205), so only its effect counts. *)
Record System (W : Type) : Type := {
  isPortInUse : Z -> W -> bool * W;
  getProcessesUsingPort : Z -> W -> list string * W;
  kill : KillMethod -> Z -> W -> W;
  sleep : Z -> W -> W;
  hasElevatedPrivileges : W -> bool * W
}.
Arguments isPortInUse {W} _ _ _.
Arguments getProcessesUsingPort {W} _ _ _.
Arguments kill {W} _ _ _ _.
Arguments sleep {W} _ _ _.
Arguments hasElevatedPrivileges {W} _ _.

Definition maxAttempts : Z := 5.
Definition initialDelay : Z := 500.
Definition maxDelay : Z := 5000.
Definition backoffMultiplier : Z := 2.

Definition digit (c : Ascii.ascii) : Z :=
  Z.of_nat (Ascii.nat_of_ascii c) - 48.

(** [parseInt(pid, 10)] on a string of decimal digits, which is what
    the filter [/^\d+$/] of [getProcessesUsingPort] lets through. *)
Fixpoint parseInt_from (acc : Z) (s : string) : Z :=
  match s with
  | EmptyString => acc
  | String c s' => parseInt_from (acc * 10 + digit c) s'
  end.

Definition parseInt (s : string) : Z := parseInt_from 0 s.

(** Lines 188-204: the method used in attempt [attempt]. *)
Definition method_of (attempt : Z) : KillMethod :=
  if attempt =? 1 then Graceful
  else if attempt =? 2 then Sigkill
  else ForceKill.

Section FreePort.

Context {W : Type} (sys : System W).

(** A state of the run: the machine and the calls made so far. *)
Definition Run : Type := (W * list Op)%type.

(** Lines 181-208: [for (const pid of pids) { ... }] *)
Fixpoint kill_all (attempt : Z) (pids : list string) (r : Run) : Run :=
  match pids with
  | [] => r
  | pid :: rest =>
      let pidNum := parseInt pid in
      let m := method_of attempt in
      kill_all attempt rest
        (kill sys m pidNum (fst r), snd r ++ [OpKill m pidNum attempt])
  end.

Definition join_pids (pids : list string) : string :=
  String.concat "," pids.

(** Lines 243-260, after the loop. *)
Definition all_attempts_failed (port : Z) (r : Run) : Settled unit * Run :=
  let '(hasElevated, w) := hasElevatedPrivileges sys (fst r) in
  let t := snd r ++ [OpHasElevatedPrivileges hasElevated] in
  let t := if negb hasElevated then t ++ [OpTip] else t in
  (Rejected
     (JsError
        ("Failed to free port "
         ++ DecimalString.NilZero.string_of_int (Z.to_int port)
         ++ " after "
         ++ DecimalString.NilZero.string_of_int (Z.to_int maxAttempts)
         ++ " attempts with exponential backoff")),
   (w, t)).

(** Lines 176-240: [while (attempt < maxAttempts && !portFreed)].
    [left] counts the iterations that remain, [maxAttempts - attempt];
    [portFreed] is false whenever the condition is evaluated, since
    the body returns as soon as it becomes true. *)
Fixpoint attempts (left : nat) (port : Z) (attempt delay : Z)
  (pids : list string) (r : Run) : Settled unit * Run :=
  match left with
  | O => all_attempts_failed port r
  | S left' =>
      let attempt := attempt + 1 in
      let r := kill_all attempt pids r in
      let r := (sleep sys delay (fst r), snd r ++ [OpWait delay]) in
      let '(inUse, w) := isPortInUse sys port (fst r) in
      let r := (w, snd r ++ [OpIsPortInUse port inUse]) in
      if negb inUse then (Resolved tt, r)
      else
        let '(newPids, w) := getProcessesUsingPort sys port (fst r) in
        let r := (w, snd r ++ [OpGetProcessesUsingPort port newPids]) in
        let pids :=
          if (0 <? Z.of_nat (List.length newPids))
             && negb (String.eqb (join_pids newPids) (join_pids pids))
          then newPids else pids in
        let delay := Z.min (delay * backoffMultiplier) maxDelay in
        attempts left' port attempt delay pids r
  end.

(** [PortManager.freePort(port, serviceName)], lines 136-267. *)
Definition freePort (port : Z) (w : W) : Settled unit * Run :=
  let '(isInUse, w) := isPortInUse sys port w in
  let r : Run := (w, [OpIsPortInUse port isInUse]) in
  if negb isInUse then (Resolved tt, r)
  else
    let '(pids, w) := getProcessesUsingPort sys port (fst r) in
    let r : Run := (w, snd r ++ [OpGetProcessesUsingPort port pids]) in
    if Z.of_nat (List.length pids) =? 0 then
      (Rejected
         (JsError
            ("Port "
             ++ DecimalString.NilZero.string_of_int (Z.to_int port)
             ++ " is in use but could not identify the process")),
       r)
    else
      attempts (Z.to_nat maxAttempts) port 0 initialDelay pids r.

End FreePort.

(** The delays of [n] successive waits, the first of them [delay]
    (line 239). *)
Fixpoint backoff (n : nat) (delay : Z) : list Z :=
  match n with
  | O => []
  | S n' => delay :: backoff n' (Z.min (delay * backoffMultiplier) maxDelay)
  end.

(** The kills of one attempt. *)
Definition kill_ops (attempt : Z) (pids : list string) : list Op :=
  map (fun pid => OpKill (method_of attempt) (parseInt pid) attempt) pids.

(** The delays waited, the attempts that killed, and the checks made,
    read off the calls. *)
Fixpoint waits (t : list Op) : list Z :=
  match t with
  | [] => []
  | OpWait d :: t' => d :: waits t'
  | _ :: t' => waits t'
  end.

Fixpoint kills (t : list Op) : list (KillMethod * Z) :=
  match t with
  | [] => []
  | OpKill m _ a :: t' => (m, a) :: kills t'
  | _ :: t' => kills t'
  end.

(** The escalation of the kills: a graceful signal in attempt 1,
    SIGKILL in attempt 2, the force kill of the operating system from
    attempt 3 to the last, the fifth. *)
Definition escalated (mk : KillMethod * Z) : Prop :=
  (snd mk = 1 /\ fst mk = Graceful)
  \/ (snd mk = 2 /\ fst mk = Sigkill)
  \/ (3 <= snd mk <= maxAttempts /\ fst mk = ForceKill).

(** The error [freePort] throws when it gives up, line 258. *)
Definition gave_up (port : Z) : Error :=
  JsError
    ("Failed to free port "
     ++ DecimalString.NilZero.string_of_int (Z.to_int port)
     ++ " after "
     ++ DecimalString.NilZero.string_of_int (Z.to_int maxAttempts)
     ++ " attempts with exponential backoff").

Definition is_tip (o : Op) : bool :=
  match o with OpTip => true | _ => false end.

(** Every wait is followed at once by a check of the port, and every
    such check that finds the port in use by a new look at its owners. *)
Fixpoint rechecked (port : Z) (t : list Op) : bool :=
  match t with
  | [] => true
  | OpWait _ :: t' =>
      match t' with
      | OpIsPortInUse p false :: _ => (p =? port) && rechecked port t'
      | OpIsPortInUse p true :: OpGetProcessesUsingPort q _ :: _ =>
          (p =? port) && (q =? port) && rechecked port t'
      | _ => false
      end
  | _ :: t' => rechecked port t'
  end.

(** One turn of the loop of [freePort], lines 176-240: the attempt's
    number, the processes it signals (the owners known when it starts),
    the delay it waits, what the check of the port after the wait
    answers, and the owners the new look finds when the port is still
    in use. *)
Record Round : Type := {
  attempt_no : Z;
  owners : list string;
  waited : Z;
  still_in_use : bool;
  found : list string
}.

(** The calls of one turn, in order: one kill for each owner, the wait,
    the check of the port, and the new look at the owners when the port
    is still in use. *)
Definition round_ops (port : Z) (r : Round) : list Op :=
  kill_ops (attempt_no r) (owners r)
  ++ [OpWait (waited r); OpIsPortInUse port (still_in_use r)]
  ++ (if still_in_use r then [OpGetProcessesUsingPort port (found r)]
      else []).

(** The owners the next turn signals, lines 226-232: the list just
    found when it is not empty and differs (joined by commas) from the
    current one, the current list otherwise. *)
Definition next_owners (pids newPids : list string) : list string :=
  if (0 <? Z.of_nat (List.length newPids))
     && negb (String.eqb (join_pids newPids) (join_pids pids))
  then newPids else pids.

(** The turns follow one another as the loop runs them: numbered from
    [attempt + 1] on, each one signalling the owners current at its
    start and waiting the current delay, the delay doubling up to
    [maxDelay], the owners replaced by [next_owners]; every turn but
    the last found the port in use. *)
Fixpoint escalating (attempt delay : Z) (pids : list string)
  (rs : list Round) : Prop :=
  match rs with
  | [] => True
  | r :: rs' =>
      attempt_no r = attempt + 1 /\ owners r = pids /\ waited r = delay /\
      (rs' <> [] -> still_in_use r = true) /\
      escalating (attempt + 1) (Z.min (delay * backoffMultiplier) maxDelay)
        (next_owners pids (found r)) rs'
  end.

(** The calls made when all attempts failed, lines 243-256: the check
    of the privileges, and the tip when the process has none. *)
Definition gave_up_ops (elevated : bool) : list Op :=
  OpHasElevatedPrivileges elevated :: if elevated then [] else [OpTip].

(** A call that asks for a process to be ended. *)
Definition is_kill (o : Op) : bool :=
  match o with OpKill _ _ _ => true | _ => false end.

(** A machine on which nothing frees the port: the same processes own
    it whatever is done.  Its state counts the calls. *)
Definition stubborn (owners : list string) (elevated : bool) : System nat :=
  {| isPortInUse := fun _ w => (true, S w);
     getProcessesUsingPort := fun _ w => (owners, S w);
     kill := fun _ _ w => S w;
     sleep := fun _ w => S w;
     hasElevatedPrivileges := fun w => (elevated, S w) |}.

(** A machine on which the process [owner] holds the port and ignores
    the graceful signal: the port is free once that process has been
    sent SIGKILL or force killed.  Its state says whether the process
    is alive. *)
Definition yielding (owner : string) : System bool :=
  {| isPortInUse := fun _ alive => (alive, alive);
     getProcessesUsingPort := fun _ alive =>
       (if alive then [owner] else [], alive);
     kill := fun m pidNum alive =>
       match m with
       | Graceful => alive
       | _ => if pidNum =? parseInt owner then false else alive
       end;
     sleep := fun _ alive => alive;
     hasElevatedPrivileges := fun alive => (false, alive) |}.

(** A machine on which the port is free. *)
Definition idle : System nat :=
  {| isPortInUse := fun _ w => (false, S w);
     getProcessesUsingPort := fun _ w => ([], S w);
     kill := fun _ _ w => S w;
     sleep := fun _ w => S w;
     hasElevatedPrivileges := fun w => (false, S w) |}.

End PortManager.


(* ------------------------------------------------------------------ *)
(** ** BaseService ([src/core/services/base-service.ts])                *)
(* ------------------------------------------------------------------ *)

Module BaseService.

Inductive ServiceState : Type :=
| STOPPED | STARTING | RUNNING | STOPPING | ERROR.

Definition ServiceState_eqb (a b : ServiceState) : bool :=
  match a, b with
  | STOPPED, STOPPED | STARTING, STARTING | RUNNING, RUNNING
  | STOPPING, STOPPING | ERROR, ERROR => true
  | _, _ => false
  end.

(** [ServiceConfig], with what [processManager.startProcess] does for
    this service's command: it returns a child process (a handle) or
    throws. *)
Record ServiceConfig : Type := {
  name : string;
  port : option Z;
  startProcess : Settled nat
}.

(** The awaited calls of [start] and [stop]. *)
Inductive Wait : Type :=
| checkPort         (* await this.checkPort() *)
| waitForReady      (* await this.waitForReady() *)
| killProcess.      (* await this.processManager.killProcess(this.process) *)

Record Service : Type := {
  state : ServiceState;
  error : option Error;
  process : option nat;
  pending : list Wait;                            (* calls suspended at an await *)
  emitted : list (ServiceState * ServiceState);   (* 'stateChange' events *)
  rejected : list Error                           (* rejections of start() and stop() *)
}.

(** A service as the constructor leaves it. *)
Definition init : Service :=
  {| state := STOPPED; error := None; process := None; pending := [];
     emitted := []; rejected := [] |}.

(** [setState], lines 211-215. *)
Definition setState (st : ServiceState) (s : Service) : Service :=
  {| state := st; error := error s; process := process s;
     pending := pending s; emitted := emitted s ++ [(state s, st)];
     rejected := rejected s |}.

Definition set_error (err : option Error) (s : Service) : Service :=
  {| state := state s; error := err; process := process s;
     pending := pending s; emitted := emitted s; rejected := rejected s |}.

Definition set_process (p : option nat) (s : Service) : Service :=
  {| state := state s; error := error s; process := p;
     pending := pending s; emitted := emitted s; rejected := rejected s |}.

Definition set_pending (l : list Wait) (s : Service) : Service :=
  {| state := state s; error := error s; process := process s;
     pending := l; emitted := emitted s; rejected := rejected s |}.

Definition reject (err : Error) (s : Service) : Service :=
  {| state := state s; error := error s; process := process s;
     pending := pending s; emitted := emitted s;
     rejected := rejected s ++ [err] |}.

Inductive Completion : Type :=
| Await (w : Wait)
| Return
| Throw (err : Error).

(** [if (this.config.port)]: a port that is absent or 0 is falsy. *)
Definition has_port (cfg : ServiceConfig) : bool :=
  match port cfg with
  | None => false
  | Some p => negb (p =? 0)
  end.

(** Lines 92-103: the process is started and [waitForReady] awaited. *)
Definition start_spawn (cfg : ServiceConfig) (s : Service)
  : Service * Completion :=
  match startProcess cfg with
  | Rejected err => (s, Throw err)
  | Resolved child => (set_process (Some child) s, Await waitForReady)
  end.

(** The [catch] block of [start], lines 110-118. *)
Definition start_catch (cfg : ServiceConfig) (err : Error) (s : Service)
  : Service * Completion :=
  let s := set_error (Some err) s in
  let s := setState ERROR s in
  (s, Throw (ServiceStartError (name cfg)
               (DevSyncEngine.message_of err))).

Definition start_try (cfg : ServiceConfig) (body : Service * Completion)
  : Service * Completion :=
  match body with
  | (s, Throw err) => start_catch cfg err s
  | other => other
  end.

Definition settle_task (i : nat) (r : Service * Completion) : Service :=
  match r with
  | (s, Await w) => set_pending (update_task i (Some w) (pending s)) s
  | (s, Return) => set_pending (update_task i None (pending s)) s
  | (s, Throw err) =>
      reject err (set_pending (update_task i None (pending s)) s)
  end.

(** [start()], lines 73-90, up to its first [await]. *)
Definition start (cfg : ServiceConfig) (s : Service) : Service :=
  if negb (ServiceState_eqb (state s) STOPPED) then s
  else
    let s := setState STARTING s in
    let s := set_error None s in
    let i := List.length (pending s) in
    let s := set_pending (pending s ++ [checkPort]) s in
    settle_task i
      (start_try cfg
         (if has_port cfg then (s, Await checkPort)
          else start_spawn cfg s)).

(** [stop()], lines 124-137, up to its [await]. *)
Definition stop (s : Service) : Service :=
  if ServiceState_eqb (state s) STOPPED then s
  else
    let s := setState STOPPING s in
    match process s with
    | Some _ => set_pending (pending s ++ [killProcess]) s
    | None => setState STOPPED s
    end.

(** The call suspended at position [i] goes on: what it awaited settled
    as [r]. *)
Definition resume (cfg : ServiceConfig) (i : nat) (r : Settled unit)
  (s : Service) : Service :=
  match nth_error (pending s) i with
  | None => s
  | Some checkPort =>
      settle_task i
        (start_try cfg
           (match r with
            | Rejected err => (s, Throw err)
            | Resolved _ => start_spawn cfg s
            end))
  | Some waitForReady =>
      settle_task i
        (start_try cfg
           (match r with
            | Rejected err => (s, Throw err)
            | Resolved _ => (setState RUNNING s, Return)
            end))
  | Some killProcess =>
      settle_task i
        (match r with
         | Rejected err => (s, Throw err)
         | Resolved _ => (setState STOPPED (set_process None s), Return)
         end)
  end.

Definition code_text (code : option Z) : string :=
  match code with
  | None => "null"
  | Some c => DecimalString.NilZero.string_of_int (Z.to_int c)
  end.

(** The handler of the process's ['exit'] event, lines 195-205. *)
Definition on_exit (code : option Z) (s : Service) : Service :=
  if ServiceState_eqb (state s) STOPPING then s
  else if ServiceState_eqb (state s) RUNNING then
    let s :=
      set_error
        (Some (JsError ("Process exited unexpectedly with code "
                        ++ code_text code))) s in
    setState ERROR s
  else s.

Inductive Action : Type :=
| Start
| Stop
| Settle (i : nat) (r : Settled unit)
| Exit (code : option Z).

Definition step (cfg : ServiceConfig) (a : Action) (s : Service) : Service :=
  match a with
  | Start => start cfg s
  | Stop => stop s
  | Settle i r => resume cfg i r s
  | Exit code => on_exit code s
  end.

Definition run (cfg : ServiceConfig) (l : list Action) (s : Service)
  : Service :=
  fold_left (fun s a => step cfg a s) l s.

(** The action belongs to a call of [start]: the call itself, or the
    settling of a promise that [start] awaits. *)
Definition of_start (a : Action) (s : Service) : bool :=
  match a with
  | Start => true
  | Settle i _ =>
      match nth_error (pending s) i with
      | Some checkPort | Some waitForReady => true
      | _ => false
      end
  | _ => false
  end.

(** A service whose process started and became ready. *)
Definition example_config : ServiceConfig :=
  {| name := "backend"; port := Some 4000; startProcess := Resolved 1%nat |}.

Definition running_service : Service :=
  run example_config [Start; Settle 0 (Resolved tt); Settle 0 (Resolved tt)]
    init.

End BaseService.

(* ------------------------------------------------------------------ *)
(** ** DevSyncOrchestrator ([src/core/orchestrator.ts])                 *)
(* ------------------------------------------------------------------ *)

Module DevSyncOrchestrator.

(** The steps of the stop sequence, as they are carried out. *)
Inductive Op : Type :=
| Begin                           (* a call of stop() passes the guard *)
| StopSyncEngine                  (* this.syncEngine.stop() *)
| StopService (name : string)     (* service.stop() *)
| StopFailed (name : string)      (* logger.error(`Failed to stop ...`) *)
| KillAll                         (* this.processManager.killAll() *)
| UnlinkPackages                  (* this.unlinkPackages() *)
| CloseConfigWatcher              (* this.configWatcher.close() *)
| ShutdownComplete.               (* the end of stop() is reached *)

(** The awaited calls of [stop]. *)
Inductive Wait : Type :=
| stopPromises      (* await Promise.all(stopPromises) *)
| killAll
| unlinkPackages
| closeWatcher.

(** [stop] is private; it is called by [shutdown], which ends the
    process when [stop] has returned, and by the handler of the
    configuration watcher, which goes on to restart. *)
Inductive Caller : Type := shutdown | configChange.

Record Orchestrator : Type := {
  isShuttingDown : bool;
  syncEngine : bool;              (* this.syncEngine is defined *)
  services : list string;         (* the keys of this.services, in order *)
  configWatcher : bool;           (* this.configWatcher is defined *)
  pending : list (Wait * Caller); (* calls of stop() suspended at an await *)
  trace : list Op;
  rejected : list Error;          (* rejections of stop() *)
  exited : option Z               (* process.exit(code) was called *)
}.

Definition set_isShuttingDown (b : bool) (o : Orchestrator) : Orchestrator :=
  {| isShuttingDown := b; syncEngine := syncEngine o;
     services := services o; configWatcher := configWatcher o;
     pending := pending o; trace := trace o; rejected := rejected o;
     exited := exited o |}.

Definition set_syncEngine (b : bool) (o : Orchestrator) : Orchestrator :=
  {| isShuttingDown := isShuttingDown o; syncEngine := b;
     services := services o; configWatcher := configWatcher o;
     pending := pending o; trace := trace o; rejected := rejected o;
     exited := exited o |}.

Definition set_configWatcher (b : bool) (o : Orchestrator) : Orchestrator :=
  {| isShuttingDown := isShuttingDown o; syncEngine := syncEngine o;
     services := services o; configWatcher := b;
     pending := pending o; trace := trace o; rejected := rejected o;
     exited := exited o |}.

Definition set_pending (l : list (Wait * Caller)) (o : Orchestrator)
  : Orchestrator :=
  {| isShuttingDown := isShuttingDown o; syncEngine := syncEngine o;
     services := services o; configWatcher := configWatcher o;
     pending := l; trace := trace o; rejected := rejected o;
     exited := exited o |}.

Definition log (ops : list Op) (o : Orchestrator) : Orchestrator :=
  {| isShuttingDown := isShuttingDown o; syncEngine := syncEngine o;
     services := services o; configWatcher := configWatcher o;
     pending := pending o; trace := trace o ++ ops;
     rejected := rejected o; exited := exited o |}.

Definition reject (err : Error) (o : Orchestrator) : Orchestrator :=
  {| isShuttingDown := isShuttingDown o; syncEngine := syncEngine o;
     services := services o; configWatcher := configWatcher o;
     pending := pending o; trace := trace o;
     rejected := rejected o ++ [err]; exited := exited o |}.

(** [process.exit(code)] *)
Definition exit (code : Z) (o : Orchestrator) : Orchestrator :=
  {| isShuttingDown := isShuttingDown o; syncEngine := syncEngine o;
     services := services o; configWatcher := configWatcher o;
     pending := pending o; trace := trace o; rejected := rejected o;
     exited := Some code |}.

(** What follows [await this.stop()] in the caller: [shutdown] calls
    [process.exit(0)], line 233. *)
Definition returned (c : Caller) (o : Orchestrator) : Orchestrator :=
  match c with
  | shutdown => exit 0 o
  | configChange => o
  end.

(** [stop()], lines 239-261, up to [await Promise.all(stopPromises)]:
    [map] calls [stop()] on every service before anything is awaited. *)
Definition stop (c : Caller) (o : Orchestrator) : Orchestrator :=
  if isShuttingDown o then returned c o
  else
    let o := set_isShuttingDown true o in
    let o := log [Begin] o in
    let o :=
      if syncEngine o then set_syncEngine false (log [StopSyncEngine] o)
      else o in
    let o := log (map StopService (services o)) o in
    set_pending (pending o ++ [(stopPromises, c)]) o.

(** The [.catch] handlers of lines 257-259, one per service: a stop
    that rejects is logged. *)
Fixpoint caught (names : list string) (rs : list (Settled unit)) : list Op :=
  match names, rs with
  | n :: names', Rejected _ :: rs' => StopFailed n :: caught names' rs'
  | _ :: names', Resolved _ :: rs' => caught names' rs'
  | _, _ => []
  end.

(** Lines 275-280, the end of [stop]. *)
Definition stop_end (i : nat) (c : Caller) (o : Orchestrator)
  : Orchestrator :=
  let o := log [ShutdownComplete] o in
  let o := set_isShuttingDown false o in
  returned c (set_pending (update_task i None (pending o)) o).

(** The call of [stop] suspended at position [i] goes on.  At
    [stopPromises] the services' stops have settled as [rs]; at the
    other awaits the awaited promise settled as [r].  There is no
    [try] around the sequence: a rejection leaves [stop] at once. *)
Definition resume (i : nat) (rs : list (Settled unit)) (r : Settled unit)
  (o : Orchestrator) : Orchestrator :=
  match nth_error (pending o) i with
  | None => o
  | Some (stopPromises, c) =>
      let o := log (caught (services o) rs) o in
      let o := log [KillAll] o in
      set_pending (update_task i (Some (killAll, c)) (pending o)) o
  | Some (w, c) =>
      match r with
      | Rejected err =>
          reject err (set_pending (update_task i None (pending o)) o)
      | Resolved _ =>
          match w with
          | killAll =>
              let o := log [UnlinkPackages] o in
              set_pending
                (update_task i (Some (unlinkPackages, c)) (pending o)) o
          | unlinkPackages =>
              if configWatcher o then
                let o := log [CloseConfigWatcher] o in
                set_pending
                  (update_task i (Some (closeWatcher, c)) (pending o)) o
              else stop_end i c o
          | _ => stop_end i c (set_configWatcher false o)
          end
      end
  end.

Inductive Action : Type :=
| Call (c : Caller)                     (* stop() is called *)
| Settle (i : nat) (rs : list (Settled unit)) (r : Settled unit).

(** Nothing runs once the process has exited. *)
Definition step (a : Action) (o : Orchestrator) : Orchestrator :=
  match exited o with
  | Some _ => o
  | None =>
      match a with
      | Call c => stop c o
      | Settle i rs r => resume i rs r o
      end
  end.

Definition run (l : list Action) (o : Orchestrator) : Orchestrator :=
  fold_left (fun o a => step a o) l o.

(** An orchestrator with its services started and nothing stopping. *)
Definition started (names : list string) : Orchestrator :=
  {| isShuttingDown := false; syncEngine := true; services := names;
     configWatcher := true; pending := []; trace := [];
     rejected := []; exited := None |}.

Definition Op_eqb (a b : Op) : bool :=
  match a, b with
  | Begin, Begin
  | StopSyncEngine, StopSyncEngine | KillAll, KillAll
  | UnlinkPackages, UnlinkPackages
  | CloseConfigWatcher, CloseConfigWatcher
  | ShutdownComplete, ShutdownComplete => true
  | StopService n, StopService m | StopFailed n, StopFailed m =>
      String.eqb n m
  | _, _ => false
  end.

Definition occurrences (op : Op) (t : list Op) : nat :=
  List.length (filter (Op_eqb op) t).

(** The executions of the stop sequence in progress. *)
Definition in_progress (o : Orchestrator) : nat := List.length (pending o).

(** The flag guards the sequence: no execution is in progress, or the
    flag is set and exactly one is. *)
Definition guarded (o : Orchestrator) : Prop :=
  pending o = []
  \/ (isShuttingDown o = true /\ exists x, pending o = [x]).

End DevSyncOrchestrator.


(* ------------------------------------------------------------------ *)
(** ** ShutdownManager ([src/utils/shutdown-manager.ts])                *)
(* ------------------------------------------------------------------ *)

(** The later orchestrator hands its stop sequence to this class:
    [shutdown()] and [stop(keepConfigWatcher)] both call
    [shutdownManager.shutdown], the second with [exitProcess: false]. *)
Module ShutdownManager.

(** The first argument of [shutdown]: what there is to stop. *)
Record Targets : Type := {
  syncEngine : bool;              (* services.syncEngine is defined *)
  services : list string;         (* the keys of services.services *)
  configWatcher : bool;           (* services.configWatcher is defined *)
  unlinkPackages : bool           (* services.unlinkPackages is defined *)
}.

Record ShutdownOptions : Type := {
  keepConfigWatcher : bool;       (* default false *)
  exitProcess : bool              (* default true *)
}.

Inductive Op : Type :=
| Begin                           (* a call of shutdown() passes the guard *)
| Refused                         (* 'Shutdown already in progress' *)
| StopSyncEngine                  (* services.syncEngine.stop() *)
| StopService (name : string)     (* service.stop() *)
| StopFailed (name : string)      (* 'Failed to stop ...' *)
| KillAll                         (* services.processManager.killAll() *)
| UnlinkPackages                  (* services.unlinkPackages() *)
| RunHandler (k : nat)            (* this.shutdownHandlers[k]() *)
| HandlerFailed (k : nat)         (* 'Shutdown handler failed:' *)
| CloseConfigWatcher              (* services.configWatcher.close() *)
| ShutdownComplete
| ShutdownFailed.                 (* 'Shutdown failed:' *)

(** The awaited calls of [shutdown]. *)
Inductive Wait : Type :=
| shutdownTasks       (* await Promise.all(shutdownTasks) *)
| killAll
| unlink
| handler (k : nat)   (* await handler(), the k-th registered handler *)
| closeWatcher.

(** A call of [shutdown] suspended at an await, with its arguments. *)
Record Task : Type := {
  waits_for : Wait;
  targets : Targets;
  options : ShutdownOptions
}.

Record Manager : Type := {
  isShuttingDown : bool;
  shutdownHandlers : nat;         (* this.shutdownHandlers.length *)
  pending : list Task;
  trace : list Op;
  rejected : list Error;          (* rejections of shutdown() *)
  exited : option Z               (* process.exit(code) was called *)
}.

(** [ShutdownManager.getInstance()] with [handlers] handlers registered. *)
Definition init (handlers : nat) : Manager :=
  {| isShuttingDown := false; shutdownHandlers := handlers; pending := [];
     trace := []; rejected := []; exited := None |}.

Definition set_isShuttingDown (b : bool) (m : Manager) : Manager :=
  {| isShuttingDown := b; shutdownHandlers := shutdownHandlers m;
     pending := pending m; trace := trace m; rejected := rejected m;
     exited := exited m |}.

Definition set_pending (l : list Task) (m : Manager) : Manager :=
  {| isShuttingDown := isShuttingDown m;
     shutdownHandlers := shutdownHandlers m;
     pending := l; trace := trace m; rejected := rejected m;
     exited := exited m |}.

Definition log (ops : list Op) (m : Manager) : Manager :=
  {| isShuttingDown := isShuttingDown m;
     shutdownHandlers := shutdownHandlers m;
     pending := pending m; trace := trace m ++ ops; rejected := rejected m;
     exited := exited m |}.

Definition reject (err : Error) (m : Manager) : Manager :=
  {| isShuttingDown := isShuttingDown m;
     shutdownHandlers := shutdownHandlers m;
     pending := pending m; trace := trace m;
     rejected := rejected m ++ [err]; exited := exited m |}.

(** [process.exit(code)] *)
Definition exit (code : Z) (m : Manager) : Manager :=
  {| isShuttingDown := isShuttingDown m;
     shutdownHandlers := shutdownHandlers m;
     pending := pending m; trace := trace m; rejected := rejected m;
     exited := Some code |}.

Inductive Completion : Type :=
| Await (w : Wait)
| Return
| Throw (err : Error)
| Exited.                 (* the process has ended *)

(** Lines 120-124, the end of the [try] block. *)
Definition complete (opt : ShutdownOptions) (m : Manager)
  : Manager * Completion :=
  let m := log [ShutdownComplete] m in
  if exitProcess opt then (exit 0 m, Exited) else (m, Return).

(** Lines 115-118. *)
Definition close_watcher (tg : Targets) (opt : ShutdownOptions) (m : Manager)
  : Manager * Completion :=
  if negb (keepConfigWatcher opt) && configWatcher tg
  then (log [CloseConfigWatcher] m, Await closeWatcher)
  else complete opt m.

(** Lines 107-113: the [k]-th handler is called, if there is one. *)
Definition run_handler (k : nat) (tg : Targets) (opt : ShutdownOptions)
  (m : Manager) : Manager * Completion :=
  if (k <? shutdownHandlers m)%nat
  then (log [RunHandler k] m, Await (handler k))
  else close_watcher tg opt m.

(** Lines 102-104. *)
Definition unlink_packages (tg : Targets) (opt : ShutdownOptions)
  (m : Manager) : Manager * Completion :=
  if unlinkPackages tg then (log [UnlinkPackages] m, Await unlink)
  else run_handler 0 tg opt m.

(** The [.catch] of the sync engine's stop and the [try]/[catch] around
    each service's stop, lines 76-94: [rs] says how the services' stops
    settled. *)
Fixpoint caught (names : list string) (rs : list (Settled unit)) : list Op :=
  match names, rs with
  | n :: names', Rejected _ :: rs' => StopFailed n :: caught names' rs'
  | _ :: names', Resolved _ :: rs' => caught names' rs'
  | _, _ => []
  end.

(** The [try] block resumed at the await of [w]. *)
Definition try_resume (w : Wait) (tg : Targets) (opt : ShutdownOptions)
  (rs : list (Settled unit)) (r : Settled unit) (m : Manager)
  : Manager * Completion :=
  match w with
  | shutdownTasks =>
      (log [KillAll] (log (caught (services tg) rs) m), Await killAll)
  | handler k =>
      let m := match r with
               | Rejected _ => log [HandlerFailed k] m
               | Resolved _ => m
               end in
      run_handler (S k) tg opt m
  | _ =>
      match r with
      | Rejected err => (m, Throw err)
      | Resolved _ =>
          match w with
          | killAll => unlink_packages tg opt m
          | unlink => run_handler 0 tg opt m
          | _ => complete opt m
          end
      end
  end.

(** [catch (error) { ... } finally { ... }], lines 125-133. *)
Definition try_catch_finally (opt : ShutdownOptions)
  (body : Manager * Completion) : Manager * Completion :=
  match body with
  | (m, Throw err) =>
      let m := log [ShutdownFailed] m in
      if exitProcess opt then (exit 1 m, Exited)
      else (set_isShuttingDown false m, Throw err)
  | (m, Return) => (set_isShuttingDown false m, Return)
  | other => other
  end.

Definition settle_task (i : nat) (tg : Targets) (opt : ShutdownOptions)
  (r : Manager * Completion) : Manager :=
  match r with
  | (m, Await w) =>
      set_pending
        (update_task i
           (Some {| waits_for := w; targets := tg; options := opt |})
           (pending m)) m
  | (m, Return) | (m, Exited) =>
      set_pending (update_task i None (pending m)) m
  | (m, Throw err) =>
      reject err (set_pending (update_task i None (pending m)) m)
  end.

(** [shutdown(services, options)], lines 52-96, up to
    [await Promise.all(shutdownTasks)]. *)
Definition shutdown (tg : Targets) (opt : ShutdownOptions) (m : Manager)
  : Manager :=
  if isShuttingDown m then log [Refused] m
  else
    let m := set_isShuttingDown true m in
    let m := log [Begin] m in
    let m := if syncEngine tg then log [StopSyncEngine] m else m in
    let m := log (map StopService (services tg)) m in
    set_pending
      (pending m
       ++ [{| waits_for := shutdownTasks; targets := tg; options := opt |}]) m.

Definition resume (i : nat) (rs : list (Settled unit)) (r : Settled unit)
  (m : Manager) : Manager :=
  match nth_error (pending m) i with
  | None => m
  | Some t =>
      settle_task i (targets t) (options t)
        (try_catch_finally (options t)
           (try_resume (waits_for t) (targets t) (options t) rs r m))
  end.

Inductive Action : Type :=
| Call (tg : Targets) (opt : ShutdownOptions)
| Settle (i : nat) (rs : list (Settled unit)) (r : Settled unit).

(** Nothing runs once the process has exited. *)
Definition step (a : Action) (m : Manager) : Manager :=
  match exited m with
  | Some _ => m
  | None =>
      match a with
      | Call tg opt => shutdown tg opt m
      | Settle i rs r => resume i rs r m
      end
  end.

Definition run (l : list Action) (m : Manager) : Manager :=
  fold_left (fun m a => step a m) l m.

Definition in_progress (m : Manager) : nat := List.length (pending m).

(** No execution is in progress, or the flag is set and exactly one is. *)
Definition guarded (m : Manager) : Prop :=
  pending m = []
  \/ (isShuttingDown m = true /\ exists t, pending m = [t]).

Definition is_begin (o : Op) : bool :=
  match o with Begin => true | _ => false end.

End ShutdownManager.

(* ------------------------------------------------------------------ *)
(** ** SwaggerChangeDetector ([src/core/swagger-diff.ts])               *)
(* ------------------------------------------------------------------ *)

Module SwaggerChangeDetector.

#[local] Set Warnings "-register-all".

(** A parsed JSON document.  An object keeps its members in the order
    of the text it was parsed from. *)
Inductive Json : Type :=
| JNull
| JBool (b : bool)
| JNumber (n : Z)
| JString (s : string)
| JArray (items : list Json)
| JObject (members : list (string * Json)).

Fixpoint insert {A : Type} (kv : string * A) (l : list (string * A))
  : list (string * A) :=
  match l with
  | [] => [kv]
  | h :: t =>
      if String.leb (fst kv) (fst h) then kv :: l else h :: insert kv t
  end.

Definition sort_members {A : Type} (l : list (string * A))
  : list (string * A) :=
  fold_right insert [] l.

(** Modelled from the spec: the detector's normalisation is missing
    from the sources ([swagger-diff.ts]).  "normalize the document to
    eliminate insignificant variation (key ordering, whitespace-only
    differences, ...)": the members of every object are put in the
    order of their keys; arrays keep their order.  White space between
    the tokens of the text is gone once the text is parsed, which is
    the form in which the detector receives the document. *)
Fixpoint normalize (d : Json) : Json :=
  match d with
  | JArray items => JArray (map normalize items)
  | JObject members =>
      JObject
        (sort_members (map (fun kv => (fst kv, normalize (snd kv))) members))
  | _ => d
  end.

(** What [normalize] does to one member of an object. *)
Definition normalize_member (kv : string * Json) : string * Json :=
  (fst kv, normalize (snd kv)).

Fixpoint distinct (l : list string) : bool :=
  match l with
  | [] => true
  | k :: t => negb (existsb (String.eqb k) t) && distinct t
  end.

(** The keys of every object of the document are distinct, as they are
    in any value that [JSON.parse] or [response.json()] returns. *)
Fixpoint unique_keys (d : Json) : bool :=
  match d with
  | JArray items => forallb unique_keys items
  | JObject members =>
      distinct (map fst members)
      && forallb (fun kv => unique_keys (snd kv)) members
  | _ => true
  end.

(** Two documents are structurally identical and differ only in the
    order of the keys of their objects. *)
Inductive same : Json -> Json -> Prop :=
| same_null : same JNull JNull
| same_bool b : same (JBool b) (JBool b)
| same_number n : same (JNumber n) (JNumber n)
| same_string s : same (JString s) (JString s)
| same_array l1 l2 : same_items l1 l2 -> same (JArray l1) (JArray l2)
| same_object m1 m m2 :
    same_members m1 m -> Permutation m m2 -> same (JObject m1) (JObject m2)
with same_items : list Json -> list Json -> Prop :=
| same_items_nil : same_items [] []
| same_items_cons d1 d2 l1 l2 :
    same d1 d2 -> same_items l1 l2 -> same_items (d1 :: l1) (d2 :: l2)
with same_members : list (string * Json) -> list (string * Json) -> Prop :=
| same_members_nil : same_members [] []
| same_members_cons k d1 d2 m1 m2 :
    same d1 d2 -> same_members m1 m2 ->
    same_members ((k, d1) :: m1) ((k, d2) :: m2).

Section Detector.

(** Modelled from the spec: the hash function is missing from the
    sources.  "then compute a stable hash/signature": any function
    from normalised documents to strings. *)
Variable hash : Json -> string.

(** Modelled from the spec: "normalize the document ..., then compute
    a stable hash/signature". *)
Definition signature (d : Json) : string := hash (normalize d).

(** The detector holds the signature of the last document it saw. *)
Record Detector : Type := { currentHash : option string }.

(** [new SwaggerChangeDetector()] *)
Definition init : Detector := {| currentHash := None |}.

(** Modelled from the spec: [hasSignificantChanges] is missing from
    the sources.  "Compare against the previously stored signature.
    On first call (no prior signature), treat as changed."; "it
    records the newly computed hash"; "returns true exactly once per
    distinct change, then false on repeated calls with the same
    document". *)
Definition hasSignificantChanges (newSpec : Json) (d : Detector)
  : bool * Detector :=
  let h := signature newSpec in
  match currentHash d with
  | None => (true, {| currentHash := Some h |})
  | Some old =>
      if String.eqb old h then (false, d)
      else (true, {| currentHash := Some h |})
  end.

(** Modelled from the spec: [getCurrentHash() -> string|null]. *)
Definition getCurrentHash (d : Detector) : option string := currentHash d.

End Detector.

Definition quote : string := String (Ascii.ascii_of_nat 34) EmptyString.

(** A signature that tells all normalised documents apart: the
    document written out without white space, keys in their order. *)
Fixpoint stringify (d : Json) : string :=
  match d with
  | JNull => "null"
  | JBool true => "true"
  | JBool false => "false"
  | JNumber n => DecimalString.NilZero.string_of_int (Z.to_int n)
  | JString s => quote ++ s ++ quote
  | JArray items =>
      "[" ++ String.concat "," (map stringify items) ++ "]"
  | JObject members =>
      "{" ++ String.concat ","
               (map (fun kv =>
                       (quote ++ fst kv ++ quote ++ ":"
                        ++ stringify (snd kv))%string)
                  members) ++ "}"
  end.

(** The same document written with its keys in two orders. *)
Definition petstore : Json :=
  JObject
    [("paths"%string,
       JObject [("get"%string, JString "listPets");
                ("post"%string, JString "createPet")]);
     ("openapi"%string, JString "3.0.0")].

Definition petstore_reordered : Json :=
  JObject
    [("openapi"%string, JString "3.0.0");
     ("paths"%string,
       JObject [("post"%string, JString "createPet");
                ("get"%string, JString "listPets")])].

End SwaggerChangeDetector.


(* ------------------------------------------------------------------ *)
(** ** JavaScript string methods the sources use                        *)
(* ------------------------------------------------------------------ *)

Module Js.

(** White space as [String.prototype.trim] and [\s] see it, among the
    characters of one byte. *)
Definition is_space (c : ascii) : bool :=
  let n := nat_of_ascii c in
  ((n =? 32) || (n =? 9) || (n =? 10) || (n =? 11) || (n =? 12)
   || (n =? 13))%nat.

Definition is_digit (c : ascii) : bool :=
  let n := nat_of_ascii c in ((48 <=? n) && (n <=? 57))%nat.

Fixpoint trimStart (s : string) : string :=
  match s with
  | EmptyString => EmptyString
  | String c s' => if is_space c then trimStart s' else s
  end.

Fixpoint trimEnd (s : string) : string :=
  match s with
  | EmptyString => EmptyString
  | String c s' =>
      match trimEnd s' with
      | EmptyString => if is_space c then EmptyString else String c EmptyString
      | r => String c r
      end
  end.

(** [s.trim()] *)
Definition trim (s : string) : string := trimEnd (trimStart s).

(** [s.split(sep)] for a separator of one character: the pieces
    between the separators, at least one piece. *)
Fixpoint split (sep : ascii) (s : string) : list string :=
  match s with
  | EmptyString => [EmptyString]
  | String c s' =>
      if Ascii.eqb c sep then EmptyString :: split sep s'
      else
        match split sep s' with
        | piece :: pieces => String c piece :: pieces
        | [] => [String c EmptyString]
        end
  end.

(** [pieces.join(sep)] *)
Definition join (sep : ascii) (pieces : list string) : string :=
  String.concat (String sep EmptyString) pieces.

(** [s.endsWith(suffix)] *)
Fixpoint endsWith (suffix s : string) : bool :=
  String.eqb s suffix
  || match s with
     | EmptyString => false
     | String _ s' => endsWith suffix s'
     end.

(** [s.includes(part)] *)
Fixpoint includes (part s : string) : bool :=
  String.prefix part s
  || match s with
     | EmptyString => false
     | String _ s' => includes part s'
     end.

Fixpoint all_digits (s : string) : bool :=
  match s with
  | EmptyString => true
  | String c s' => is_digit c && all_digits s'
  end.

(** [pid && /^\d+$/.test(pid)] *)
Definition is_pid (s : string) : bool :=
  negb (String.eqb s EmptyString) && all_digits s.

Fixpoint has_space (s : string) : bool :=
  match s with
  | EmptyString => false
  | String c s' => is_space c || has_space s'
  end.

(** The last element of [line.split(/\s+/)] for a line that was
    trimmed: what follows its last white space. *)
Fixpoint last_field (line : string) : string :=
  match line with
  | EmptyString => EmptyString
  | String c s' =>
      if has_space s' then last_field s'
      else if is_space c then s'
      else line
  end.

(** [s.replace(pattern, replacement)] with a string pattern (not
    empty): the first occurrence is replaced. *)
Fixpoint drop (n : nat) (s : string) : string :=
  match n, s with
  | S n', String _ s' => drop n' s'
  | _, _ => s
  end.

Fixpoint replace (pattern replacement s : string) : string :=
  if String.prefix pattern s
  then (replacement ++ drop (String.length pattern) s)%string
  else
    match s with
    | EmptyString => EmptyString
    | String c s' => String c (replace pattern replacement s')
    end.

Definition newline : ascii := ascii_of_nat 10.
Definition space : ascii := ascii_of_nat 32.

End Js.

(* ------------------------------------------------------------------ *)
(** ** PortManager: the queries ([src/utils/port-manager.ts])           *)
(* ------------------------------------------------------------------ *)

Module PortQueries.

(** [process.platform] *)
Inductive Platform : Type := darwin | linux | win32 | other_platform.

(** [isPortInUse(port)], lines 47-77.  [lsof] and [netstat] are what
    [execAsync] gives for the command of the platform, [detected] what
    [detectPort(port)] gives. *)
Definition isPortInUse (platform : Platform) (port : Z)
  (lsof netstat : Settled string) (detected : Settled Z) : bool :=
  let fallback :=
    match detected with
    | Resolved availablePort => negb (availablePort =? port)
    | Rejected _ => false
    end in
  match platform with
  | darwin | linux =>
      match lsof with
      | Resolved stdout => negb (String.eqb (Js.trim stdout) EmptyString)
      | Rejected _ => fallback
      end
  | win32 =>
      match netstat with
      | Resolved stdout => Js.includes "LISTENING" stdout
      | Rejected _ => fallback
      end
  | other_platform => fallback
  end.

(** [if (!pids.includes(pid)) pids.push(pid)], and [pidSet.add(pid)]. *)
Definition push_new (pids : list string) (pid : string) : list string :=
  if existsb (String.eqb pid) pids then pids else pids ++ [pid].

(** Lines 97-100. *)
Definition found_pids (stdout : string) : list string :=
  filter Js.is_pid (Js.split Js.newline (Js.trim stdout)).

(** Lines 94-110: the three [lsof] commands in turn; one that fails is
    skipped. *)
Definition scan_unix (outs : list (Settled string)) : list string :=
  fold_left
    (fun pids out =>
       match out with
       | Resolved stdout => fold_left push_new (found_pids stdout) pids
       | Rejected _ => pids
       end)
    outs [].

(** Lines 113-124: the last column of every line of [netstat -ano]. *)
Definition scan_windows (stdout : string) : list string :=
  fold_left
    (fun pids line =>
       let pid := Js.last_field (Js.trim line) in
       if Js.is_pid pid && negb (String.eqb pid "0") then push_new pids pid
       else pids)
    (Js.split Js.newline (Js.trim stdout)) [].

(** [getProcessesUsingPort(port)], lines 82-131: [lsofs] are the
    outcomes of the three [lsof] commands, [netstat] of the Windows
    command. *)
Definition getProcessesUsingPort (platform : Platform)
  (lsofs : list (Settled string)) (netstat : Settled string) : list string :=
  match platform with
  | darwin | linux => scan_unix lsofs
  | win32 =>
      match netstat with
      | Resolved stdout => scan_windows stdout
      | Rejected _ => []
      end
  | other_platform => []
  end.

Section FindAvailablePort.

Context {W : Type} (sys : PortManager.System W).

(** Lines 276-284: [for (let i = 0; i < maxAttempts; i++)], with
    [left] iterations to go and [portToCheck = startPort + i]. *)
Fixpoint probe (left : nat) (portToCheck : Z) (r : PortManager.Run)
  : option Z * PortManager.Run :=
  match left with
  | O => (None, r)
  | S left' =>
      let '(inUse, w) := PortManager.isPortInUse sys portToCheck (fst r) in
      let r := (w, snd r ++ [PortManager.OpIsPortInUse portToCheck inUse]) in
      if negb inUse then (Some portToCheck, r)
      else probe left' (portToCheck + 1) r
  end.

(** [findAvailablePort(startPort, maxAttempts = 10)], lines 272-289. *)
Definition findAvailablePort (startPort : Z) (maxAttempts : nat) (w : W)
  : Settled Z * PortManager.Run :=
  match probe maxAttempts startPort (w, []) with
  | (Some port, r) => (Resolved port, r)
  | (None, r) =>
      (Rejected
         (JsError
            ("Could not find available port after "
             ++ DecimalString.NilZero.string_of_uint (Nat.to_uint maxAttempts)
             ++ " attempts starting from "
             ++ DecimalString.NilZero.string_of_int (Z.to_int startPort))),
       r)
  end.

End FindAvailablePort.

(** The ports checked, with the answers. *)
Fixpoint checks (t : list PortManager.Op) : list (Z * bool) :=
  match t with
  | [] => []
  | PortManager.OpIsPortInUse p b :: t' => (p, b) :: checks t'
  | _ :: t' => checks t'
  end.

(** A machine whose ports below [free] are in use and the others not. *)
Definition busy_below (free : Z) : PortManager.System nat :=
  {| PortManager.isPortInUse := fun p w => (p <? free, S w);
     PortManager.getProcessesUsingPort := fun _ w => ([], S w);
     PortManager.kill := fun _ _ w => S w;
     PortManager.sleep := fun _ w => S w;
     PortManager.hasElevatedPrivileges := fun w => (false, S w) |}.

End PortQueries.

(* ------------------------------------------------------------------ *)
(** ** The three services ([src/core/orchestrator.ts], lines 25-92)     *)
(* ------------------------------------------------------------------ *)

Module Services.

Inductive Kind : Type := BackendService | ClientService | FrontendService.

(** [if (!this.config.port)]: a port that is absent or 0. *)
Definition no_port (port : option Z) : bool :=
  match port with
  | None => true
  | Some p => p =? 0
  end.

(** [maxAttempts] of [waitForReady], lines 29 and 67. *)
Definition maxAttempts (k : Kind) : nat :=
  match k with
  | BackendService => 30
  | FrontendService => 60
  | ClientService => 0
  end.

Definition checkInterval : Z := 1000.

Definition not_ready (k : Kind) (port : Z) : Error :=
  JsError
    ((match k with
      | BackendService => "Backend"
      | FrontendService => "Frontend"
      | ClientService => "Client"
      end)
     ++ " service failed to start on port "
     ++ DecimalString.NilZero.string_of_int (Z.to_int port)).

Section WaitForReady.

Context {W : Type} (sys : PortManager.System W).

(** Lines 32-39 and 70-77: the bounded poll of the port. *)
Fixpoint poll (left : nat) (k : Kind) (port : Z) (r : PortManager.Run)
  : Settled unit * PortManager.Run :=
  match left with
  | O => (Rejected (not_ready k port), r)
  | S left' =>
      let '(isReady, w) := PortManager.isPortInUse sys port (fst r) in
      let r := (w, snd r ++ [PortManager.OpIsPortInUse port isReady]) in
      if isReady then (Resolved tt, r)
      else
        poll left' k port
          (PortManager.sleep sys checkInterval (fst r),
           snd r ++ [PortManager.OpWait checkInterval])
  end.

(** [waitForReady()] of the three services. *)
Definition waitForReady (k : Kind) (port : option Z) (w : W)
  : Settled unit * PortManager.Run :=
  match k with
  | ClientService =>
      (Resolved tt, (PortManager.sleep sys 2000 w, [PortManager.OpWait 2000]))
  | _ =>
      match port with
      | Some p => if p =? 0 then (Resolved tt, (w, []))
                  else poll (maxAttempts k) k p (w, [])
      | None => (Resolved tt, (w, []))
      end
  end.

(** [this.config.env?.[key]] *)
Fixpoint lookup (key : string) (env : list (string * string))
  : option string :=
  match env with
  | [] => None
  | (k, v) :: env' => if String.eqb k key then Some v else lookup key env'
  end.

(** [this.config.env?.['OATS_AUTO_KILL_PORTS'] !== 'false'] *)
Definition autoKill (env : option (list (string * string))) : bool :=
  match env with
  | None => true
  | Some e =>
      match lookup "OATS_AUTO_KILL_PORTS" e with
      | Some v => negb (String.eqb v "false")
      | None => true
      end
  end.

(** [checkPort()], lines 46-53 and 84-91; the client service keeps the
    empty method of [BaseService]. *)
Definition checkPort (k : Kind) (port : option Z)
  (env : option (list (string * string))) (w : W)
  : Settled unit * PortManager.Run :=
  match k with
  | ClientService => (Resolved tt, (w, []))
  | _ =>
      match port with
      | Some p =>
          if p =? 0 then (Resolved tt, (w, []))
          else if autoKill env then PortManager.freePort sys p w
          else (Resolved tt, (w, []))
      | None => (Resolved tt, (w, []))
      end
  end.

End WaitForReady.

(** A machine on which the port comes into use at the [n]-th check,
    counted from 0: its state counts the checks made. *)
Definition ready_at (n : nat) : PortManager.System nat :=
  {| PortManager.isPortInUse := fun _ w => ((n <=? w)%nat, S w);
     PortManager.getProcessesUsingPort := fun _ w => ([], w);
     PortManager.kill := fun _ _ w => w;
     PortManager.sleep := fun _ w => w;
     PortManager.hasElevatedPrivileges := fun w => (false, w) |}.

End Services.

(* ------------------------------------------------------------------ *)
(** ** The port queries put under [freePort] and the services          *)
(* ------------------------------------------------------------------ *)

Module PortProbe.

(** What the commands of the port queries give on a machine in state
    [w]: each [execAsync] call, and [detectPort]. *)
Record Commands (W : Type) : Type := {
  lsof : Z -> W -> Settled string;              (* lsof -i :port -t *)
  netstat : Z -> W -> Settled string;           (* netstat -an | findstr :port *)
  detectPort : Z -> W -> Settled Z;
  lsofs : Z -> W -> list (Settled string);      (* the three lsof commands *)
  netstat_ano : Z -> W -> Settled string        (* netstat -ano | findstr :port *)
}.
Arguments lsof {W} _ _ _.
Arguments netstat {W} _ _ _.
Arguments detectPort {W} _ _ _.
Arguments lsofs {W} _ _ _.
Arguments netstat_ano {W} _ _ _.

(** The machine [freePort] runs on when its two queries are the
    methods of [PortManager] on platform [platform]; kills, sleeps and
    the privilege check are those of [base]. *)
Definition system {W : Type} (platform : PortQueries.Platform)
  (cmds : Commands W) (base : PortManager.System W) : PortManager.System W :=
  {| PortManager.isPortInUse :=
       fun port w =>
         (PortQueries.isPortInUse platform port (lsof cmds port w)
            (netstat cmds port w) (detectPort cmds port w), w);
     PortManager.getProcessesUsingPort :=
       fun port w =>
         (PortQueries.getProcessesUsingPort platform (lsofs cmds port w)
            (netstat_ano cmds port w), w);
     PortManager.kill := PortManager.kill base;
     PortManager.sleep := PortManager.sleep base;
     PortManager.hasElevatedPrivileges :=
       PortManager.hasElevatedPrivileges base |}.

(** No command works. *)
Definition broken : Commands nat :=
  {| lsof := fun _ _ => Rejected (JsError "spawn lsof ENOENT");
     netstat := fun _ _ => Rejected (JsError "spawn netstat ENOENT");
     detectPort := fun _ _ => Rejected (JsError "EACCES");
     lsofs := fun _ _ => [];
     netstat_ano := fun _ _ => Rejected (JsError "spawn netstat ENOENT") |}.

(** [detect-port] finds the port taken and proposes the next one. *)
Definition taken : Commands nat :=
  {| lsof := fun _ _ => Rejected (JsError "spawn lsof ENOENT");
     netstat := fun _ _ => Rejected (JsError "spawn netstat ENOENT");
     detectPort := fun port _ => Resolved (port + 1);
     lsofs := fun _ _ => [];
     netstat_ano := fun _ _ => Rejected (JsError "spawn netstat ENOENT") |}.

(** The message of [freePort] when no process is found on the port,
    lines 164-166. *)
Definition unidentified (port : Z) : string :=
  "Port " ++ DecimalString.NilZero.string_of_int (Z.to_int port)
  ++ " is in use but could not identify the process".

(** The checks and waits of [n] polls that find the port not in use. *)
Fixpoint polls (port : Z) (n : nat) : list PortManager.Op :=
  match n with
  | O => []
  | S n' =>
      PortManager.OpIsPortInUse port false
      :: PortManager.OpWait Services.checkInterval :: polls port n'
  end.

End PortProbe.

(* ------------------------------------------------------------------ *)
(** ** A service's [start()] and [stop()] run to their end             *)
(* ------------------------------------------------------------------ *)

Module ServiceLifecycle.

Import BaseService.

Section StartService.

Context {W : Type} (sys : PortManager.System W).

(** [await service.start()] for a service of class [k], with no other
    call of the service in between: the [checkPort] and [waitForReady]
    that [start] awaits are those of the class, run on the machine. *)
Definition start_service (k : Services.Kind) (cfg : ServiceConfig)
  (env : option (list (string * string))) (w : W) (s : Service)
  : Service * PortManager.Run :=
  let i := List.length (pending s) in
  let s := start cfg s in
  match nth_error (pending s) i with
  | Some checkPort =>
      let '(r, (w, t)) := Services.checkPort sys k (port cfg) env w in
      let s := resume cfg i r s in
      match nth_error (pending s) i with
      | Some waitForReady =>
          let '(r, (w, t')) := Services.waitForReady sys k (port cfg) w in
          (resume cfg i r s, (w, t ++ t'))
      | _ => (s, (w, t))
      end
  | Some waitForReady =>
      let '(r, (w, t)) := Services.waitForReady sys k (port cfg) w in
      (resume cfg i r s, (w, t))
  | _ => (s, (w, []))
  end.

End StartService.

(** [await service.stop()] with no other call in between;
    [killed] is how [processManager.killProcess] settles. *)
Definition stop_service (cfg : ServiceConfig) (killed : Settled unit)
  (s : Service) : Service :=
  let i := List.length (pending s) in
  let s := stop s in
  match nth_error (pending s) i with
  | Some killProcess => resume cfg i killed s
  | _ => s
  end.

(** The ['stateChange'] events lead from state [from] to state [to]:
    each starts where the one before it ended. *)
Fixpoint chained (from : ServiceState)
  (events : list (ServiceState * ServiceState)) (to : ServiceState) : bool :=
  match events with
  | [] => ServiceState_eqb from to
  | (a, b) :: events' => ServiceState_eqb a from && chained b events' to
  end.

(** The two transitions that the code guards by the state: [start]
    leaves only [stopped], [stop] never does. *)
Definition guarded_event (ev : ServiceState * ServiceState) : bool :=
  match ev with
  | (a, STARTING) => ServiceState_eqb a STOPPED
  | (a, STOPPING) => negb (ServiceState_eqb a STOPPED)
  | _ => true
  end.

(** [parseCommand()], lines 149-155, of [this.config.command]. *)
Definition parseCommand (command : string) : string * list string :=
  let parts := Js.split Js.space command in
  (match parts with
   | p :: _ => if String.eqb p EmptyString then EmptyString else p
   | [] => EmptyString
   end,
   tl parts).

Fixpoint count_char (c : ascii) (s : string) : nat :=
  match s with
  | EmptyString => O
  | String c' s' => (if Ascii.eqb c' c then 1 else 0) + count_char c s'
  end.

End ServiceLifecycle.

(* ------------------------------------------------------------------ *)
(** ** DevSyncEngine: generating, building and linking the client      *)
(* ------------------------------------------------------------------ *)

Module ClientGeneration.

(** The fields of [RuntimeConfig] that [generateClient], [buildClient]
    and [linkPackages] read. *)
Record ClientConfig : Type := {
  apiSpecPath : string;               (* config.services.backend.apiSpec.path *)
  backendPort : string;               (* the text of config.services.backend.port *)
  clientPath : string;                (* config.resolvedPaths.client *)
  frontendPath : option string;       (* config.resolvedPaths.frontend, when
                                         config.services.frontend is set *)
  generator : string;                 (* config.services.client.generator *)
  generateCommand : option string;
  buildCommand : option string;
  linkCommand : option string;
  packageLinkCommand : option string; (* config.services.frontend.packageLinkCommand *)
  packageManager : string;
  packageName : string
}.

(** The calls that reach outside the engine, in order. *)
Inductive Op : Type :=
| OpReadHash                          (* readFileSync(specHashPath) *)
| OpFetch (url : string)              (* fetch, response.json(), writeFileSync *)
| OpWait (ms : Z)
| OpCopy                              (* copyFileSync(specPath, clientSwaggerPath) *)
| OpClean                             (* rmSync(srcPath, ...) *)
| OpRun (command cwd : string)        (* execa(command, { cwd, shell: true }) *)
| OpWriteHash (hash : string)         (* writeFileSync(specHashPath, hash) *)
| OpEmitLinked (paths : list string)  (* this.emit('packages-linked', ...) *)
| OpTouch (file : string).            (* PlatformUtils.touchFile(file) *)

(** The machine: the file system, the backend's endpoint and the shell,
    in a state [W]. *)
Record System (W : Type) : Type := {
  hashFile : W -> option (Settled string);
    (* [existsSync(specHashPath)], then [readFileSync(specHashPath)] *)
  fetchSpec : string -> W -> Settled unit * W;
    (* the [try] block of one attempt, lines 458-486 *)
  sleep : Z -> W -> W;
  copyFile : W -> Settled unit * W;
  rm : W -> Settled unit * W;
  execa : string -> string -> W -> Settled unit * W;
  writeHash : string -> W -> Settled unit * W;
  fastBuild : W -> bool;
    (* package.json can be read and has a [build:fast] script *)
  touchFile : string -> W -> Settled unit * W;
  text_of : Error -> string           (* [`${error}`] *)
}.
Arguments hashFile {W} _ _.
Arguments fetchSpec {W} _ _ _.
Arguments sleep {W} _ _ _.
Arguments copyFile {W} _ _.
Arguments rm {W} _ _.
Arguments execa {W} _ _ _ _.
Arguments writeHash {W} _ _ _.
Arguments fastBuild {W} _ _.
Arguments touchFile {W} _ _ _.
Arguments text_of {W} _ _.

Definition maxRetries : Z := 5.
Definition retryDelay : Z := 3000.

Definition isRuntimeSpec (cfg : ClientConfig) : bool :=
  String.prefix "runtime:" (apiSpecPath cfg)
  || String.prefix "/" (apiSpecPath cfg).

(** Lines 445-449. *)
Definition apiUrl (cfg : ClientConfig) : string :=
  "http://localhost:" ++ backendPort cfg
  ++ Js.replace "runtime:" EmptyString (apiSpecPath cfg).

Section Generation.

Context {W : Type} (sys : System W).

Definition Run : Type := (W * list Op)%type.

(** [runCommand(command, cwd)], lines 677-690. *)
Definition runCommand (command cwd : string) (r : Run)
  : Settled unit * Run :=
  let '(out, w) := execa sys command cwd (fst r) in
  let r := (w, snd r ++ [OpRun command cwd]) in
  match out with
  | Resolved _ => (Resolved tt, r)
  | Rejected error =>
      (Rejected
         (JsError ("Command failed: " ++ command ++ " - "
                   ++ text_of sys error)), r)
  end.

(** Lines 423-435: the generation is skipped when the saved hash is
    the hash of the last spec that was compared. *)
Definition up_to_date (lastGeneratedSpecHash : option string) (r : Run)
  : bool * Run :=
  match hashFile sys (fst r) with
  | None => (false, r)
  | Some content =>
      if truthy lastGeneratedSpecHash then
        let r := (fst r, snd r ++ [OpReadHash]) in
        match content with
        | Resolved text =>
            (match lastGeneratedSpecHash with
             | Some h => String.eqb (Js.trim text) h
             | None => false
             end, r)
        | Rejected _ => (false, r)
        end
      else (false, r)
  end.

(** Lines 456-508: [for (let attempt = 1; attempt <= maxRetries;
    attempt++)]; [left] counts the iterations that remain. *)
Fixpoint fetch_attempts (left : nat) (cfg : ClientConfig) (attempt : Z)
  (r : Run) : Settled unit * Run :=
  match left with
  | O => (Resolved tt, r)
  | S left' =>
      let '(out, w) := fetchSpec sys (apiUrl cfg) (fst r) in
      let r := (w, snd r ++ [OpFetch (apiUrl cfg)]) in
      match out with
      | Resolved _ => (Resolved tt, r)
      | Rejected error =>
          if attempt <? maxRetries then
            fetch_attempts left' cfg (attempt + 1)
              (sleep sys retryDelay (fst r), snd r ++ [OpWait retryDelay])
          else
            (Rejected
               (ApiSpecError
                  ("Failed to fetch runtime API spec after "
                   ++ DecimalString.NilZero.string_of_int
                        (Z.to_int maxRetries)
                   ++ " attempts: " ++ text_of sys error)
                  (apiUrl cfg)), r)
      end
  end.

(** Lines 526-587: the generated files are cleaned, the generator is
    run, the hash is saved. *)
Definition regenerate (cfg : ClientConfig)
  (lastGeneratedSpecHash : option string) (r : Run) : Settled unit * Run :=
  let r := (snd (rm sys (fst r)), snd r ++ [OpClean]) in
  let ran :=
    if truthy (generateCommand cfg) then
      match generateCommand cfg with
      | Some command => runCommand command (clientPath cfg) r
      | None => (Resolved tt, r)
      end
    else if String.eqb (generator cfg) "@hey-api/openapi-ts" then
      runCommand "npx @hey-api/openapi-ts" (clientPath cfg) r
    else
      (Rejected
         (GeneratorError
            ("No generate command specified for generator "
             ++ generator cfg) (generator cfg)), r) in
  match ran with
  | (Rejected err, r) => (Rejected err, r)
  | (Resolved _, r) =>
      if truthy lastGeneratedSpecHash then
        match lastGeneratedSpecHash with
        | Some h =>
            (Resolved tt,
             (snd (writeHash sys h (fst r)), snd r ++ [OpWriteHash h]))
        | None => (Resolved tt, r)
        end
      else (Resolved tt, r)
  end.

(** [generateClient()], lines 406-587. *)
Definition generateClient (cfg : ClientConfig)
  (lastGeneratedSpecHash : option string) (w : W) : Settled unit * Run :=
  let '(skip, r) := up_to_date lastGeneratedSpecHash (w, []) in
  if skip then (Resolved tt, r)
  else if isRuntimeSpec cfg then
    match fetch_attempts (Z.to_nat maxRetries) cfg 1 r with
    | (Rejected err, r) => (Rejected err, r)
    | (Resolved _, r) => regenerate cfg lastGeneratedSpecHash r
    end
  else
    let r := (snd (copyFile sys (fst r)), snd r ++ [OpCopy]) in
    regenerate cfg lastGeneratedSpecHash r.

(** [buildClient()], lines 592-619. *)
Definition buildClient (cfg : ClientConfig) (w : W) : Settled unit * Run :=
  if truthy (buildCommand cfg) then
    match buildCommand cfg with
    | Some command =>
        let commandToRun :=
          if fastBuild sys w then Js.replace "build" "build:fast" command
          else command in
        runCommand commandToRun (clientPath cfg) (w, [])
    | None => (Resolved tt, (w, []))
    end
  else (Resolved tt, (w, [])).

(** Lines 636-641: [packageLinkCommand || `${packageManager} link
    ${packageName}`]. *)
Definition frontendLinkCommand (cfg : ClientConfig) : string :=
  if truthy (packageLinkCommand cfg) then
    match packageLinkCommand cfg with
    | Some command => command
    | None => EmptyString
    end
  else packageManager cfg ++ " link " ++ packageName cfg.

(** [linkPackages()], lines 624-672. *)
Definition linkPackages (cfg : ClientConfig) (w : W) : Settled unit * Run :=
  if truthy (linkCommand cfg) then
    match linkCommand cfg with
    | Some command =>
        match runCommand command (clientPath cfg) (w, []) with
        | (Rejected err, r) => (Rejected err, r)
        | (Resolved _, r) =>
            match frontendPath cfg with
            | Some frontend =>
                match runCommand (frontendLinkCommand cfg) frontend r with
                | (Rejected err, r) => (Rejected err, r)
                | (Resolved _, r) =>
                    let r :=
                      (fst r,
                       snd r ++ [OpEmitLinked [clientPath cfg; frontend]]) in
                    let touched :=
                      DevSyncEngine.join (DevSyncEngine.join frontend "src")
                        ".oats-sync" in
                    (Resolved tt,
                     (snd (touchFile sys touched (fst r)),
                      snd r ++ [OpTouch touched]))
                end
            | None =>
                (Resolved tt,
                 (fst r, snd r ++ [OpEmitLinked [clientPath cfg]]))
            end
        end
    | None => (Resolved tt, (w, []))
    end
  else (Resolved tt, (w, [])).



End Generation.




Definition is_run (o : Op) : bool :=
  match o with OpRun _ _ => true | _ => false end.


Definition is_emit (o : Op) : bool :=
  match o with OpEmitLinked _ => true | _ => false end.

(** [n] failed attempts to fetch, each followed by its wait. *)
Fixpoint failed_fetches (url : string) (n : nat) : list Op :=
  match n with
  | O => []
  | S n' => OpFetch url :: OpWait retryDelay :: failed_fetches url n'
  end.

(** A machine with the hash file [saved], whose backend answers the
    fetch made in state [w] when [answers w], whose client has a
    [build:fast] script when [fast], and on which everything else
    works; its state counts the fetches. *)
Definition machine (saved : option (Settled string)) (answers : nat -> bool)
  (fast : bool) : System nat :=
  {| hashFile := fun _ => saved;
     fetchSpec := fun _ w =>
       (if answers w then Resolved tt
        else Rejected (JsError "fetch failed"), S w);
     sleep := fun _ w => w;
     copyFile := fun w => (Resolved tt, w);
     rm := fun w => (Resolved tt, w);
     execa := fun _ _ w => (Resolved tt, w);
     writeHash := fun _ w => (Resolved tt, w);
     fastBuild := fun _ => fast;
     touchFile := fun _ w => (Resolved tt, w);
     text_of := fun e => ("Error: " ++ DevSyncEngine.message_of e)%string |}.

Definition example_config : ClientConfig :=
  {| apiSpecPath := "runtime:/openapi.json";
     backendPort := "8000";
     clientPath := "/work/client";
     frontendPath := Some "/work/frontend"%string;
     generator := "custom";
     generateCommand := Some "npm run generate"%string;
     buildCommand := Some "npm run build"%string;
     linkCommand := Some "npm link"%string;
     packageLinkCommand := None;
     packageManager := "npm";
     packageName := "@work/api-client" |}.


(** A static spec and a generator without a command. *)
Definition static_config : ClientConfig :=
  {| apiSpecPath := "openapi.json";
     backendPort := "8000";
     clientPath := "/work/client";
     frontendPath := None;
     generator := "custom";
     generateCommand := None;
     buildCommand := None;
     linkCommand := None;
     packageLinkCommand := None;
     packageManager := "npm";
     packageName := "@work/api-client" |}.

End ClientGeneration.

(* ------------------------------------------------------------------ *)
(** ** ShutdownManager: whole shutdowns                                *)
(* ------------------------------------------------------------------ *)

Module ShutdownSequence.

Import ShutdownManager.

(** While the process lives: no shutdown is in progress and the flag is
    reset, or the flag is set and exactly one shutdown is in progress. *)
Definition settled_or_one (m : Manager) : Prop :=
  exited m = None ->
  (pending m = [] /\ isShuttingDown m = false)
  \/ (isShuttingDown m = true /\ exists t, pending m = [t]).

(** What the handlers leave in the trace when they settle as [hs], the
    first of them being the [k]-th. *)
Fixpoint handler_ops (k : nat) (hs : list (Settled unit)) : list Op :=
  match hs with
  | [] => []
  | Resolved _ :: hs' => RunHandler k :: handler_ops (S k) hs'
  | Rejected _ :: hs' =>
      RunHandler k :: HandlerFailed k :: handler_ops (S k) hs'
  end.

Definition settle_handlers (hs : list (Settled unit)) : list Action :=
  map (fun r => Settle 0 [] r) hs.

End ShutdownSequence.

(* ------------------------------------------------------------------ *)
(** ** ProcessManager ([src/utils/process-manager.ts])                 *)
(* ------------------------------------------------------------------ *)

Module ProcessManager.

Inductive Signal : Type := SIGINT | SIGTERM | SIGKILL.

(** [PlatformUtils.getConfig().processTermSignal] *)
Definition processTermSignal (isWindows : bool) : Signal :=
  if isWindows then SIGKILL else SIGTERM.

(** How [sendSignal] sends a signal. *)
Inductive Via : Type :=
| ChildKill                   (* child.kill(signal) *)
| PlatformKill (pid : Z).     (* PlatformUtils.killProcess(child.pid, signal) *)

Record Child : Type := {
  exitCode : option Z;        (* child.exitCode, null while it runs *)
  pid : option Z              (* child.pid *)
}.

(** The callbacks that [killProcess] schedules, in the order of the
    calls of [schedule]. *)
Inductive Timer : Type := Interrupt | Terminate | Escalate | Fallback.

(** The second argument of each call of [schedule], in ms. *)
Definition delay (isWindows : bool) (t : Timer) : Z :=
  match t with
  | Interrupt => 0
  | Terminate => if isWindows then 0 else 150
  | Escalate => if isWindows then 500 else 750
  | Fallback => 2000
  end.

Definition scheduled (isWindows : bool) : list Timer :=
  if isWindows then [Terminate; Escalate; Fallback]
  else [Interrupt; Terminate; Escalate; Fallback].

(** The promise of one call of [killProcess] and what it has done; the
    times are in ms since the call. *)
Record Kill : Type := {
  settled : bool;
  exited : bool;                      (* child.exitCode !== null *)
  sent : list (Z * Signal * Via);     (* the signals, with the time of each *)
  resolved : option Z                 (* resolve() was called, and when *)
}.

(** [cleanup], lines 76-86. *)
Definition cleanup (now : Z) (k : Kill) : Kill :=
  if settled k then k
  else {| settled := true; exited := exited k; sent := sent k;
          resolved := Some now |}.

(** [child.pid] is truthy. *)
Definition has_pid (c : Child) : option Z :=
  match pid c with
  | Some p => if p =? 0 then None else Some p
  | None => None
  end.

(** [sendSignal], lines 95-112; a failure to send is caught. *)
Definition sendSignal (now : Z) (c : Child) (s : Signal) (k : Kill) : Kill :=
  if settled k || exited k then k
  else
    let via :=
      match s, has_pid c with
      | SIGKILL, Some p => PlatformKill p
      | _, _ => ChildKill
      end in
    {| settled := settled k; exited := exited k;
       sent := sent k ++ [(now, s, via)]; resolved := resolved k |}.

(** What happens while the promise is pending. *)
Inductive Event : Type :=
| Fire (t : Timer)      (* a scheduled callback runs *)
| ChildExit             (* the child's 'exit' event *)
| ChildError.           (* the child's 'error' event *)

(** The callbacks of [schedule], lines 114-148, and [onExit]; [now] is
    the time of the event. *)
Definition handle (isWindows : bool) (c : Child) (now : Z) (e : Event)
  (k : Kill) : Kill :=
  match e with
  | Fire t =>
      if settled k then k
      else
        match t with
        | Interrupt => sendSignal now c SIGINT k
        | Terminate => sendSignal now c (processTermSignal isWindows) k
        | Escalate => sendSignal now c SIGKILL k
        | Fallback => cleanup now k
        end
  | ChildExit =>
      cleanup now {| settled := settled k; exited := true; sent := sent k;
                     resolved := resolved k |}
  | ChildError => cleanup now k
  end.

(** [killProcess(child)], lines 65-150 of the later version: [events]
    is what happens after the call, each event with its time. *)
Definition killProcess (isWindows : bool) (c : option Child)
  (events : list (Z * Event)) : Kill :=
  match c with
  | None =>
      {| settled := true; exited := false; sent := []; resolved := Some 0 |}
  | Some child =>
      match exitCode child with
      | Some _ =>
          {| settled := true; exited := true; sent := [];
             resolved := Some 0 |}
      | None =>
          fold_left (fun k e => handle isWindows child (fst e) (snd e) k)
            events
            {| settled := false; exited := false; sent := [];
               resolved := None |}
      end
  end.

(** [setTimeout(fn, delay)]: the callback is put after those that are
    due no later. *)
Fixpoint set_timeout (x : Z * Event) (l : list (Z * Event))
  : list (Z * Event) :=
  match l with
  | [] => [x]
  | y :: l' => if fst x <? fst y then x :: l else y :: set_timeout x l'
  end.

(** The callbacks of [killProcess] in the order in which they fire,
    each at its delay. *)
Definition clock (isWindows : bool) : list (Z * Event) :=
  fold_left (fun l t => set_timeout (delay isWindows t, Fire t) l)
    (scheduled isWindows) [].

(** A callback due at [d] has run when something happens at [ms];
    [tie] says whether one due at just that time has. *)
Definition due (tie : bool) (ms d : Z) : bool :=
  if tie then d <=? ms else d <? ms.

(** An event of the child at [ms] takes place after the callbacks that
    are due. *)
Fixpoint occur (tie : bool) (x : Z * Event) (l : list (Z * Event))
  : list (Z * Event) :=
  match l with
  | [] => [x]
  | y :: l' =>
      if due tie (fst x) (fst y) then y :: occur tie x l' else x :: l
  end.

(** The callbacks fire at their delays; the child exits, or fails,
    [ms] ms after the call - or never. *)
Definition timeline (isWindows tie : bool) (ms : Z) (e : option Event)
  : list (Z * Event) :=
  match e with
  | Some e' => occur tie (ms, e') (clock isWindows)
  | None => clock isWindows
  end.

(** The signals in the order [killProcess] tries them, with the time of
    each. *)
Definition escalation (isWindows : bool) (c : Child)
  : list (Z * Signal * Via) :=
  let force := match has_pid c with
               | Some p => PlatformKill p
               | None => ChildKill
               end in
  if isWindows then [(0, SIGKILL, force); (500, SIGKILL, force)]
  else [(0, SIGINT, ChildKill); (150, SIGTERM, ChildKill);
        (750, SIGKILL, force)].

(** *** The earlier version, [src/utils/process-manager.ts] lines 62-85

    [child.killed] is true once [child.kill] has delivered a signal;
    [delivered] says whether the first [child.kill] does, [redelivered]
    whether the one of the timer does. *)
Record Kill0 : Type := {
  killed : bool;                      (* child.killed *)
  sent0 : list Signal;
  resolved0 : bool
}.

Inductive Event0 : Type :=
| Fire0                 (* the callback of setTimeout(..., 5000) *)
| ChildExit0.

Definition handle0 (redelivered : bool) (e : Event0) (k : Kill0) : Kill0 :=
  match e with
  | Fire0 =>
      if negb (killed k) then
        {| killed := redelivered; sent0 := sent0 k ++ [SIGKILL];
           resolved0 := true |}
      else k
  | ChildExit0 =>
      {| killed := killed k; sent0 := sent0 k; resolved0 := true |}
  end.

Definition killProcess0 (isWindows : bool) (child : option bool)
  (delivered redelivered : bool) (events : list Event0) : Kill0 :=
  match child with
  | None => {| killed := false; sent0 := []; resolved0 := true |}
  | Some true => {| killed := true; sent0 := []; resolved0 := true |}
  | Some false =>
      fold_left (fun k e => handle0 redelivered e k) events
        {| killed := delivered; sent0 := [processTermSignal isWindows];
           resolved0 := false |}
  end.

End ProcessManager.

(* ------------------------------------------------------------------ *)
(** ** DevSyncEngine: watching ([src/core/dev-sync-optimized.ts])      *)
(* ------------------------------------------------------------------ *)

Module SyncWatch.

(** The fields of [RuntimeConfig] that [start], [stop] and
    [isRelevantFile] read. *)
Record WatchConfig : Type := {
  apiSpecPath : string;               (* config.services.backend.apiSpec.path *)
  pollingInterval : option Z;         (* config.sync.pollingInterval *)
  runInitialGeneration : bool         (* config.sync.runInitialGeneration *)
}.

Definition isRuntimeSpec (cfg : WatchConfig) : bool :=
  String.prefix "runtime:" (apiSpecPath cfg)
  || String.prefix "/" (apiSpecPath cfg).

(** [isRelevantFile(filePath)], lines 729-754. *)
Definition isRelevantFile (cfg : WatchConfig) (filePath : string) : bool :=
  if isRuntimeSpec cfg
     && (Js.endsWith ".py" filePath
         && negb (Js.includes "__pycache__" filePath)
         && negb (Js.includes ".venv" filePath)
         && negb (Js.includes "venv/" filePath)
         && negb (Js.includes "env/" filePath))
  then true
  else
    Js.endsWith ".json" filePath
    || Js.endsWith ".yaml" filePath
    || Js.endsWith ".yml" filePath.

(** [config.sync.pollingInterval || 5000] *)
Definition pollIntervalMs (cfg : WatchConfig) : Z :=
  match pollingInterval cfg with
  | Some ms => if ms =? 0 then 5000 else ms
  | None => 5000
  end.

Inductive Ev : Type := started | stopped.

(** The awaited calls of [start] and [stop]. *)
Inductive Wait : Type :=
| initialSync           (* await this.performSync() *)
| closeWatcher.         (* await this.watcher.close() *)

(** The engine's fields, and what it holds outside: the watchers it
    opened that are not closed, the intervals it set that are not
    cleared. *)
Record Engine : Type := {
  isRunning : bool;
  watcher : option nat;               (* this.watcher, by the number of the watcher *)
  polling : option Z;                 (* this.pollingInterval, by its period *)
  opened : nat;                       (* watchers opened so far *)
  watching : list nat;                (* watchers open *)
  intervals : list Z;                 (* intervals running, by period *)
  pending : list Wait;
  events : list Ev;                   (* 'started' and 'stopped' *)
  rejected : list Error               (* rejections of start() and stop() *)
}.

(** [new DevSyncEngine(config)] *)
Definition init : Engine :=
  {| isRunning := false; watcher := None; polling := None; opened := 0;
     watching := []; intervals := []; pending := []; events := [];
     rejected := [] |}.

Definition emit (ev : Ev) (e : Engine) : Engine :=
  {| isRunning := isRunning e; watcher := watcher e; polling := polling e;
     opened := opened e; watching := watching e; intervals := intervals e;
     pending := pending e; events := events e ++ [ev];
     rejected := rejected e |}.

Definition reject (err : Error) (e : Engine) : Engine :=
  {| isRunning := isRunning e; watcher := watcher e; polling := polling e;
     opened := opened e; watching := watching e; intervals := intervals e;
     pending := pending e; events := events e;
     rejected := rejected e ++ [err] |}.

Definition set_pending (l : list Wait) (e : Engine) : Engine :=
  {| isRunning := isRunning e; watcher := watcher e; polling := polling e;
     opened := opened e; watching := watching e; intervals := intervals e;
     pending := l; events := events e; rejected := rejected e |}.

(** Lines 135-141: the initial sync, then ['started']. *)
Definition start_end (cfg : WatchConfig) (e : Engine) : Engine :=
  if runInitialGeneration cfg
  then set_pending (pending e ++ [initialSync]) e
  else emit started e.

(** [start()], lines 66-142, up to its await; [watched] says whether
    [watch(watchPaths, ...)] and the registration of the handlers
    succeed. *)
Definition start (cfg : WatchConfig) (watched : Settled unit) (e : Engine)
  : Engine :=
  if isRunning e then e
  else if isRuntimeSpec cfg then
    start_end cfg
      {| isRunning := true; watcher := watcher e;
         polling := Some (pollIntervalMs cfg); opened := opened e;
         watching := watching e;
         intervals := intervals e ++ [pollIntervalMs cfg];
         pending := pending e; events := events e;
         rejected := rejected e |}
  else
    match watched with
    | Rejected err => reject err e
    | Resolved _ =>
        start_end cfg
          {| isRunning := true; watcher := Some (opened e);
             polling := polling e; opened := S (opened e);
             watching := watching e ++ [opened e];
             intervals := intervals e; pending := pending e;
             events := events e; rejected := rejected e |}
    end.

Fixpoint remove_first {A : Type} (eqb : A -> A -> bool) (x : A) (l : list A)
  : list A :=
  match l with
  | [] => []
  | y :: l' => if eqb x y then l' else y :: remove_first eqb x l'
  end.

(** Lines 157-164, the end of [stop]. *)
Definition stop_end (e : Engine) : Engine :=
  let e :=
    match polling e with
    | Some period =>
        {| isRunning := isRunning e; watcher := watcher e; polling := None;
           opened := opened e; watching := watching e;
           intervals := remove_first Z.eqb period (intervals e);
           pending := pending e; events := events e;
           rejected := rejected e |}
    | None => e
    end in
  emit stopped
    {| isRunning := false; watcher := watcher e; polling := polling e;
       opened := opened e; watching := watching e;
       intervals := intervals e; pending := pending e; events := events e;
       rejected := rejected e |}.

(** [stop()], lines 147-165, up to its await: [close()] is called on
    the watcher. *)
Definition stop (e : Engine) : Engine :=
  if negb (isRunning e) then e
  else
    match watcher e with
    | Some w =>
        {| isRunning := isRunning e; watcher := watcher e;
           polling := polling e; opened := opened e;
           watching := remove_first Nat.eqb w (watching e);
           intervals := intervals e;
           pending := pending e ++ [closeWatcher];
           events := events e; rejected := rejected e |}
    | None => stop_end e
    end.

(** The call suspended at position [i] goes on. *)
Definition resume (i : nat) (r : Settled unit) (e : Engine) : Engine :=
  match nth_error (pending e) i with
  | None => e
  | Some w =>
      let e := set_pending (update_task i None (pending e)) e in
      match r with
      | Rejected err => reject err e
      | Resolved _ =>
          match w with
          | initialSync => emit started e
          | closeWatcher =>
              stop_end
                {| isRunning := isRunning e; watcher := None;
                   polling := polling e; opened := opened e;
                   watching := watching e; intervals := intervals e;
                   pending := pending e; events := events e;
                   rejected := rejected e |}
          end
      end
  end.

Inductive Action : Type :=
| Start (watched : Settled unit)
| Stop
| Settle (i : nat) (r : Settled unit).

Definition step (cfg : WatchConfig) (a : Action) (e : Engine) : Engine :=
  match a with
  | Start watched => start cfg watched e
  | Stop => stop e
  | Settle i r => resume i r e
  end.

Definition run (cfg : WatchConfig) (l : list Action) (e : Engine) : Engine :=
  fold_left (fun e a => step cfg a e) l e.

(** The handles the engine holds go with [isRunning]: an engine that is
    not running holds none; one that is running holds the interval of
    its polling, for a runtime spec, or its watcher, for a static
    one. *)
Definition held (cfg : WatchConfig) (e : Engine) : Prop :=
  if isRunning e then
    if isRuntimeSpec cfg
    then polling e = Some (pollIntervalMs cfg) /\ watcher e = None
    else polling e = None /\ watcher e <> None
  else polling e = None /\ watcher e = None.

(** [held], and outside the engine nothing but what it holds. *)
Definition kept (cfg : WatchConfig) (e : Engine) : Prop :=
  held cfg e /\
  (isRuntimeSpec cfg = true ->
   intervals e = (if isRunning e then [pollIntervalMs cfg] else []) /\
   watching e = []) /\
  (isRuntimeSpec cfg = false -> intervals e = []).

End SyncWatch.

(* ------------------------------------------------------------------ *)
(** ** DevSyncOrchestrator: [start] ([src/core/orchestrator.ts])       *)
(* ------------------------------------------------------------------ *)

Module OrchestratorStart.

Import DevSyncOrchestrator.

(** The awaited calls of [start], lines 185-207, and the watch of the
    configuration file that ends it. *)
Inductive StartStep : Type :=
| LinkClientPackage
| StartService (name : string)
| StartSyncEngine
| WatchConfigFile.

(** How the awaited calls of [start] settle. *)
Record StartOutcomes : Type := {
  link : Settled unit;
  backend : Settled unit;
  client : Settled unit;
  frontend : Settled unit;
  engine : Settled unit
}.

(** How the awaited calls of the stop sequence settle. *)
Record StopOutcomes : Type := {
  stops : list (Settled unit);
  kill : Settled unit;
  unlink : Settled unit;
  close : Settled unit
}.

(** [this.services.has('frontend')] *)
Definition has_frontend (o : Orchestrator) : bool :=
  existsb (String.eqb "frontend") (services o).

Definition steps (os : StartOutcomes) (o : Orchestrator)
  : list (StartStep * Settled unit) :=
  [(LinkClientPackage, link os); (StartService "backend", backend os);
   (StartService "client", client os)]
  ++ (if has_frontend o then [(StartService "frontend", frontend os)]
      else [])
  ++ [(StartSyncEngine, engine os)].

(** The [try] block: the calls are awaited one after the other, up to
    the first that rejects. *)
Fixpoint attempt (l : list (StartStep * Settled unit)) (done : list StartStep)
  : list StartStep * option Error :=
  match l with
  | [] => (done, None)
  | (s, Resolved _) :: rest => attempt rest (done ++ [s])
  | (s, Rejected err) :: _ => (done ++ [s], Some err)
  end.

Definition is_engine (s : StartStep) : bool :=
  match s with StartSyncEngine => true | _ => false end.

(** The stop sequence of [shutdown()] run as far as it goes. *)
Definition stop_actions (so : StopOutcomes) : list Action :=
  [Settle 0 (stops so) (Resolved tt); Settle 0 [] (kill so);
   Settle 0 [] (unlink so); Settle 0 [] (close so)].

(** How a call of [start] ends. *)
Inductive Ending : Type :=
| Returned                    (* start() resolved *)
| Threw (err : Error)         (* start() rejected with err *)
| ProcessExited (code : Z).   (* process.exit(code) was called *)

(** [start()], lines 181-226, with no other call in between.
    [this.syncEngine] is assigned before the engine's [start] is
    awaited.  In the [catch] block [await this.shutdown()] comes before
    [throw error]. *)
Definition start (os : StartOutcomes) (so : StopOutcomes) (o : Orchestrator)
  : Orchestrator * list StartStep * Ending :=
  let '(done, failure) := attempt (steps os o) [] in
  let o := if existsb is_engine done then set_syncEngine true o else o in
  match failure with
  | None => (set_configWatcher true o, done ++ [WatchConfigFile], Returned)
  | Some error =>
      let o' := run (Call shutdown :: stop_actions so) o in
      match exited o' with
      | Some code => (o', done, ProcessExited code)
      | None =>
          match skipn (List.length (rejected o)) (rejected o') with
          | err :: _ => (o', done, Threw err)   (* shutdown() rejected *)
          | [] => (o', done, Threw error)
          end
      end
  end.

(** An orchestrator as the constructor leaves it. *)
Definition created (names : list string) : Orchestrator :=
  {| isShuttingDown := false; syncEngine := false; services := names;
     configWatcher := false; pending := []; trace := [];
     rejected := []; exited := None |}.

Definition failed (os : StartOutcomes) : Prop :=
  exists err,
    link os = Rejected err \/ backend os = Rejected err
    \/ client os = Rejected err \/ engine os = Rejected err.

End OrchestratorStart.

(* ------------------------------------------------------------------ *)
(** ** DevSyncOrchestrator: linking the client package                 *)
(* ------------------------------------------------------------------ *)

Module PackageLinks.

(** The fields of [RuntimeConfig] that [linkClientPackage] and
    [unlinkPackages] read. *)
Record LinkConfig : Type := {
  clientPath : string;                (* config.resolvedPaths.client *)
  clientName : string;                (* config.services.client.packageName *)
  frontendPath : option string        (* config.resolvedPaths.frontend, which is
                                         set when config.services.frontend is *)
}.

Section Links.

(** [existsSync] on the lock files, and how the command that
    [runCommand] starts ends: with exit code 0, or not. *)
Context {W : Type} (existsSync : string -> bool)
  (exec : string -> string -> W -> Settled unit * W).

(** [detectPackageManager(projectPath)], lines 332-336. *)
Definition detectPackageManager (projectPath : string) : string :=
  if existsSync (DevSyncEngine.join projectPath "yarn.lock") then "yarn"
  else if existsSync (DevSyncEngine.join projectPath "pnpm-lock.yaml")
       then "pnpm"
       else "npm".

(** [this.linkedPackages], a set in the order of insertion, the
    machine, and the commands run with their directories. *)
Record Links : Type := {
  linkedPackages : list string;
  machine : W;
  commands : list (string * string)
}.

Definition runCommand (command cwd : string) (l : Links)
  : Settled unit * Links :=
  let '(r, w) := exec command cwd (machine l) in
  (r, {| linkedPackages := linkedPackages l; machine := w;
         commands := commands l ++ [(command, cwd)] |}).

(** [this.linkedPackages.add(name)] *)
Definition add (name : string) (l : Links) : Links :=
  {| linkedPackages :=
       if existsb (String.eqb name) (linkedPackages l)
       then linkedPackages l else linkedPackages l ++ [name];
     machine := machine l; commands := commands l |}.

(** [linkClientPackage()], lines 286-305. *)
Definition linkClientPackage (cfg : LinkConfig) (l : Links)
  : Settled unit * Links :=
  match frontendPath cfg with
  | None => (Resolved tt, l)
  | Some frontend =>
      let pm := detectPackageManager frontend in
      match runCommand (pm ++ " link") (clientPath cfg) l with
      | (Rejected err, l) => (Rejected err, l)
      | (Resolved _, l) =>
          let l := add (clientName cfg) l in
          runCommand (pm ++ " link " ++ clientName cfg) frontend l
      end
  end.

(** Lines 311-325: [for (const packageName of this.linkedPackages)],
    each iteration in its own [try]. *)
Fixpoint unlink_each (cfg : LinkConfig) (names : list string) (l : Links)
  : Links :=
  match names with
  | [] => l
  | packageName :: rest =>
      let l :=
        if truthy (frontendPath cfg) then
          match frontendPath cfg with
          | Some frontend =>
              snd (runCommand
                     (detectPackageManager frontend ++ " unlink "
                      ++ packageName) frontend l)
          | None => l
          end
        else l in
      unlink_each cfg rest l
  end.

(** [unlinkPackages()], lines 310-327. *)
Definition unlinkPackages (cfg : LinkConfig) (l : Links) : Links :=
  let l := unlink_each cfg (linkedPackages l) l in
  {| linkedPackages := []; machine := machine l; commands := commands l |}.

End Links.

(** A frontend with a [yarn.lock], and a shell in which the commands
    run in the frontend's directory fail; its state counts the
    commands. *)
Definition example_config : LinkConfig :=
  {| clientPath := "/work/client"; clientName := "@work/api-client";
     frontendPath := Some "/work/frontend"%string |}.

Definition lock_files (path : string) : bool :=
  String.eqb path "/work/frontend/yarn.lock".

Definition shell (command cwd : string) (w : nat) : Settled unit * nat :=
  (if String.eqb cwd "/work/frontend"
   then Rejected (JsError "Command failed with exit code 1")
   else Resolved tt, S w).

End PackageLinks.

(* ================================================================== *)
(** * Part II. Properties                                               *)
(* ================================================================== *)

(** ** Suspended tasks *)

Lemma nth_error_after {P : Type} (l r : list P) (i : nat) :
nth_error (l ++ r) (List.length l + i) = nth_error r i.
Proof. induction l as [|h t IH]; simpl; auto. Qed.

Lemma update_task_after {P : Type} (l r : list P) (i : nat) (next : option P) :
update_task (List.length l + i) next (l ++ r) = l ++ update_task i next r.
Proof.
induction l as [|h t IH]; simpl; [reflexivity|].
now rewrite IH.
Qed.

Lemma update_task_length {P : Type} (l : list P) (i : nat) (p : P) :
List.length (update_task i (Some p) l) = List.length l.
Proof.
revert i; induction l as [|h t IH]; intros [|i]; simpl; auto.
Qed.

Lemma update_task_none_length {P : Type} (l : list P) (i : nat) :
(List.length (update_task i None l) <= List.length l)%nat.
Proof.
revert i; induction l as [|h t IH]; intros [|i]; simpl; auto.
specialize (IH i); lia.
Qed.

(* ------------------------------------------------------------------ *)
(** ** The sync engine                                                  *)
(* ------------------------------------------------------------------ *)

Section SyncEngineFacts.

Import DevSyncEngine.

Variable cfg : RuntimeConfig.

Lemma shift_running (e : Engine) :
  e = shift (running e) (set_running [] e).
Proof.
  destruct e; unfold shift, set_running; simpl.
  now rewrite app_nil_r.
Qed.

Lemma settle_task_shift l i e c :
  settle_task (List.length l + i) (shift l e, c)
  = shift l (settle_task i (e, c)).
Proof.
  destruct c; unfold settle_task, shift, set_running, log; simpl;
    now rewrite update_task_after.
Qed.

Lemma try_catch_finally_shift l e c :
  try_catch_finally (shift l e, c)
  = (shift l (fst (try_catch_finally (e, c))),
     snd (try_catch_finally (e, c))).
Proof.
  destruct c; simpl; try reflexivity.
  unfold catch_block; simpl.
  destruct (syncRetries e <? MAX_SYNC_RETRIES); reflexivity.
Qed.

Lemma try_resume_shift l s r e :
  try_resume cfg s r (shift l e)
  = (shift l (fst (try_resume cfg s r e)), snd (try_resume cfg s r e)).
Proof.
  destruct r as [v|err]; [|reflexivity].
  destruct s; simpl;
    unfold try_generate, try_build, try_link, try_end, await;
    repeat match goal with
           | |- context [if ?b then _ else _] => destruct b
           end; reflexivity.
Qed.

Lemma resume_shift l i r e :
  resume cfg (List.length l + i) r (shift l e) = shift l (resume cfg i r e).
Proof.
  unfold resume.
  replace (running (shift l e)) with (l ++ running e) by reflexivity.
  rewrite nth_error_after.
  destruct (nth_error (running e) i) as [s|]; [|reflexivity].
  rewrite try_resume_shift, try_catch_finally_shift, settle_task_shift.
  rewrite <- (surjective_pairing (try_resume cfg s r e)).
  now rewrite <- surjective_pairing.
Qed.

Lemma finish_shift fuel os l i e :
  finish fuel cfg os (List.length l + i) (shift l e)
  = shift l (finish fuel cfg os i e).
Proof.
  revert e; induction fuel as [|fuel IH]; intros e; simpl; [reflexivity|].
  replace (running (shift l e)) with (l ++ running e) by reflexivity.
  rewrite nth_error_after.
  destruct (nth_error (running e) i) as [s|]; [|reflexivity].
  now rewrite resume_shift, IH.
Qed.

Lemma performSync_shift l e :
  performSync cfg (shift l e) = shift l (performSync cfg e).
Proof.
  unfold performSync.
  replace (syncLock (shift l e)) with (syncLock e) by reflexivity.
  destruct (syncLock e); [reflexivity|].
  unfold shift, settle_task, set_running, set_syncLock, emit, log; simpl.
  rewrite length_app, <- app_assoc, !update_task_after.
  reflexivity.
Qed.

Lemma sync_trigger_shift os l e :
  sync cfg Trigger os (shift l e) = shift l (sync cfg Trigger os e).
Proof.
  unfold sync, step.
  rewrite performSync_shift.
  replace (running (shift l e)) with (l ++ running e) by reflexivity.
  now rewrite length_app, finish_shift.
Qed.

Local Arguments Z.pow : simpl never.
Local Arguments Z.mul : simpl never.
Local Arguments Z.add : simpl never.

Ltac split_failure H :=
  repeat (simpl in H;
          match type of H with
          | match ?x with _ => _ end = Some _ =>
              revert H; destruct x; intros H
          end).

(** Every integer is 0, negative, 1, 2, 3 or larger: enough structure
    for the test [syncRetries < 3] to compute. *)
Ltac split_counter k :=
  destruct k as [|[[?|?|]|[?|?|]|]|?].

Lemma failed_quiet os err e :
  running e = [] -> syncLock e = false -> failure cfg os = Some err ->
  let e' := sync cfg Trigger os e in
  syncLock e' = false /\ running e' = [] /\
  syncRetries e' = (if syncRetries e <? 3 then syncRetries e + 1 else 0) /\
  timers e' = (if syncRetries e <? 3
               then timers e ++ [2 ^ (syncRetries e + 1) * 1000]
               else timers e) /\
  exists t, trace e' = trace e ++ t /\ failed_run (syncRetries e) err t.
Proof.
  destruct e as [lock k ts run tr]; simpl; intros -> -> H.
  destruct cfg as [st al rig [[|a bc]|] path bp], os as [c g b l].
  all: unfold failure in H; simpl in H.
  all: destruct c as [[|]|e1], st; simpl in H; try discriminate H;
    split_failure H; try discriminate H; injection H as ->.
  all: split_counter k.
  all: cbn -[Z.pow Z.add Z.mul].
  all: repeat split; try reflexivity.
  all: eexists; (split; [rewrite <- !app_assoc; reflexivity|]).
  all: unfold failed_run; cbn -[Z.pow Z.add Z.mul]; repeat split; tauto.
Qed.

Lemma added_app e e' t : trace e' = trace e ++ t -> added e e' = t.
Proof.
  unfold added; intros ->.
  rewrite skipn_app, skipn_all, Nat.sub_diag; reflexivity.
Qed.

Lemma failed_sync os err e :
  syncLock e = false -> failure cfg os = Some err ->
  let e' := sync cfg Trigger os e in
  syncLock e' = false /\ running e' = running e /\
  syncRetries e' = (if syncRetries e <? 3 then syncRetries e + 1 else 0) /\
  timers e' = (if syncRetries e <? 3
               then timers e ++ [2 ^ (syncRetries e + 1) * 1000]
               else timers e) /\
  exists t, trace e' = trace e ++ t /\ failed_run (syncRetries e) err t.
Proof.
  intros Hlock Hfail e'; subst e'.
  assert (Heq : sync cfg Trigger os e
                = shift (running e) (sync cfg Trigger os (set_running [] e)))
    by now rewrite <- sync_trigger_shift, <- shift_running.
  rewrite Heq; clear Heq.
  destruct (failed_quiet os err (set_running [] e) eq_refl Hlock Hfail)
    as (H1 & H2 & H3 & H4 & t & H5 & H6).
  remember (sync cfg Trigger os (set_running [] e)) as q eqn:Hq; clear Hq.
  unfold shift; simpl in *.
  rewrite H2, app_nil_r.
  split; [|split; [|split; [|split]]]; auto.
  exists t; auto.
Qed.

(** A retry timer that fires starts the same execution as a trigger
    that finds the lock free. *)
Lemma sync_timer os e d ts :
  timers e = d :: ts ->
  sync cfg (TimerFire 0) os e
  = sync cfg Trigger os (set_syncLock false (set_timers ts e)).
Proof.
  intros H; unfold sync, step, retry_callback.
  rewrite H; reflexivity.
Qed.

Lemma skipped_quiet os e :
  strategy cfg = smart -> checked os = Resolved false ->
  running e = [] -> syncLock e = false ->
  sync cfg Trigger os e
  = log (Call CheckForMeaningfulChanges) (emit generation_started None e).
Proof.
  destruct e as [lock k ts run tr], os as [c g b l]; simpl.
  destruct cfg as [st al rig bc path bp]; simpl.
  intros -> -> -> ->; reflexivity.
Qed.

Lemma skipped_sync os e :
  strategy cfg = smart -> checked os = Resolved false ->
  syncLock e = false ->
  sync cfg Trigger os e
  = log (Call CheckForMeaningfulChanges) (emit generation_started None e).
Proof.
  intros Hs Hc Hlock.
  rewrite (shift_running e) at 1.
  rewrite sync_trigger_shift, skipped_quiet; auto.
  destruct e; unfold shift, log, emit, set_running; simpl.
  now rewrite app_nil_r.
Qed.

(** One segment of [performSync], with its [try], [catch] and
    [finally], split into the cases of its conditions. *)
Ltac segment_cases :=
  unfold step, retry_callback, performSync, resume, try_resume,
    try_generate, try_build, try_link, try_end, try_catch_finally,
    catch_block, finally_block, await, settle_task, MAX_SYNC_RETRIES;
  repeat (simpl;
          match goal with
          | |- context [match nth_error ?l ?i with _ => _ end] =>
              destruct (nth_error l i)
          | |- context [match ?x with Resolved _ => _ | Rejected _ => _ end] =>
              destruct x
          | |- context [match ?x with
                        | CheckForMeaningfulChanges => _
                        | GenerateClient => _
                        | BuildClient => _
                        | LinkPackages => _
                        end] => destruct x
          | |- context [if ?b then _ else _] => destruct b eqn:?
          end); simpl.

Lemma count_app p (l t : list Obs) :
  count p (l ++ t) = (count p l + count p t)%nat.
Proof. unfold count; now rewrite filter_app, length_app. Qed.

(** The retry counter stays between 0 and [MAX_SYNC_RETRIES]. *)
Lemma step_retries_bounded a e :
  0 <= syncRetries e <= MAX_SYNC_RETRIES ->
  0 <= syncRetries (step cfg a e) <= MAX_SYNC_RETRIES.
Proof.
  intros H; destruct a; segment_cases;
    unfold MAX_SYNC_RETRIES in *;
    rewrite ?Z.ltb_lt in *; lia.
Qed.

(** No exception leaves [performSync]: no step adds a rejection. *)
Lemma step_no_propagation a e :
  count is_propagated (trace (step cfg a e))
  = count is_propagated (trace e).
Proof.
  destruct a; segment_cases;
    rewrite ?count_app; unfold count; simpl; lia.
Qed.

Lemma run_retries_bounded l e :
  0 <= syncRetries e <= MAX_SYNC_RETRIES ->
  0 <= syncRetries (run cfg l e) <= MAX_SYNC_RETRIES.
Proof.
  revert e; induction l as [|a l IH]; intros e H; simpl; auto.
  apply IH, step_retries_bounded, H.
Qed.

Lemma run_no_propagation l e :
  count is_propagated (trace (run cfg l e))
  = count is_propagated (trace e).
Proof.
  revert e; induction l as [|a l IH]; intros e; simpl; auto.
  rewrite IH; apply step_no_propagation.
Qed.

(** Without retry timers the lock does its work: it is held exactly
    while one execution is in progress, and there is never a second. *)
Definition locked_once (e : Engine) : Prop :=
  (syncLock e = true /\ exists s, running e = [s])
  \/ (syncLock e = false /\ running e = []).

Lemma trigger_locked_once e :
  locked_once e -> locked_once (performSync cfg e).
Proof.
  intros [[Hl [s Hr]]|[Hl Hr]]; unfold performSync; rewrite Hl.
  - left; simpl; eauto.
  - left; simpl; rewrite Hr; simpl; eauto.
Qed.

Lemma settle_locked_once i r e :
  locked_once e -> locked_once (resume cfg i r e).
Proof.
  intros [[Hl [s Hr]]|[Hl Hr]]; unfold resume; rewrite Hr.
  - destruct i as [|[|i]]; simpl; try (left; now eauto).
    unfold locked_once.
    segment_cases; rewrite ?Hr; simpl; eauto.
  - destruct i; simpl; right; auto.
Qed.

Lemma failed_retry os err e d ts :
  timers e = d :: ts -> failure cfg os = Some err ->
  let e' := sync cfg (TimerFire 0) os e in
  syncLock e' = false /\ running e' = running e /\
  syncRetries e' = (if syncRetries e <? 3 then syncRetries e + 1 else 0) /\
  timers e' = (if syncRetries e <? 3
               then ts ++ [2 ^ (syncRetries e + 1) * 1000]
               else ts) /\
  exists t, trace e' = trace e ++ t /\ failed_run (syncRetries e) err t.
Proof.
  intros Ht Hf e'; subst e'.
  rewrite (sync_timer os e d ts Ht).
  exact (failed_sync os err (set_syncLock false (set_timers ts e))
           eq_refl Hf).
Qed.

Lemma retries_cons os oss e d ts :
  timers e = d :: ts ->
  retries cfg (os :: oss) e = retries cfg oss (sync cfg (TimerFire 0) os e).
Proof. intros H; simpl; now rewrite H. Qed.

Lemma retries_nil oss e : timers e = [] -> retries cfg oss e = e.
Proof. intros H; destruct oss; simpl; now rewrite H. Qed.

Lemma retry_delays_app l t :
  retry_delays (l ++ t) = retry_delays l ++ retry_delays t.
Proof.
  induction l as [|[] l IH]; simpl; auto.
  now rewrite IH.
Qed.

Lemma retry_attempts_app l t :
  retry_attempts (l ++ t) = retry_attempts l ++ retry_attempts t.
Proof.
  induction l as [|[] l IH]; simpl; auto.
  now rewrite IH.
Qed.

Lemma run_locked_once l e :
  forallb (fun a => negb (is_timer a)) l = true ->
  locked_once e -> locked_once (run cfg l e).
Proof.
  revert e; induction l as [|a l IH]; intros e Hl He; simpl in *; auto.
  apply andb_prop in Hl as [Ha Hl].
  apply IH; auto.
  destruct a; simpl in *; try discriminate.
  - now apply trigger_locked_once.
  - now apply settle_locked_once.
Qed.

(** As long as no retry timer fires, at most one execution of
    [performSync] is in progress. *)
Lemma triggers_never_overlap l :
  forallb (fun a => negb (is_timer a)) l = true ->
  (in_progress (run cfg l init) <= 1)%nat.
Proof.
  intros Hl.
  destruct (run_locked_once l init Hl) as [[_ [s Hs]]|[_ Hs]];
    [right; split; reflexivity| |]; unfold in_progress; rewrite Hs;
    simpl; lia.
Qed.

End SyncEngineFacts.

Section SyncEngineClaims.

Import DevSyncEngine.

(** C1.  "At most one execution of [performSync] is in progress at any
    time, whatever triggers it, retries included" does not hold of the
    code: the callback of a retry timer sets [syncLock] to false and
    calls [performSync], whoever holds the lock.  Here a first
    execution fails and schedules its retry, a trigger then starts a
    second execution, which takes the lock, and the retry timer fires
    while that one awaits: the third execution starts beside the
    second, and no trigger was skipped. *)
Theorem retry_timer_overlaps_running_sync (cfg : RuntimeConfig) (err : Error) :
  let e := run cfg [Trigger; Settle 0 (Rejected err); Trigger; TimerFire 0]
             init in
  in_progress e = 2%nat /\
  count (is_event generation_started) (trace e) = 3%nat /\
  ~ In SkipLocked (trace e).
Proof.
  cbv; repeat split; try reflexivity.
  intros H; repeat (destruct H as [H|H]; [discriminate H|]); exact H.
Qed.

Lemma failing_has_error cfg os :
  failure cfg os <> None -> exists err, failure cfg os = Some err.
Proof. destruct (failure cfg os) as [err|]; [eauto|congruence]. Qed.

(** C2.  An engine whose executions of the sync procedure all fail,
    started by a trigger in a state with the lock free, the retry
    counter at 0 and no retry pending: the first failure and each
    failed retry schedule the next retry, with the delays 2000, 4000
    and 8000 ms, which is [2 ^ n * 1000] for the values 1, 2 and 3 of
    the retry counter (each delay the double of the one before, on a
    base of one second); the fourth failure schedules nothing, reports
    that the retries are used up and sets the counter to 0.  There are
    exactly 3 retries (4 executions).  The engine ends in a state like
    the one it started in - lock free, counter 0, no retry pending - so
    a later trigger has the same three retries again.  And in every run
    of the engine the counter stays within 0 .. MAX_SYNC_RETRIES = 3. *)
Theorem always_failing_sync_retries
  (cfg : RuntimeConfig) (os0 : Outcomes) (oss : list Outcomes) (e0 : Engine) :
  syncLock e0 = false -> syncRetries e0 = 0 -> timers e0 = [] ->
  failure cfg os0 <> None ->
  Forall (fun os => failure cfg os <> None) oss ->
  (3 <= List.length oss)%nat ->
  let e := retries cfg oss (sync cfg Trigger os0 e0) in
  retry_delays (added e0 e) = [2000; 4000; 8000] /\
  retry_attempts (added e0 e) = [1; 2; 3] /\
  count (is_event generation_started) (added e0 e) = 4%nat /\
  count (is_event generation_failed) (added e0 e) = 4%nat /\
  count is_max_retries (added e0 e) = 1%nat /\
  (syncLock e = false /\ syncRetries e = 0 /\ timers e = []) /\
  running e = running e0 /\
  MAX_SYNC_RETRIES = 3 /\
  forall l, 0 <= syncRetries (run cfg l init) <= MAX_SYNC_RETRIES.
Proof.
  intros Hl0 Hk0 Ht0 H0 Hall Hlen e; subst e.
  destruct oss as [|os1 [|os2 [|os3 rest]]]; simpl in Hlen; try lia.
  inversion_clear Hall as [|? ? H1 Hall1].
  inversion_clear Hall1 as [|? ? H2 Hall2].
  inversion_clear Hall2 as [|? ? H3 _].
  apply failing_has_error in H0 as [err0 H0], H1 as [err1 H1],
    H2 as [err2 H2], H3 as [err3 H3].
  destruct (failed_sync cfg os0 err0 e0 Hl0 H0)
    as (L1 & R1 & K1 & T1 & t1 & Tr1 & F1).
  remember (sync cfg Trigger os0 e0) as e1 eqn:E1; clear E1.
  rewrite Hk0 in K1, T1, F1; rewrite Ht0 in T1; simpl in K1, T1.
  rewrite (retries_cons cfg os1 _ e1 _ _ T1).
  destruct (failed_retry cfg os1 err1 e1 _ _ T1 H1)
    as (L2 & R2 & K2 & T2 & t2 & Tr2 & F2).
  remember (sync cfg (TimerFire 0) os1 e1) as e2 eqn:E2; clear E2.
  rewrite K1 in K2, T2, F2; simpl in K2, T2.
  rewrite (retries_cons cfg os2 _ e2 _ _ T2).
  destruct (failed_retry cfg os2 err2 e2 _ _ T2 H2)
    as (L3 & R3 & K3 & T3 & t3 & Tr3 & F3).
  remember (sync cfg (TimerFire 0) os2 e2) as e3 eqn:E3; clear E3.
  rewrite K2 in K3, T3, F3; simpl in K3, T3.
  rewrite (retries_cons cfg os3 _ e3 _ _ T3).
  destruct (failed_retry cfg os3 err3 e3 _ _ T3 H3)
    as (L4 & R4 & K4 & T4 & t4 & Tr4 & F4).
  remember (sync cfg (TimerFire 0) os3 e3) as e4 eqn:E4; clear E4.
  rewrite K3 in K4, T4, F4; simpl in K4, T4.
  rewrite (retries_nil cfg _ e4 T4).
  assert (Ha : added e0 e4 = t1 ++ t2 ++ t3 ++ t4).
  { apply added_app; rewrite Tr4, Tr3, Tr2, Tr1, <- !app_assoc; reflexivity. }
  rewrite Ha.
  destruct F1 as (A1 & B1 & _ & _ & _ & D1 & N1 & M1).
  destruct F2 as (A2 & B2 & _ & _ & _ & D2 & N2 & M2).
  destruct F3 as (A3 & B3 & _ & _ & _ & D3 & N3 & M3).
  destruct F4 as (A4 & B4 & _ & _ & _ & D4 & N4 & M4).
  simpl in D1, D2, D3, D4, N1, N2, N3, N4, M1, M2, M3, M4.
  rewrite !retry_delays_app, !retry_attempts_app, !count_app.
  rewrite D1, D2, D3, D4, N1, N2, N3, N4, A1, A2, A3, A4,
    B1, B2, B3, B4, M1, M2, M3, M4.
  rewrite R4, R3, R2, R1.
  repeat match goal with |- _ /\ _ => split end; auto.
  intros l; apply run_retries_bounded; unfold MAX_SYNC_RETRIES; simpl; lia.
Qed.

Lemma always_failing_sync_retries_witness :
  failure example_config generation_fails <> None /\
  Forall (fun os => failure example_config os <> None)
    (repeat generation_fails 3) /\
  retry_delays
    (added init
       (retries example_config (repeat generation_fails 3)
          (sync example_config Trigger generation_fails init)))
  = [2000; 4000; 8000].
Proof.
  assert (H : failure example_config generation_fails <> None)
    by (vm_compute; discriminate).
  split; [exact H|].
  split; [repeat constructor; exact H|].
  apply (always_failing_sync_retries example_config generation_fails
           (repeat generation_fails 3) init eq_refl eq_refl eq_refl H).
  - repeat constructor; exact H.
  - simpl; lia.
Defined.

(** C3, as the code has it.  Under the smart strategy, when the
    detector reports no significant change, the sync procedure ends
    early and normally: all it does is emit [generation-started] and
    call [checkForMeaningfulChanges].  [generateClient] is not called,
    no [generation-failed] event is emitted, no retry is scheduled,
    the retry counter keeps its value, the lock is free again - and no
    [generation-completed] event is emitted. *)
Theorem smart_skip_ends_early
  (cfg : RuntimeConfig) (os : Outcomes) (e : Engine) :
  strategy cfg = smart -> checked os = Resolved false ->
  syncLock e = false ->
  let e' := sync cfg Trigger os e in
  added e e' = [started_ev; Call CheckForMeaningfulChanges] /\
  count (is_call GenerateClient) (added e e') = 0%nat /\
  count (is_event generation_failed) (added e e') = 0%nat /\
  count (is_event generation_completed) (added e e') = 0%nat /\
  count is_propagated (added e e') = 0%nat /\
  syncLock e' = false /\ running e' = running e /\
  timers e' = timers e /\ syncRetries e' = syncRetries e.
Proof.
  intros Hs Hc Hl e'; subst e'.
  rewrite (skipped_sync cfg os e Hs Hc Hl).
  assert (Ha : added e (log (Call CheckForMeaningfulChanges)
                          (emit generation_started None e))
               = [started_ev; Call CheckForMeaningfulChanges]).
  { apply added_app; simpl; now rewrite <- app_assoc. }
  rewrite Ha; simpl; repeat split; auto.
Qed.

Lemma smart_skip_ends_early_witness :
  added init (sync example_config Trigger unchanged init)
  = [started_ev; Call CheckForMeaningfulChanges].
Proof.
  apply (smart_skip_ends_early example_config unchanged init);
    reflexivity.
Defined.

(** C3, as stated, fails: with the smart strategy and no significant
    change, no [generation-completed] event is among the events of the
    execution. *)
Lemma smart_skip_emits_no_completion :
  strategy example_config = smart /\
  checked unchanged = Resolved false /\
  ~ (count (is_call GenerateClient)
       (trace (sync example_config Trigger unchanged init)) = 0%nat /\
     count (is_event generation_failed)
       (trace (sync example_config Trigger unchanged init)) = 0%nat /\
     (1 <= count (is_event generation_completed)
             (trace (sync example_config Trigger unchanged init)))%nat).
Proof.
  split; [reflexivity|]; split; [reflexivity|].
  vm_compute; intros (_ & _ & H); inversion H.
Qed.

(** C6.  Whatever fails inside the sync procedure - the check of the
    specification, the generation, the build or the linking - with
    the error [err]: [performSync] emits a [generation-failed] event
    that carries [err], and its own promise does not reject; so
    [start], which awaits the initial synchronisation, does not
    reject either.  And in no run of the engine at all does an
    exception leave [performSync]. *)
Theorem performSync_catches_failures
  (cfg : RuntimeConfig) (os : Outcomes) (e : Engine) (err : Error) :
  syncLock e = false -> failure cfg os = Some err ->
  let e' := sync cfg Trigger os e in
  In (failed_ev err) (added e e') /\
  count is_propagated (added e e') = 0%nat /\
  count is_propagated (trace (start_initial_sync cfg os e))
  = count is_propagated (trace e) /\
  forall l, count is_propagated (trace (run cfg l init)) = 0%nat.
Proof.
  intros Hl Hf e'; subst e'.
  destruct (failed_sync cfg os err e Hl Hf)
    as (_ & _ & _ & _ & t & Ht & _ & _ & _ & Hp & Hin & _).
  rewrite (added_app _ _ _ Ht).
  repeat match goal with |- _ /\ _ => split end; auto.
  - unfold start_initial_sync.
    destruct (runInitialGeneration cfg); [|reflexivity].
    rewrite Ht, count_app, Hp; lia.
  - intros l; now rewrite run_no_propagation.
Qed.

Lemma performSync_catches_failures_witness :
  In (failed_ev (JsError "Command failed: npx @hey-api/openapi-ts"))
    (added init (sync example_config Trigger generation_fails init)).
Proof.
  apply (performSync_catches_failures example_config generation_fails init
           (JsError "Command failed: npx @hey-api/openapi-ts"));
    reflexivity.
Defined.

End SyncEngineClaims.

Section ComparisonClaims.

Import DevSyncEngine.

Variables Doc Detector : Type.
Variable hasSignificantChanges : Doc -> Detector -> Settled bool * Detector.
Variable getCurrentHash : Detector -> option string.

Let check := checkForMeaningfulChanges hasSignificantChanges getCurrentHash.

(** C10.  For a specification served at run time, a comparison fetch
    that fails - the request rejects (network error, timeout) or the
    status is not OK - makes [checkForMeaningfulChanges] answer true,
    with nothing changed in the engine; on that path the method never
    throws, and on the answer true the sync procedure goes on to call
    [generateClient], whatever the strategy.  When the method throws,
    the specification is a static file and the error is an
    [ApiSpecError] for that file; it does so when the file is missing
    or cannot be parsed. *)
Theorem comparison_failure_assumes_change
  (cfg : RuntimeConfig) (src : SpecSource Doc) (f : Fields Detector) :
  (isRuntimeSpec cfg = true -> fetch_fails src = true ->
   check cfg src f = (Resolved true, f)) /\
  (isRuntimeSpec cfg = true ->
   forall err, fst (check cfg src f) <> Rejected err) /\
  (forall e, try_generate cfg true e = await GenerateClient e) /\
  (forall err, fst (check cfg src f) = Rejected err ->
   isRuntimeSpec cfg = false /\
   exists m,
     err = ApiSpecError m (join (backendPath cfg) (apiSpecPath cfg))) /\
  (isRuntimeSpec cfg = false ->
   existsSync src = false \/ (exists e0, parsed src = Rejected e0) ->
   exists m,
     fst (check cfg src f)
     = Rejected (ApiSpecError m (join (backendPath cfg) (apiSpecPath cfg)))).
Proof.
  unfold check, checkForMeaningfulChanges, fetch_fails, try_generate.
  destruct (isRuntimeSpec cfg); repeat split; try discriminate.
  - intros _; destruct (fetched src) as [r|[|] st [d|r]];
      try discriminate; reflexivity.
  - intros _ err; destruct (fetched src) as [r|[|] st [d|r]];
      try discriminate.
    destruct (hasSignificantChanges d (changeDetector f)) as [[b|r] d'];
      discriminate.
  - destruct (fetched src) as [r|[|] st [d|r]]; try discriminate.
    destruct (hasSignificantChanges d (changeDetector f)) as [[b|r] d'];
      discriminate.
  - destruct (fetched src) as [r|[|] st [d|r]]; try discriminate.
    destruct (hasSignificantChanges d (changeDetector f)) as [[b|r] d'];
      discriminate.
  - destruct (existsSync src); simpl in *.
    + destruct (parsed src) as [d|r]; simpl in *.
      * destruct (hasSignificantChanges d (changeDetector f))
          as [[b|r] d']; simpl in *; [discriminate|].
        injection H as <-; eauto.
      * injection H as <-; eauto.
    + injection H as <-; eauto.
  - intros _ [He|[e0 He]]; rewrite He; simpl; eauto.
    destruct (existsSync src); simpl; eauto.
Qed.

End ComparisonClaims.

Lemma comparison_failure_assumes_change_witness :
let f := {| DevSyncEngine.changeDetector := SwaggerChangeDetector.init;
            DevSyncEngine.lastGeneratedSpecHash := None |} in
  DevSyncEngine.checkForMeaningfulChanges
    (fun d det =>
       (Resolved
          (fst (SwaggerChangeDetector.hasSignificantChanges
                  SwaggerChangeDetector.stringify d det)),
        snd (SwaggerChangeDetector.hasSignificantChanges
               SwaggerChangeDetector.stringify d det)))
    SwaggerChangeDetector.getCurrentHash
    DevSyncEngine.example_config
    {| DevSyncEngine.fetched :=
         DevSyncEngine.FetchFailed (JsError "fetch failed");
       DevSyncEngine.existsSync := false;
       DevSyncEngine.parsed := Rejected (JsError "ENOENT") |} f
  = (Resolved true, f).
Proof.
intros f.
apply (comparison_failure_assumes_change _ _ _ _
         DevSyncEngine.example_config); reflexivity.
Defined.

(* ------------------------------------------------------------------ *)
(** ** The port resolver                                                *)
(* ------------------------------------------------------------------ *)

Section PortManagerFacts.

Import PortManager.

Context {W : Type} (sys : System W).

Lemma waits_app l t : waits (l ++ t) = waits l ++ waits t.
Proof. induction l as [|[] l IH]; simpl; auto; now rewrite IH. Qed.

Lemma kills_app l t : kills (l ++ t) = kills l ++ kills t.
Proof. induction l as [|[] l IH]; simpl; auto; now rewrite IH. Qed.

Lemma waits_kill_ops a pids : waits (kill_ops a pids) = [].
Proof. induction pids; simpl; auto. Qed.

Lemma kills_kill_ops a pids :
  kills (kill_ops a pids) = map (fun _ => (method_of a, a)) pids.
Proof. induction pids as [|p l IH]; simpl; auto; now rewrite IH. Qed.

Lemma rechecked_kill_ops port a pids t :
  rechecked port (kill_ops a pids ++ t) = rechecked port t.
Proof. induction pids; simpl; auto. Qed.

Lemma existsb_tip_kill_ops a pids : existsb is_tip (kill_ops a pids) = false.
Proof. induction pids; simpl; auto. Qed.

Lemma kill_all_trace a pids r :
  snd (kill_all sys a pids r) = snd r ++ kill_ops a pids.
Proof.
  revert r; induction pids as [|p l IH]; intros r; simpl.
  - now rewrite app_nil_r.
  - rewrite IH; simpl; now rewrite <- app_assoc.
Qed.

Lemma escalated_method_of a : 1 <= a <= maxAttempts -> escalated (method_of a, a).
Proof.
  intros H; unfold escalated, method_of; simpl.
  destruct (Z.eqb_spec a 1); [auto|].
  destruct (Z.eqb_spec a 2); [auto|].
  right; right; split; [lia|reflexivity].
Qed.

(** What the loop adds to the calls made so far. *)
Lemma attempts_trace port left : forall a d pids r,
  exists body n,
    snd (snd (attempts sys left port a d pids r)) = snd r ++ body /\
    (n <= left)%nat /\
    waits body = firstn n (backoff left d) /\
    Forall (fun mk => a < snd mk <= a + Z.of_nat left
                      /\ fst mk = method_of (snd mk)) (kills body) /\
    rechecked port body = true.
Proof.
  induction left as [|left IH]; intros a d pids r.
  - unfold attempts, all_attempts_failed.
    destruct (hasElevatedPrivileges sys (fst r)) as [b w'].
    exists ([OpHasElevatedPrivileges b] ++ if negb b then [OpTip] else []),
      O.
    destruct b; simpl; rewrite <- ?app_assoc; repeat split; auto.
  - cbn [attempts].
    set (r1 := kill_all sys (a + 1) pids r).
    assert (H1 : snd r1 = snd r ++ kill_ops (a + 1) pids)
      by apply kill_all_trace.
    cbn [fst snd].
    destruct (isPortInUse sys port _) as [inUse w3].
    destruct inUse; cbn [negb].
    + destruct (getProcessesUsingPort sys port _) as [newPids w4].
      match goal with
      | |- context [attempts sys left port ?a' ?d' ?p' ?r'] =>
          destruct (IH a' d' p' r') as (body & n & Hb & Hn & Hw & Hk & Hr)
      end.
      exists (kill_ops (a + 1) pids
              ++ OpWait d :: OpIsPortInUse port true
                 :: OpGetProcessesUsingPort port newPids :: body), (S n).
      rewrite Hb; cbn [snd]; rewrite H1.
      rewrite waits_app, kills_app, waits_kill_ops, kills_kill_ops,
        rechecked_kill_ops.
      repeat split.
      * rewrite <- !app_assoc; reflexivity.
      * lia.
      * simpl; now rewrite Hw.
      * apply Forall_app; split.
        -- apply Forall_forall; intros mk Hin.
           apply in_map_iff in Hin as (p & <- & _); simpl; split; [lia|auto].
        -- simpl. eapply Forall_impl; [|exact Hk].
           simpl; intros mk [Hlt Hm]; split; [lia|auto].
      * simpl; rewrite Z.eqb_refl; simpl.
        destruct body as [|[] body]; simpl in *; auto.
    + exists (kill_ops (a + 1) pids
              ++ [OpWait d; OpIsPortInUse port false]), 1%nat.
      cbn [snd]; rewrite H1.
      rewrite waits_app, kills_app, waits_kill_ops, kills_kill_ops,
        rechecked_kill_ops.
      repeat split.
      * rewrite <- !app_assoc; reflexivity.
      * lia.
      * rewrite app_nil_r.
        apply Forall_forall; intros mk Hin.
        apply in_map_iff in Hin as (p & <- & _); simpl; split; [lia|auto].
      * simpl; now rewrite Z.eqb_refl.
Qed.

(** On a machine where the port never becomes free the loop runs all
    its iterations and gives up. *)
Lemma attempts_stubborn port elevated :
  (forall w, fst (isPortInUse sys port w) = true) ->
  (forall w, fst (hasElevatedPrivileges sys w) = elevated) ->
  forall left a d pids r,
    fst (attempts sys left port a d pids r) = Rejected (gave_up port) /\
    waits (snd (snd (attempts sys left port a d pids r)))
    = waits (snd r) ++ backoff left d /\
    existsb is_tip (snd (snd (attempts sys left port a d pids r)))
    = existsb is_tip (snd r) || negb elevated.
Proof.
  intros Hbusy Hel; induction left as [|left IH]; intros a d pids r.
  - unfold attempts, all_attempts_failed.
    specialize (Hel (fst r)).
    destruct (hasElevatedPrivileges sys (fst r)) as [b w'].
    simpl in Hel; subst b.
    destruct elevated; simpl;
      rewrite ?waits_app, ?existsb_app; simpl;
      rewrite ?app_nil_r, ?orb_false_r; auto.
  - cbn [attempts].
    set (r1 := kill_all sys (a + 1) pids r).
    assert (H1 : snd r1 = snd r ++ kill_ops (a + 1) pids)
      by apply kill_all_trace.
    cbn [fst snd].
    match goal with
    | |- context [isPortInUse sys port ?w] =>
        specialize (Hbusy w); destruct (isPortInUse sys port w) as [inUse w3]
    end.
    simpl in Hbusy; subst inUse; cbn [negb].
    destruct (getProcessesUsingPort sys port _) as [newPids w4].
    match goal with
    | |- context [attempts sys left port ?a' ?d' ?p' ?r'] =>
        destruct (IH a' d' p' r') as (Hf & Hw & Ht)
    end.
    rewrite Hf, Hw, Ht; cbn [snd]; rewrite H1.
    rewrite !waits_app, !existsb_app, waits_kill_ops, existsb_tip_kill_ops.
    simpl; rewrite !app_nil_r, !orb_false_r, <- app_assoc.
    auto.
Qed.

(** The trace of the loop is its turns one after the other, then the
    calls of giving up when all turns found the port in use. *)
Lemma attempts_rounds port left : forall a d pids r,
  exists rs tail,
    snd (snd (attempts sys left port a d pids r))
    = snd r ++ flat_map (round_ops port) rs ++ tail /\
    (List.length rs <= left)%nat /\
    (left <> O -> rs <> []) /\
    escalating a d pids rs /\
    ((tail = [] /\ fst (attempts sys left port a d pids r) = Resolved tt /\
      exists rs0 r0, rs = rs0 ++ [r0] /\ still_in_use r0 = false)
     \/
     (List.length rs = left /\
      Forall (fun r => still_in_use r = true) rs /\
      fst (attempts sys left port a d pids r) = Rejected (gave_up port) /\
      exists elevated, tail = gave_up_ops elevated)).
Proof.
  induction left as [|left IH]; intros a d pids r.
  - unfold attempts, all_attempts_failed.
    destruct (hasElevatedPrivileges sys (fst r)) as [b w'].
    exists [], (gave_up_ops b).
    split; [destruct b; simpl; rewrite <- ?app_assoc; reflexivity|].
    split; [simpl; lia|]; split; [congruence|]; split; [exact I|].
    right; repeat split; eauto.
  - cbn [attempts].
    set (r1 := kill_all sys (a + 1) pids r).
    assert (H1 : snd r1 = snd r ++ kill_ops (a + 1) pids)
      by apply kill_all_trace.
    cbn [fst snd].
    destruct (isPortInUse sys port _) as [inUse w3].
    destruct inUse; cbn [negb].
    + destruct (getProcessesUsingPort sys port _) as [newPids w4].
      match goal with
      | |- context [attempts sys left port ?a' ?d' ?p' ?r'] =>
          destruct (IH a' d' p' r')
            as (rs & tail & Ht & Hn & Hne & He & Hend)
      end.
      set (r0 := {| attempt_no := a + 1; owners := pids; waited := d;
                    still_in_use := true; found := newPids |}).
      exists (r0 :: rs), tail.
      split; [rewrite Ht; cbn [snd]; rewrite H1; unfold round_ops; simpl;
              rewrite <- !app_assoc; reflexivity|].
      split; [simpl; lia|]; split; [discriminate|].
      split; [simpl; repeat split; auto|].
      destruct Hend as [(Htl & Hf & rs0 & rl & Hrs & Hl)
                       |(Hl & Hall & Hf & e & Htl)].
      * left; split; [exact Htl|]; split; [exact Hf|].
        exists (r0 :: rs0), rl; rewrite Hrs; auto.
      * right; split; [simpl; lia|]; split; [constructor; auto|].
        split; [exact Hf|eauto].
    + set (r0 := {| attempt_no := a + 1; owners := pids; waited := d;
                    still_in_use := false; found := [] |}).
      exists [r0], [].
      split; [cbn [snd]; rewrite H1; unfold round_ops; simpl;
              rewrite <- !app_assoc; reflexivity|].
      split; [simpl; lia|]; split; [discriminate|].
      split; [simpl; repeat split; auto; congruence|].
      left; repeat split; auto.
      exists [], r0; auto.
Qed.

Lemma next_owners_nonempty pids newPids :
  pids <> [] -> next_owners pids newPids <> [].
Proof.
  intros H; unfold next_owners.
  destruct newPids; simpl; auto.
  destruct (negb _); auto; discriminate.
Qed.

Lemma escalating_owners rs : forall a d pids,
  pids <> [] -> escalating a d pids rs ->
  Forall (fun r => owners r <> []) rs.
Proof.
  induction rs as [|r rs IH]; intros a d pids Hp He; constructor.
  - destruct He as (_ & -> & _); exact Hp.
  - destruct He as (_ & _ & _ & _ & He).
    eapply IH; [|exact He]; now apply next_owners_nonempty.
Qed.

(** A turn with an owner to signal makes a kill with the method of its
    attempt. *)
Lemma round_kills port r :
  owners r <> [] ->
  In (method_of (attempt_no r), attempt_no r) (kills (round_ops port r)).
Proof.
  intros H; unfold round_ops; rewrite kills_app, kills_kill_ops.
  apply in_or_app; left.
  destruct (owners r); [congruence|simpl; auto].
Qed.

Lemma five_rounds_kill port rs :
  forall pids,
  List.length rs = 5%nat -> escalating 0 initialDelay pids rs ->
  Forall (fun r => owners r <> []) rs ->
  Forall (fun mk => In mk (kills (flat_map (round_ops port) rs)))
    [(Graceful, 1); (Sigkill, 2); (ForceKill, 3); (ForceKill, 4);
     (ForceKill, 5)].
Proof.
  intros pids.
  destruct rs as [|r1 [|r2 [|r3 [|r4 [|r5 [|]]]]]]; try discriminate.
  intros _ (A1 & _ & _ & _ & A2 & _ & _ & _ & A3 & _ & _ & _ & A4 & _ & _ & _
            & A5 & _) Ho.
  inversion Ho as [|? ? O1 Ho1]; subst.
  inversion Ho1 as [|? ? O2 Ho2]; subst.
  inversion Ho2 as [|? ? O3 Ho3]; subst.
  inversion Ho3 as [|? ? O4 Ho4]; subst.
  inversion Ho4 as [|? ? O5 _]; subst.
  pose proof (round_kills port r1 O1) as K1.
  pose proof (round_kills port r2 O2) as K2.
  pose proof (round_kills port r3 O3) as K3.
  pose proof (round_kills port r4 O4) as K4.
  pose proof (round_kills port r5 O5) as K5.
  rewrite A1 in K1; rewrite A2 in K2; rewrite A3 in K3; rewrite A4 in K4;
    rewrite A5 in K5.
  cbn [flat_map]; rewrite !kills_app.
  repeat constructor; rewrite !in_app_iff; auto 10.
Qed.

End PortManagerFacts.

Section PortManagerClaims.

Import PortManager.

(** C5.  [freePort] makes at most 5 attempts, whatever the machine
    does: the delays it waits are the first [n] of 500, 1000, 2000,
    4000, 5000 ms for some [n <= 5]; every kill belongs to an attempt
    1 .. 5 and uses the graceful signal in attempt 1, SIGKILL in
    attempt 2 and the force kill from attempt 3 on; every wait is
    followed at once by a check of the port, and every such check that
    finds it in use by a new look at the owning processes.  If the
    port stays in use (and its owners can be found), all five waits
    take place, each of the five attempts signals a process with its
    method, and [freePort] throws its error, with the tip about
    elevated privileges exactly when the process has none.  The calls
    are exactly these: the first check alone when the port is free; the
    check and the look at the owners when no owner is found; otherwise
    these two, then between one and five turns, each one killing every
    owner known at its start (never none), then waiting its delay and
    checking the port again, the owners being those of the first look
    replaced by each later look that finds other ones; the turns end
    either with a check that finds the port free, and [freePort]
    returns, or after the fifth, all five having found the port in use,
    and [freePort] checks the privileges and throws.  The function is
    total: it returns in every case. *)
Theorem freePort_gives_up_after_five_attempts
  {W : Type} (sys : System W) (port : Z) (w : W) :
  let t := snd (snd (freePort sys port w)) in
  (exists n, (n <= 5)%nat /\
             waits t = firstn n [500; 1000; 2000; 4000; 5000]) /\
  Forall escalated (kills t) /\
  rechecked port t = true /\
  ((forall w', fst (isPortInUse sys port w') = true) ->
   (forall w', fst (getProcessesUsingPort sys port w') <> []) ->
   forall elevated,
     (forall w', fst (hasElevatedPrivileges sys w') = elevated) ->
     waits t = [500; 1000; 2000; 4000; 5000] /\
     fst (freePort sys port w) = Rejected (gave_up port) /\
     existsb is_tip t = negb elevated /\
     Forall (fun mk => In mk (kills t))
       [(Graceful, 1); (Sigkill, 2); (ForceKill, 3); (ForceKill, 4);
        (ForceKill, 5)]) /\
  (t = [OpIsPortInUse port false]
   \/ t = [OpIsPortInUse port true; OpGetProcessesUsingPort port []]
   \/ exists pids rs tail,
        pids <> [] /\ rs <> [] /\ (List.length rs <= 5)%nat /\
        t = [OpIsPortInUse port true; OpGetProcessesUsingPort port pids]
            ++ flat_map (round_ops port) rs ++ tail /\
        escalating 0 initialDelay pids rs /\
        Forall (fun r => owners r <> []) rs /\
        ((tail = [] /\ fst (freePort sys port w) = Resolved tt /\
          exists rs0 r0, rs = rs0 ++ [r0] /\ still_in_use r0 = false)
         \/
         (List.length rs = 5%nat /\
          Forall (fun r => still_in_use r = true) rs /\
          fst (freePort sys port w) = Rejected (gave_up port) /\
          exists elevated, tail = gave_up_ops elevated))).
Proof.
  unfold freePort.
  destruct (isPortInUse sys port w) as [inUse w1] eqn:E1.
  destruct inUse; cbn [negb fst snd].
  - destruct (getProcessesUsingPort sys port w1) as [pids w2] eqn:E2.
    cbn [fst snd app].
    destruct (Z.of_nat (List.length pids) =? 0) eqn:E3.
    + assert (Hp : pids = [])
        by (apply Z.eqb_eq in E3; destruct pids; [reflexivity|simpl in E3; lia]).
      subst pids; cbn [snd].
      repeat match goal with |- _ /\ _ => split end.
      * exists O; split; [lia|reflexivity].
      * constructor.
      * reflexivity.
      * intros _ Hown; exfalso.
        specialize (Hown w1); rewrite E2 in Hown; now apply Hown.
      * right; left; reflexivity.
    + assert (Hp : pids <> [])
        by (intros ->; simpl in E3; discriminate).
      destruct (attempts_trace sys port (Z.to_nat maxAttempts) 0
                  initialDelay pids
                  (w2, [OpIsPortInUse port true;
                        OpGetProcessesUsingPort port pids]))
        as (body & n & Hb & Hn & Hw & Hk & Hr).
      destruct (attempts_rounds sys port (Z.to_nat maxAttempts) 0
                  initialDelay pids
                  (w2, [OpIsPortInUse port true;
                        OpGetProcessesUsingPort port pids]))
        as (rs & tail & Ht & Hlen & Hne & Hesc & Hend).
      cbn [snd] in Hb, Ht.
      pose proof (escalating_owners rs 0 initialDelay pids Hp Hesc) as Hown.
      repeat match goal with |- _ /\ _ => split end.
      * exists n; split; [exact Hn|].
        rewrite Hb; simpl; exact Hw.
      * rewrite Hb; simpl.
        eapply Forall_impl; [|exact Hk].
        intros [m a] [Ha Hm]; simpl in *; subst m.
        apply escalated_method_of; unfold maxAttempts; lia.
      * rewrite Hb; simpl; exact Hr.
      * intros Hbusy _ elevated Hel.
        destruct (attempts_stubborn sys port elevated Hbusy Hel
                    (Z.to_nat maxAttempts) 0 initialDelay pids
                    (w2, [OpIsPortInUse port true;
                          OpGetProcessesUsingPort port pids]))
          as (Hf & Hw' & Hti).
        rewrite Hti, Hw'.
        repeat match goal with |- _ /\ _ => split end; auto.
        destruct Hend as [(_ & Hres & _)|(Hfive & _)];
          [rewrite Hf in Hres; discriminate|].
        rewrite Ht.
        eapply Forall_impl;
          [|exact (five_rounds_kill port rs pids Hfive Hesc Hown)].
        intros mk Hin; simpl; rewrite kills_app; apply in_or_app; now left.
      * right; right; exists pids, rs, tail.
        split; [exact Hp|]; split; [apply Hne; discriminate|].
        split; [exact Hlen|]; split; [exact Ht|].
        split; [exact Hesc|]; split; [exact Hown|exact Hend].
  - repeat match goal with |- _ /\ _ => split end.
    + exists O; split; [lia|reflexivity].
    + constructor.
    + reflexivity.
    + intros Hbusy; specialize (Hbusy w); rewrite E1 in Hbusy.
      discriminate Hbusy.
    + left; reflexivity.
Qed.

Lemma freePort_gives_up_after_five_attempts_witness :
  let t := snd (snd (freePort (stubborn ["12345"%string] false) 4000 O)) in
  (waits t = [500; 1000; 2000; 4000; 5000] /\
   fst (freePort (stubborn ["12345"%string] false) 4000 O)
   = Rejected (gave_up 4000) /\
   existsb is_tip t = negb false /\
   Forall (fun mk => In mk (kills t))
     [(Graceful, 1); (Sigkill, 2); (ForceKill, 3); (ForceKill, 4);
      (ForceKill, 5)]) /\
  filter is_kill t
  = [OpKill Graceful 12345 1; OpKill Sigkill 12345 2;
     OpKill ForceKill 12345 3; OpKill ForceKill 12345 4;
     OpKill ForceKill 12345 5] /\
  freePort (yielding "12345") 4000 true
  = (Resolved tt,
     (false,
      [OpIsPortInUse 4000 true; OpGetProcessesUsingPort 4000 ["12345"%string];
       OpKill Graceful 12345 1; OpWait 500;
       OpIsPortInUse 4000 true; OpGetProcessesUsingPort 4000 ["12345"%string];
       OpKill Sigkill 12345 2; OpWait 1000;
       OpIsPortInUse 4000 false])).
Proof.
  split; [|split; reflexivity].
  apply (proj1 (proj2 (proj2 (proj2
           (freePort_gives_up_after_five_attempts
              (stubborn ["12345"%string] false) 4000 O))))).
  - reflexivity.
  - intros w' H; simpl in H; discriminate H.
  - reflexivity.
Defined.

(** C9.  On a port that is not in use [freePort] returns at once and
    normally: the first check of the port is its only call - no kill,
    no wait - and the machine is as that check left it. *)
Theorem freePort_free_port_returns_at_once
  {W : Type} (sys : System W) (port : Z) (w : W) :
  fst (isPortInUse sys port w) = false ->
  freePort sys port w
  = (Resolved tt, (snd (isPortInUse sys port w), [OpIsPortInUse port false]))
  /\ kills (snd (snd (freePort sys port w))) = []
  /\ waits (snd (snd (freePort sys port w))) = [].
Proof.
  intros H; unfold freePort.
  destruct (isPortInUse sys port w) as [inUse w1].
  simpl in H; subst inUse; simpl; auto.
Qed.

Lemma freePort_free_port_returns_at_once_witness :
  freePort idle 4000 O = (Resolved tt, (1%nat, [OpIsPortInUse 4000 false])).
Proof.
  apply (freePort_free_port_returns_at_once idle 4000 O); reflexivity.
Defined.

End PortManagerClaims.

(* ------------------------------------------------------------------ *)
(** ** The service life cycle                                           *)
(* ------------------------------------------------------------------ *)

Section ServiceClaims.

Import BaseService.

Lemma ServiceState_eqb_eq a b : ServiceState_eqb a b = true <-> a = b.
Proof. destruct a, b; simpl; split; congruence. Qed.

(** C4.  For a service in any state its calls may have left it in:
    [start()] when the state is not [stopped] changes nothing;
    [stop()] when the state is [stopped] changes nothing; the exit of
    the process while the state is [running] records the error and
    moves the service to [error], with its [stateChange] event; the
    same exit while the state is [stopping] changes nothing.  And
    whenever a step takes a service into [error], that step is the
    exit of the process while [running] or belongs to a call of
    [start] - never a call of [stop] or the end of its kill. *)
Theorem service_state_machine
  (cfg : ServiceConfig) (s : Service) (code : option Z) :
  (state s <> STOPPED -> start cfg s = s) /\
  (state s = STOPPED -> stop s = s) /\
  (state s = RUNNING ->
   state (on_exit code s) = ERROR /\
   emitted (on_exit code s) = emitted s ++ [(RUNNING, ERROR)] /\
   error (on_exit code s)
   = Some (JsError ("Process exited unexpectedly with code "
                    ++ code_text code))) /\
  (state s = STOPPING -> on_exit code s = s) /\
  (forall a, state s <> ERROR -> state (step cfg a s) = ERROR ->
             (a = Exit (match a with Exit c => c | _ => None end)
              /\ state s = RUNNING)
             \/ of_start a s = true).
Proof.
  repeat match goal with |- _ /\ _ => split end.
  - intros H; unfold start.
    destruct (ServiceState_eqb (state s) STOPPED) eqn:E; [|reflexivity].
    apply ServiceState_eqb_eq in E; contradiction.
  - intros H; unfold stop; now rewrite H.
  - intros H; unfold on_exit; rewrite H; simpl; rewrite H; auto.
  - intros H; unfold on_exit; now rewrite H.
  - intros a Hne He; destruct a as [| |i r|c]; simpl in He.
    + right; reflexivity.
    + exfalso; revert He; unfold stop.
      destruct (state s) eqn:Es; simpl; try congruence;
        destruct (process s); simpl; congruence.
    + revert He; unfold resume, of_start.
      destruct (nth_error (pending s) i) as [[]|]; auto.
      destruct r; simpl; intros He; try discriminate; contradiction.
    + left; split; [reflexivity|].
      revert He; unfold on_exit.
      destruct (state s) eqn:Es; simpl; rewrite ?Es; congruence.
Qed.

Lemma service_state_machine_witness :
  state (on_exit (Some 1) running_service) = ERROR /\
  start example_config running_service = running_service.
Proof.
  split.
  - apply (service_state_machine example_config running_service (Some 1));
      reflexivity.
  - apply (service_state_machine example_config running_service (Some 1)).
    vm_compute; discriminate.
Defined.

End ServiceClaims.

(* ------------------------------------------------------------------ *)
(** ** The orchestrator's stop sequence                                 *)
(* ------------------------------------------------------------------ *)

Section OrchestratorClaims.

Import DevSyncOrchestrator.

Lemma stop_guarded c o : guarded o -> guarded (stop c o).
Proof.
  destruct o as [f se sv cw pd tr rj ex]; unfold guarded, stop; simpl.
  intros [->|[-> [x ->]]].
  - destruct f, se, c; simpl; eauto.
  - destruct c; simpl; eauto.
Qed.

Lemma resume_guarded i rs r o : guarded o -> guarded (resume i rs r o).
Proof.
  destruct o as [f se sv cw pd tr rj ex]; unfold guarded, resume; simpl.
  intros [->|[-> [x ->]]].
  - destruct i; simpl; auto.
  - destruct i as [|[|i]]; simpl; eauto.
    destruct x as [[] c], r, cw, c; simpl; eauto.
Qed.

Lemma run_guarded l o : guarded o -> guarded (run l o).
Proof.
  revert o; induction l as [|a l IH]; intros o H; simpl; auto.
  apply IH; unfold step.
  destruct (exited o); auto.
  destruct a; [apply stop_guarded|apply resume_guarded]; exact H.
Qed.

Lemma guarded_once o : guarded o -> (in_progress o <= 1)%nat.
Proof.
  unfold in_progress; intros [Hp|[_ [x Hp]]]; rewrite Hp; simpl; lia.
Qed.

Lemma occurrences_app op l t :
  occurrences op (l ++ t) = (occurrences op l + occurrences op t)%nat.
Proof. unfold occurrences; now rewrite filter_app, length_app. Qed.

(** Calls of [stop] that arrive while the flag is set add nothing to
    what is done. *)
Lemma overlapping_calls_add_nothing cs o :
  isShuttingDown o = true ->
  trace (run (map Call cs) o) = trace o /\
  pending (run (map Call cs) o) = pending o /\
  isShuttingDown (run (map Call cs) o) = true.
Proof.
  revert o; induction cs as [|c cs IH]; intros o H; simpl; auto.
  assert (Hs : trace (step (Call c) o) = trace o /\
               pending (step (Call c) o) = pending o /\
               isShuttingDown (step (Call c) o) = true).
  { unfold step, stop; rewrite H.
    destruct (exited o); [auto|destruct c; simpl; auto]. }
  destruct Hs as (H1 & H2 & H3).
  destruct (IH _ H3) as (I1 & I2 & I3).
  rewrite I1, I2, I3; auto.
Qed.

(** The same guard in [ShutdownManager.shutdown]. *)
Lemma shutdown_guarded tg opt m :
  ShutdownManager.guarded m ->
  ShutdownManager.guarded (ShutdownManager.shutdown tg opt m).
Proof.
  destruct m as [f h pd tr rj ex];
    unfold ShutdownManager.guarded, ShutdownManager.shutdown; simpl.
  intros [->|[-> [x ->]]].
  - destruct f; simpl; eauto.
    destruct (ShutdownManager.syncEngine tg); simpl; eauto.
  - simpl; eauto.
Qed.

Lemma manager_resume_guarded i rs r m :
  ShutdownManager.guarded m ->
  ShutdownManager.guarded (ShutdownManager.resume i rs r m).
Proof.
  destruct m as [f h pd tr rj ex];
    unfold ShutdownManager.guarded, ShutdownManager.resume; simpl.
  intros [->|[-> [x ->]]].
  - destruct i; simpl; auto.
  - destruct i as [|[|i]]; simpl; eauto.
    destruct x as [w [se sv cw ul] [keep ex']]; simpl.
    unfold ShutdownManager.try_resume, ShutdownManager.unlink_packages,
      ShutdownManager.run_handler, ShutdownManager.close_watcher,
      ShutdownManager.complete.
    destruct w, r; simpl;
      repeat match goal with
             | |- context [if ?b then _ else _] => destruct b; simpl
             end; eauto.
Qed.

Lemma manager_run_guarded l m :
  ShutdownManager.guarded m ->
  ShutdownManager.guarded (ShutdownManager.run l m).
Proof.
  revert m; induction l as [|a l IH]; intros m H; simpl; auto.
  apply IH; unfold ShutdownManager.step.
  destruct (ShutdownManager.exited m); auto.
  destruct a; [apply shutdown_guarded|apply manager_resume_guarded]; exact H.
Qed.

(** Nothing runs once [process.exit] was called. *)
Lemma exited_is_final l o code : exited o = Some code -> run l o = o.
Proof.
  intros H; induction l as [|a l IH]; [reflexivity|].
  change (run (a :: l) o) with (run l (step a o)).
  assert (Hs : step a o = o) by (unfold step; now rewrite H).
  now rewrite Hs.
Qed.

(** The guard of [stop], on the steps carried out and the executions
    in progress: a call of [stop] that finds the flag set carries out
    no step and starts no second execution.  So in every run at most
    one execution of the sequence is in progress, and any number of
    calls that overlap a first one leave the sequence begun exactly
    once.  The first call asks every service to stop before anything
    is awaited, and however these stops settle - any of them may
    reject - the sequence goes on to [killAll].  The same holds of
    [ShutdownManager.shutdown], to which the later orchestrator
    delegates.  What the caller does after such a call of [stop] is
    not part of this statement. *)
Theorem stop_sequence_runs_once
  (names : list string) (c : Caller) (cs : list Caller)
  (l : list Action) (rs : list (Settled unit)) (r : Settled unit) :
  (forall o, isShuttingDown o = true ->
             trace (stop c o) = trace o /\ pending (stop c o) = pending o) /\
  (in_progress (run l (started names)) <= 1)%nat /\
  occurrences Begin (trace (run (Call c :: map Call cs) (started names)))
  = 1%nat /\
  (forall n, In n names ->
             In (StopService n) (trace (stop c (started names)))) /\
  In KillAll (trace (resume 0 rs r (stop c (started names)))) /\
  pending (resume 0 rs r (stop c (started names))) = [(killAll, c)] /\
  (forall tg opt m,
     ShutdownManager.isShuttingDown m = true ->
     ShutdownManager.shutdown tg opt m
     = ShutdownManager.log [ShutdownManager.Refused] m) /\
  (forall handlers acts,
     (ShutdownManager.in_progress
        (ShutdownManager.run acts (ShutdownManager.init handlers)) <= 1)%nat) /\
  (forall tg opt handlers n,
     In n (ShutdownManager.services tg) ->
     In (ShutdownManager.StopService n)
       (ShutdownManager.trace
          (ShutdownManager.shutdown tg opt (ShutdownManager.init handlers)))) /\
  (forall tg opt handlers,
     In ShutdownManager.KillAll
       (ShutdownManager.trace
          (ShutdownManager.resume 0 rs r
             (ShutdownManager.shutdown tg opt
                (ShutdownManager.init handlers))))).
Proof.
  repeat match goal with |- _ /\ _ => split end.
  - intros o H; unfold stop; rewrite H; destruct c; auto.
  - apply guarded_once, run_guarded; left; reflexivity.
  - change (run (Call c :: map Call cs) (started names))
      with (run (map Call cs) (stop c (started names))).
    destruct (overlapping_calls_add_nothing cs (stop c (started names))
                eq_refl) as (H & _).
    rewrite H; cbn.
    f_equal; clear; induction names; simpl; auto.
  - intros n Hn; cbn.
    right; right; now apply in_map.
  - cbn.
    rewrite <- !app_assoc; simpl.
    right; right; apply in_or_app; right.
    apply in_or_app; right; simpl; auto.
  - reflexivity.
  - intros tg opt m H; unfold ShutdownManager.shutdown; now rewrite H.
  - intros handlers acts.
    destruct (manager_run_guarded acts (ShutdownManager.init handlers))
      as [Hp|[_ [t Hp]]]; [left; reflexivity| |];
      unfold ShutdownManager.in_progress; rewrite Hp; simpl; lia.
  - intros [se sv cw ul] opt handlers n Hn; simpl in Hn.
    destruct se; cbn; repeat right; now apply in_map.
  - intros [se sv cw ul] opt handlers.
    destruct se; cbn; rewrite ?in_app_iff; simpl; auto 10.
Qed.

Lemma stop_sequence_runs_once_witness :
  trace (stop shutdown (stop shutdown (started ["backend"; "client"]%string)))
  = trace (stop shutdown (started ["backend"; "client"]%string)) /\
  In (StopService "client")
    (trace (stop shutdown (started ["backend"; "client"]%string))).
Proof.
  split.
  - apply (stop_sequence_runs_once ["backend"; "client"]%string shutdown []
             [] [] (Resolved tt)); reflexivity.
  - apply (stop_sequence_runs_once ["backend"; "client"]%string shutdown []
             [] [] (Resolved tt)); simpl; auto.
Defined.

(** The calls of the services' [stop] are no other step. *)
Lemma no_step_among_stops (op : Op) names :
  (forall n, op <> StopService n) -> ~ In op (map StopService names).
Proof.
  intros H Hin; apply in_map_iff in Hin.
  destruct Hin as (n & Hn & _); exact (H n (eq_sym Hn)).
Qed.

Lemma stops_begin_nothing sv :
  filter ShutdownManager.is_begin (map ShutdownManager.StopService sv) = [].
Proof. induction sv; simpl; auto. Qed.

Lemma caught_begins_nothing sv : forall rs,
  filter ShutdownManager.is_begin (ShutdownManager.caught sv rs) = [].
Proof.
  induction sv as [|n sv IH]; intros [|[|] rs]; simpl; auto.
Qed.

(** C8.  In [orchestrator.ts] an overlapping [shutdown()] is not
    absorbed.  [shutdown] is [await this.stop(); process.exit(0)],
    lines 231-234: when a second [shutdown()] arrives while the first
    one's stop sequence is in progress, its [stop()] returns at once at
    the guard of line 240 and [process.exit(0)] follows.  The process
    ends with the first sequence suspended at its first await: the
    sync engine and the services were asked to stop, but [killAll],
    [unlinkPackages], the close of the configuration watcher and the
    end of [stop] are never reached, whatever happens afterwards.  The
    same first call left alone carries the sequence to its end,
    whichever stops reject, and only then exits.  In
    [ShutdownManager.shutdown] the overlapping call is refused with a
    warning and returns without ending the process: the sequence has
    begun once and goes on to [killAll]. *)
Theorem overlapping_shutdown_ends_the_process
  (names : list string) (l : list Action) (rs : list (Settled unit)) :
  let o := run (Call shutdown :: Call shutdown :: l) (started names) in
  let alone :=
    run [Call shutdown; Settle 0 rs (Resolved tt); Settle 0 [] (Resolved tt);
         Settle 0 [] (Resolved tt); Settle 0 [] (Resolved tt)]
      (started names) in
  (exited o = Some 0 /\
   trace o = Begin :: StopSyncEngine :: map StopService names /\
   pending o = [(stopPromises, shutdown)] /\
   ~ In KillAll (trace o) /\
   ~ In UnlinkPackages (trace o) /\
   ~ In CloseConfigWatcher (trace o) /\
   ~ In ShutdownComplete (trace o)) /\
  (trace alone
   = Begin :: StopSyncEngine :: map StopService names
     ++ caught names rs
     ++ [KillAll; UnlinkPackages; CloseConfigWatcher; ShutdownComplete] /\
   pending alone = [] /\
   exited alone = Some 0) /\
  (forall tg opt handlers,
     let m :=
       ShutdownManager.run
         [ShutdownManager.Call tg opt; ShutdownManager.Call tg opt;
          ShutdownManager.Settle 0 rs (Resolved tt)]
         (ShutdownManager.init handlers) in
     ShutdownManager.exited m = None /\
     In ShutdownManager.Refused (ShutdownManager.trace m) /\
     List.length (filter ShutdownManager.is_begin (ShutdownManager.trace m))
     = 1%nat /\
     In ShutdownManager.KillAll (ShutdownManager.trace m) /\
     ShutdownManager.pending m
     = [{| ShutdownManager.waits_for := ShutdownManager.killAll;
           ShutdownManager.targets := tg;
           ShutdownManager.options := opt |}]).
Proof.
  intros o alone.
  assert (Ho : o = step (Call shutdown)
                     (step (Call shutdown) (started names))).
  { subst o.
    change (run (Call shutdown :: Call shutdown :: l) (started names))
      with (run l (step (Call shutdown)
                     (step (Call shutdown) (started names)))).
    apply exited_is_final with (code := 0); reflexivity. }
  assert (Ht : trace o = Begin :: StopSyncEngine :: map StopService names)
    by (rewrite Ho; reflexivity).
  split; [|split].
  - split; [rewrite Ho; reflexivity|].
    split; [exact Ht|].
    split; [rewrite Ho; reflexivity|].
    rewrite Ht.
    repeat split; intros [H|[H|H]]; try discriminate H;
      revert H; apply no_step_among_stops; discriminate.
  - subst alone; cbn.
    rewrite <- !app_assoc; auto.
  - intros [se sv cw ul] opt handlers m; subst m.
    destruct se; cbn.
    + repeat split; rewrite ?in_app_iff; simpl; auto 10.
      rewrite !filter_app, stops_begin_nothing, caught_begins_nothing.
      reflexivity.
    + repeat split; rewrite ?in_app_iff; simpl; auto 10.
      rewrite !filter_app, stops_begin_nothing, caught_begins_nothing.
      reflexivity.
Qed.

Lemma overlapping_shutdown_ends_the_process_witness :
  exited (run [Call shutdown; Call shutdown]
            (started ["backend"; "client"]%string)) = Some 0 /\
  trace (run [Call shutdown; Call shutdown]
           (started ["backend"; "client"]%string))
  = [Begin; StopSyncEngine; StopService "backend"; StopService "client"] /\
  pending (run [Call shutdown; Call shutdown]
             (started ["backend"; "client"]%string))
  = [(stopPromises, shutdown)].
Proof.
  pose proof (overlapping_shutdown_ends_the_process
                ["backend"; "client"]%string [] []) as H.
  destruct H as ((H1 & H2 & H3 & _) & _).
  split; [exact H1|split; [exact H2|exact H3]].
Defined.

End OrchestratorClaims.

(* ------------------------------------------------------------------ *)
(** ** The change detector                                              *)
(* ------------------------------------------------------------------ *)

Section ChangeDetectorFacts.

Import SwaggerChangeDetector.

Lemma leb_trans a b c :
  String.leb a b = true -> String.leb b c = true -> String.leb a c = true.
Proof.
  unfold String.leb.
  destruct (String.compare a b) eqn:Eab; try discriminate;
    destruct (String.compare b c) eqn:Ebc; try discriminate; intros _ _.
  - apply String.compare_eq_iff in Eab, Ebc; subst.
    pose proof (proj2 (String_as_OT.cmp_eq c c) eq_refl) as H.
    unfold String_as_OT.cmp in H; now rewrite H.
  - apply String.compare_eq_iff in Eab; subst; now rewrite Ebc.
  - apply String.compare_eq_iff in Ebc; subst; now rewrite Eab.
  - apply String_as_OT.cmp_lt in Eab, Ebc.
    pose proof (String_as_OT.lt_trans _ _ _ Eab Ebc) as H.
    apply String_as_OT.cmp_lt in H.
    unfold String_as_OT.cmp in H; now rewrite H.
Qed.

Lemma leb_false a b : String.leb a b = false -> String.leb b a = true.
Proof.
  intros H; destruct (String.leb_total a b) as [H'|H']; congruence.
Qed.

(** Contradictions among comparisons of keys. *)
Ltac key_order :=
  repeat match goal with
         | H : String.leb ?a ?b = false |- _ =>
             lazymatch goal with
             | _ : String.leb b a = true |- _ => fail
             | _ => pose proof (leb_false a b H)
             end
         end;
  repeat match goal with
         | H1 : String.leb ?a ?b = true, H2 : String.leb ?b ?c = true |- _ =>
             lazymatch goal with
             | _ : String.leb a c = true |- _ => fail
             | _ => pose proof (leb_trans a b c H1 H2)
             end
         end;
  match goal with
  | H1 : String.leb ?a ?b = true, H2 : String.leb ?a ?b = false |- _ =>
      congruence
  | H1 : String.leb ?a ?b = true, H2 : String.leb ?b ?a = true,
    Hne : ?a <> ?b |- _ => exact (Hne (String.leb_antisym a b H1 H2))
  | H1 : String.leb ?a ?b = true, H2 : String.leb ?b ?a = true,
    Hne : ?b <> ?a |- _ => exact (Hne (String.leb_antisym b a H2 H1))
  end.

Lemma insert_comm {A : Type} (x y : string * A) (l : list (string * A)) :
  fst x <> fst y -> insert x (insert y l) = insert y (insert x l).
Proof.
  destruct x as [kx vx], y as [ky vy]; simpl; intros Hne.
  induction l as [|[kh vh] t IH]; simpl.
  - destruct (String.leb kx ky) eqn:E1, (String.leb ky kx) eqn:E2;
      simpl; auto; exfalso; key_order.
  - destruct (String.leb ky kh) eqn:E1, (String.leb kx kh) eqn:E2; simpl;
      destruct (String.leb kx ky) eqn:E3, (String.leb ky kx) eqn:E4;
      simpl; rewrite ?E1, ?E2; auto;
      try (exfalso; key_order); now rewrite IH.
Qed.

Lemma sort_members_permutation {A : Type} (l1 l2 : list (string * A)) :
  Permutation l1 l2 -> NoDup (map fst l1) ->
  sort_members l1 = sort_members l2.
Proof.
  induction 1 as [|x l l' Hp IH|x y l|l l' l'' Hp1 IH1 Hp2 IH2];
    intros Hnd; simpl in *.
  - reflexivity.
  - inversion_clear Hnd; now rewrite IH.
  - inversion_clear Hnd as [|? ? Hy Hnd'].
    apply insert_comm; intros Heq; apply Hy; left; auto.
  - rewrite IH1 by assumption; apply IH2.
    eapply Permutation_NoDup; [|exact Hnd].
    now apply Permutation_map.
Qed.

Lemma distinct_NoDup l : distinct l = true -> NoDup l.
Proof.
  induction l as [|k t IH]; simpl; intros H; constructor;
    apply andb_prop in H as [Hk Ht]; auto.
  intros Hin; apply negb_true_iff in Hk.
  assert (existsb (String.eqb k) t = true); [|congruence].
  apply existsb_exists; exists k; split; [exact Hin|apply String.eqb_refl].
Qed.

Scheme same_min := Minimality for same Sort Prop
  with same_items_min := Minimality for same_items Sort Prop
  with same_members_min := Minimality for same_members Sort Prop.

Combined Scheme same_mutual from same_min, same_items_min, same_members_min.

Lemma same_normalize :
  (forall d1 d2, same d1 d2 ->
     unique_keys d1 = true -> normalize d1 = normalize d2) /\
  (forall l1 l2, same_items l1 l2 ->
     forallb unique_keys l1 = true -> map normalize l1 = map normalize l2) /\
  (forall m1 m2, same_members m1 m2 ->
     forallb (fun kv => unique_keys (snd kv)) m1 = true ->
     map normalize_member m1 = map normalize_member m2).
Proof.
  apply same_mutual; simpl; auto.
  - intros l1 l2 _ IH Hu; f_equal; auto.
  - intros m1 m m2 _ IH Hp Hu.
    apply andb_prop in Hu as [Hd Hu].
    change (fun kv : string * Json => (fst kv, normalize (snd kv)))
      with normalize_member.
    f_equal; rewrite (IH Hu).
    apply sort_members_permutation.
    + now apply Permutation_map.
    + rewrite <- (IH Hu), map_map; simpl.
      now apply distinct_NoDup.
  - intros d1 d2 l1 l2 _ IHd _ IHl Hu.
    apply andb_prop in Hu as [Hd Hu].
    now rewrite (IHd Hd), (IHl Hu).
  - intros k d1 d2 m1 m2 _ IHd _ IHm Hu.
    apply andb_prop in Hu as [Hd Hu].
    unfold normalize_member at 1 3; simpl.
    now rewrite (IHd Hd), (IHm Hu).
Qed.

End ChangeDetectorFacts.

Section ChangeDetectorClaims.

Import SwaggerChangeDetector.

Variable hash : Json -> string.

Lemma baseline_established d det :
  currentHash (snd (hasSignificantChanges hash d det))
  = Some (signature hash d).
Proof.
  unfold hasSignificantChanges.
  destruct (currentHash det) as [old|] eqn:E; [|reflexivity].
  destruct (String.eqb_spec old (signature hash d)); simpl; congruence.
Qed.

(** C7.  Two documents that are structurally identical and differ
    only in the order of the keys of their objects have the same
    normal form and so the same signature; once a call of
    [hasSignificantChanges] on the first has set the baseline,
    whatever the detector held before, the call on the second answers
    false and keeps the baseline.  The signature is a function of the
    normal form alone: documents with the same normal form have the
    same signature. *)
Theorem key_order_is_not_a_change (d1 d2 : Json) (det : Detector) :
  same d1 d2 -> unique_keys d1 = true ->
  normalize d1 = normalize d2 /\
  signature hash d1 = signature hash d2 /\
  hasSignificantChanges hash d2 (snd (hasSignificantChanges hash d1 det))
  = (false, snd (hasSignificantChanges hash d1 det)) /\
  fst (hasSignificantChanges hash d1 init) = true /\
  (forall d d', normalize d = normalize d' ->
                signature hash d = signature hash d').
Proof.
  intros Hs Hu.
  pose proof (proj1 same_normalize d1 d2 Hs Hu) as Hn.
  assert (Hsig : signature hash d1 = signature hash d2)
    by (unfold signature; now rewrite Hn).
  repeat match goal with |- _ /\ _ => split end; auto.
  - pose proof (baseline_established d1 det) as Hb.
    unfold hasSignificantChanges at 1; rewrite Hb, <- Hsig.
    now rewrite String.eqb_refl.
  - intros d d' H; unfold signature; now rewrite H.
Qed.

End ChangeDetectorClaims.

Lemma petstore_same :
SwaggerChangeDetector.same SwaggerChangeDetector.petstore
  SwaggerChangeDetector.petstore_reordered.
Proof.
unfold SwaggerChangeDetector.petstore,
  SwaggerChangeDetector.petstore_reordered.
eapply SwaggerChangeDetector.same_object.
- apply SwaggerChangeDetector.same_members_cons.
  + eapply SwaggerChangeDetector.same_object.
    * repeat constructor.
    * apply perm_swap.
  + repeat constructor.
- apply perm_swap.
Qed.

Lemma key_order_is_not_a_change_witness :
SwaggerChangeDetector.signature SwaggerChangeDetector.stringify
  SwaggerChangeDetector.petstore
= SwaggerChangeDetector.signature SwaggerChangeDetector.stringify
    SwaggerChangeDetector.petstore_reordered.
Proof.
exact (proj1 (proj2
         (key_order_is_not_a_change SwaggerChangeDetector.stringify
            SwaggerChangeDetector.petstore
            SwaggerChangeDetector.petstore_reordered
            SwaggerChangeDetector.init petstore_same eq_refl))).
Defined.

(* ------------------------------------------------------------------ *)
(** ** The port queries                                                 *)
(* ------------------------------------------------------------------ *)

Section PortQueriesFacts.

Import PortQueries.

Lemma push_new_NoDup pids pid : NoDup pids -> NoDup (push_new pids pid).
Proof.
  intros H; unfold push_new.
  destruct (existsb (String.eqb pid) pids) eqn:E; [exact H|].
  apply NoDup_app; [exact H| |].
  - constructor; [intros []|constructor].
  - intros x Hx [Heq|[]]; subst x.
    assert (existsb (String.eqb pid) pids = true); [|congruence].
    apply existsb_exists; exists pid; split; [exact Hx|apply String.eqb_refl].
Qed.

Lemma push_new_In pids pid x :
  In x (push_new pids pid) <-> In x pids \/ x = pid.
Proof.
  unfold push_new.
  destruct (existsb (String.eqb pid) pids) eqn:E.
  - apply existsb_exists in E as (y & Hy & Heq).
    apply String.eqb_eq in Heq; subst y.
    split; [auto|intros [H | ->]; auto].
  - rewrite in_app_iff; simpl; intuition.
Qed.

Lemma push_all_NoDup l pids :
  NoDup pids -> NoDup (fold_left push_new l pids).
Proof.
  revert pids; induction l as [|x l IH]; intros pids H; simpl; auto.
  apply IH, push_new_NoDup, H.
Qed.

Lemma push_all_In l pids x :
  In x (fold_left push_new l pids) <-> In x pids \/ In x l.
Proof.
  revert pids; induction l as [|y l IH]; intros pids; simpl.
  - tauto.
  - rewrite IH, push_new_In; intuition.
Qed.

Lemma found_pids_valid stdout pid :
  In pid (found_pids stdout) -> Js.is_pid pid = true.
Proof. unfold found_pids; intros H; now apply filter_In in H. Qed.

(** What the scan of the [lsof] outputs keeps, from any start. *)
Lemma scan_unix_from outs : forall pids,
  NoDup pids -> Forall (fun p => Js.is_pid p = true) pids ->
  let res :=
    fold_left
      (fun pids out =>
         match out with
         | Resolved stdout => fold_left push_new (found_pids stdout) pids
         | Rejected _ => pids
         end) outs pids in
  NoDup res /\ Forall (fun p => Js.is_pid p = true) res /\
  (forall x, In x res <->
             In x pids \/
             exists stdout, In (Resolved stdout) outs /\
                            In x (found_pids stdout)).
Proof.
  induction outs as [|[stdout|err] outs IH]; intros pids Hnd Hv; simpl.
  - repeat split; auto.
    intros [H|(s & [] & _)]; exact H.
  - destruct (IH (fold_left push_new (found_pids stdout) pids))
      as (H1 & H2 & H3).
    + now apply push_all_NoDup.
    + apply Forall_forall; intros x Hx.
      apply push_all_In in Hx as [Hx|Hx].
      * revert x Hx; now apply Forall_forall.
      * now apply found_pids_valid in Hx.
    + repeat split; auto.
      * intros Hx; apply H3 in Hx as [Hx|(s & Hs & Hx)].
        -- apply push_all_In in Hx as [Hx|Hx]; eauto.
        -- eauto.
      * intros [Hx|(s & [Hs|Hs] & Hx)]; apply H3.
        -- left; apply push_all_In; auto.
        -- injection Hs as <-; left; apply push_all_In; auto.
        -- eauto.
  - destruct (IH pids Hnd Hv) as (H1 & H2 & H3).
    repeat split; auto.
    + intros Hx; apply H3 in Hx as [Hx|(s & Hs & Hx)]; eauto.
    + intros [Hx|(s & [Hs|Hs] & Hx)]; apply H3; eauto; discriminate.
Qed.

Lemma scan_windows_from lines : forall pids,
  NoDup pids ->
  Forall (fun p => Js.is_pid p = true /\ p <> "0"%string) pids ->
  let res :=
    fold_left
      (fun pids line =>
         let pid := Js.last_field (Js.trim line) in
         if Js.is_pid pid && negb (String.eqb pid "0") then push_new pids pid
         else pids) lines pids in
  NoDup res /\ Forall (fun p => Js.is_pid p = true /\ p <> "0"%string) res.
Proof.
  induction lines as [|line lines IH]; intros pids Hnd Hv; simpl; auto.
  destruct (Js.is_pid (Js.last_field (Js.trim line))
            && negb (String.eqb (Js.last_field (Js.trim line)) "0")) eqn:E;
    [|now apply IH].
  apply andb_prop in E as [E1 E2].
  apply negb_true_iff, String.eqb_neq in E2.
  apply IH.
  - now apply push_new_NoDup.
  - apply Forall_forall; intros x Hx.
    apply push_new_In in Hx as [Hx | ->]; auto.
    revert x Hx; now apply Forall_forall.
Qed.

(** X1.  [getProcessesUsingPort] never reports a process twice, and
    everything it reports is a non-empty string of decimal digits, on
    every platform and whatever the commands print or however they
    fail; on Windows the process id 0 is left out.  On macOS and Linux
    it reports exactly the valid lines of the [lsof] commands that
    worked. *)
Theorem getProcessesUsingPort_reports_each_pid_once
  (platform : Platform) (lsofs : list (Settled string))
  (netstat : Settled string) :
  let pids := getProcessesUsingPort platform lsofs netstat in
  NoDup pids /\
  Forall (fun p => Js.is_pid p = true) pids /\
  (platform = win32 -> ~ In "0"%string pids) /\
  (platform = darwin \/ platform = linux ->
   forall x, In x pids <->
             exists stdout, In (Resolved stdout) lsofs /\
                            In x (found_pids stdout)).
Proof.
  assert (Hu := scan_unix_from lsofs [] (NoDup_nil _) (Forall_nil _)).
  destruct Hu as (U1 & U2 & U3).
  assert (Hunix : forall x, In x (scan_unix lsofs) <->
                    exists stdout, In (Resolved stdout) lsofs /\
                                   In x (found_pids stdout)).
  { intros x; unfold scan_unix; rewrite U3; simpl; tauto. }
  destruct platform; simpl;
    repeat match goal with |- _ /\ _ => split end;
    auto; try discriminate;
    try (intros [H|H]; discriminate H).
  - destruct netstat as [stdout|err]; [|constructor].
    apply (scan_windows_from (Js.split Js.newline (Js.trim stdout)) []
             (NoDup_nil _) (Forall_nil _)).
  - destruct netstat as [stdout|err]; [|constructor].
    destruct (scan_windows_from
                (Js.split Js.newline (Js.trim stdout)) []
                (NoDup_nil _) (Forall_nil _)) as (_ & W2).
    eapply Forall_impl; [|exact W2]; simpl; tauto.
  - intros _ Hin.
    destruct netstat as [stdout|err]; [|exact Hin].
    destruct (scan_windows_from
                (Js.split Js.newline (Js.trim stdout)) []
                (NoDup_nil _) (Forall_nil _)) as (_ & W2).
    rewrite Forall_forall in W2.
    now destruct (W2 _ Hin).
  - constructor.
Qed.

Lemma getProcessesUsingPort_reports_each_pid_once_witness :
  In "4242"%string
    (getProcessesUsingPort linux
       [Resolved "4242"%string; Rejected (JsError "lsof failed");
        Resolved "4242"%string] (Rejected (JsError "unused")))
  <-> exists stdout,
        In (Resolved stdout)
          [Resolved "4242"%string; Rejected (JsError "lsof failed");
           Resolved "4242"%string]
        /\ In "4242"%string (found_pids stdout).
Proof.
  apply (proj2 (proj2 (proj2
           (getProcessesUsingPort_reports_each_pid_once linux
              [Resolved "4242"%string; Rejected (JsError "lsof failed");
               Resolved "4242"%string] (Rejected (JsError "unused")))))).
  right; reflexivity.
Defined.

Lemma seq_ports {A : Type} (g : Z -> A) (port : Z) (k : nat) :
  map (fun i => g (port + Z.of_nat i)) (seq 0 (S k))
  = g port :: map (fun i => g (port + 1 + Z.of_nat i)) (seq 0 k).
Proof.
  cbn [seq map]; rewrite Z.add_0_r; f_equal.
  rewrite <- seq_shift, map_map.
  apply map_ext; intros i; f_equal; lia.
Qed.

Lemma probe_spec {W : Type} (sys : PortManager.System W) left :
  forall port r,
    match probe sys left port r with
    | (Some p, (_, t)) =>
        exists k, (k < left)%nat /\ p = port + Z.of_nat k /\
          t = snd r
              ++ map (fun i => PortManager.OpIsPortInUse (port + Z.of_nat i) true)
                   (seq 0 k)
              ++ [PortManager.OpIsPortInUse p false]
    | (None, (_, t)) =>
        t = snd r
            ++ map (fun i => PortManager.OpIsPortInUse (port + Z.of_nat i) true)
                 (seq 0 left)
    end.
Proof.
  induction left as [|left IH]; intros port r.
  - destruct r; simpl; now rewrite app_nil_r.
  - cbn [probe].
    destruct (PortManager.isPortInUse sys port (fst r)) as [inUse w].
    destruct inUse; cbn [negb].
    + specialize (IH (port + 1)
                    (w, snd r ++ [PortManager.OpIsPortInUse port true])).
      destruct (probe sys left (port + 1)
                  (w, snd r ++ [PortManager.OpIsPortInUse port true]))
        as [[p|] [w' t]]; cbn [snd] in IH.
      * destruct IH as (k & Hk & Hp & Ht).
        exists (S k); split; [lia|]; split; [lia|].
        rewrite Ht, <- app_assoc.
        rewrite (seq_ports (fun q => PortManager.OpIsPortInUse q true)).
        reflexivity.
      * rewrite IH, <- app_assoc.
        rewrite (seq_ports (fun q => PortManager.OpIsPortInUse q true)).
        reflexivity.
    + exists O; split; [lia|]; split; [simpl; lia|reflexivity].
Qed.

(** X2.  [findAvailablePort] checks the ports [startPort],
    [startPort + 1], ... in this order and returns the first one it
    finds not in use: every port before it was found in use, and it
    lies less than [maxAttempts] above [startPort].  It throws exactly
    when all [maxAttempts] ports were found in use, having checked each
    once; with [maxAttempts = 0] it throws without a check. *)
Theorem findAvailablePort_returns_first_free
  {W : Type} (sys : PortManager.System W)
  (startPort : Z) (maxAttempts : nat) (w : W) :
  match findAvailablePort sys startPort maxAttempts w with
  | (Resolved port, (_, t)) =>
      exists k, (k < maxAttempts)%nat /\ port = startPort + Z.of_nat k /\
        checks t
        = map (fun i => (startPort + Z.of_nat i, true)) (seq 0 k)
          ++ [(port, false)]
  | (Rejected _, (_, t)) =>
      checks t
      = map (fun i => (startPort + Z.of_nat i, true)) (seq 0 maxAttempts)
  end.
Proof.
  unfold findAvailablePort.
  pose proof (probe_spec sys maxAttempts startPort (w, [])) as H.
  destruct (probe sys maxAttempts startPort (w, [])) as [[p|] [w' t]];
    simpl in H.
  - destruct H as (k & Hk & Hp & Ht).
    exists k; split; [exact Hk|]; split; [exact Hp|].
    rewrite Ht; clear.
    induction (seq 0 k) as [|i l IH]; simpl; [reflexivity|now rewrite IH].
  - rewrite H; clear.
    induction (seq 0 maxAttempts) as [|i l IH]; simpl;
      [reflexivity|now rewrite IH].
Qed.

End PortQueriesFacts.


Section PortProbeFacts.

Import PortManager.

Lemma freePort_not_in_use {W : Type} (sys : System W) (port : Z) (w w1 : W) :
  isPortInUse sys port w = (false, w1) ->
  freePort sys port w = (Resolved tt, (w1, [OpIsPortInUse port false])).
Proof. intros H; unfold freePort; rewrite H; reflexivity. Qed.

Lemma freePort_no_pids {W : Type} (sys : System W) (port : Z) (w w1 w2 : W) :
  isPortInUse sys port w = (true, w1) ->
  getProcessesUsingPort sys port w1 = ([], w2) ->
  freePort sys port w
  = (Rejected (JsError (PortProbe.unidentified port)),
     (w2, [OpIsPortInUse port true; OpGetProcessesUsingPort port []])).
Proof.
  intros H1 H2; unfold freePort; rewrite H1; cbn [negb fst snd].
  rewrite H2; cbn [List.length Z.of_nat Z.eqb app].
  reflexivity.
Qed.

(** X3.  When the state of a port cannot be determined - the command
    of the platform fails and [detectPort] fails too - [isPortInUse]
    answers false, and [freePort] therefore takes the port for free: it
    returns normally without a kill or a wait, on every platform. *)
Theorem undetectable_port_is_taken_for_free
  {W : Type} (platform : PortQueries.Platform) (cmds : PortProbe.Commands W)
  (base : System W) (port : Z) (w : W) :
  (exists e, PortProbe.lsof cmds port w = Rejected e) ->
  (exists e, PortProbe.netstat cmds port w = Rejected e) ->
  (exists e, PortProbe.detectPort cmds port w = Rejected e) ->
  PortQueries.isPortInUse platform port (PortProbe.lsof cmds port w)
    (PortProbe.netstat cmds port w) (PortProbe.detectPort cmds port w)
  = false /\
  freePort (PortProbe.system platform cmds base) port w
  = (Resolved tt, (w, [OpIsPortInUse port false])).
Proof.
  intros [e1 H1] [e2 H2] [e3 H3].
  assert (H : PortQueries.isPortInUse platform port (PortProbe.lsof cmds port w)
    (PortProbe.netstat cmds port w) (PortProbe.detectPort cmds port w)
  = false) by (rewrite H1, H2, H3; now destruct platform).
  split; [exact H|].
  apply freePort_not_in_use.
  cbn [isPortInUse PortProbe.system]; now rewrite H.
Qed.

Lemma undetectable_port_is_taken_for_free_witness :
  freePort (PortProbe.system PortQueries.linux PortProbe.broken
              (stubborn ["4242"%string] false)) 4000 O
  = (Resolved tt, (O, [OpIsPortInUse 4000 false])).
Proof.
  apply (undetectable_port_is_taken_for_free PortQueries.linux
           PortProbe.broken (stubborn ["4242"%string] false) 4000 O);
    eexists; reflexivity.
Defined.

(** X4.  On a platform other than macOS, Linux and Windows
    [getProcessesUsingPort] finds no process, so a port that
    [detectPort] reports as taken cannot be freed there: [freePort]
    throws that it could not identify the process, having killed
    nothing and waited for nothing. *)
Theorem freePort_cannot_free_on_other_platforms
  {W : Type} (cmds : PortProbe.Commands W) (base : System W)
  (port other : Z) (w : W) :
  PortProbe.detectPort cmds port w = Resolved other -> other <> port ->
  freePort (PortProbe.system PortQueries.other_platform cmds base) port w
  = (Rejected (JsError (PortProbe.unidentified port)),
     (w, [OpIsPortInUse port true; OpGetProcessesUsingPort port []])).
Proof.
  intros Hd Hne.
  apply freePort_no_pids with (w1 := w); [|reflexivity].
  cbn [isPortInUse PortProbe.system PortQueries.isPortInUse]; rewrite Hd.
  apply Z.eqb_neq in Hne; now rewrite Hne.
Qed.

Lemma freePort_cannot_free_on_other_platforms_witness :
  freePort (PortProbe.system PortQueries.other_platform PortProbe.taken
              (stubborn ["4242"%string] false)) 4000 O
  = (Rejected
       (JsError "Port 4000 is in use but could not identify the process"),
     (O, [OpIsPortInUse 4000 true; OpGetProcessesUsingPort 4000 []])).
Proof.
  apply (freePort_cannot_free_on_other_platforms PortProbe.taken
           (stubborn ["4242"%string] false) 4000 4001 O);
    [reflexivity|discriminate].
Defined.

Lemma polls_app port n t :
  PortProbe.polls port (S n) ++ t
  = OpIsPortInUse port false :: OpWait Services.checkInterval
    :: PortProbe.polls port n ++ t.
Proof. reflexivity. Qed.

Lemma polls_snoc port n :
  PortProbe.polls port n
  ++ [OpIsPortInUse port false; OpWait Services.checkInterval]
  = PortProbe.polls port (S n).
Proof. induction n as [|n IH]; simpl; [reflexivity|now rewrite IH]. Qed.

Lemma poll_spec {W : Type} (sys : System W) k port left :
  forall r,
    match Services.poll sys left k port r with
    | (Resolved _, (_, t)) =>
        exists n, (n < left)%nat /\
          t = snd r ++ PortProbe.polls port n ++ [OpIsPortInUse port true]
    | (Rejected e, (_, t)) =>
        e = Services.not_ready k port /\
        t = snd r ++ PortProbe.polls port left
    end.
Proof.
  induction left as [|left IH]; intros r.
  - destruct r; simpl; split; [reflexivity|now rewrite app_nil_r].
  - cbn [Services.poll].
    destruct (isPortInUse sys port (fst r)) as [isReady w].
    destruct isReady; cbn [fst snd].
    + exists O; split; [lia|reflexivity].
    + match goal with
      | |- context [Services.poll sys left k port ?r'] =>
          specialize (IH r'); destruct (Services.poll sys left k port r')
            as [[u|e] [w' t]]
      end; cbn [snd] in IH.
      * destruct IH as (n & Hn & Ht).
        exists (S n); split; [lia|].
        rewrite Ht, <- !app_assoc; reflexivity.
      * destruct IH as (He & Ht); split; [exact He|].
        rewrite Ht, <- !app_assoc; reflexivity.
Qed.

(** X5.  [waitForReady] of the backend and the frontend service is a
    bounded poll: it checks the port at most 30 times (backend) or 60
    times (frontend), waiting 1000 ms after every check that finds the
    port not yet in use, and does nothing else.  It returns at the
    first check that finds the port in use; it throws exactly when all
    its checks found the port not in use, after the wait that follows
    the last of them.  Without a port (none, or 0) it returns at once. *)
Theorem waitForReady_polls_the_port
  {W : Type} (sys : System W) (k : Services.Kind) (port : option Z) (w : W) :
  k <> Services.ClientService ->
  match Services.waitForReady sys k port w with
  | (Resolved _, (_, t)) =>
      match port with
      | Some p =>
          if p =? 0 then t = []
          else exists n, (n < Services.maxAttempts k)%nat /\
                 t = PortProbe.polls p n ++ [OpIsPortInUse p true]
      | None => t = []
      end
  | (Rejected e, (_, t)) =>
      exists p, port = Some p /\ p <> 0 /\
        e = Services.not_ready k p /\
        t = PortProbe.polls p (Services.maxAttempts k)
  end /\
  Services.maxAttempts Services.BackendService = 30%nat /\
  Services.maxAttempts Services.FrontendService = 60%nat.
Proof.
  intros Hk; split; [|split; reflexivity].
  unfold Services.waitForReady.
  destruct k; try congruence;
    (destruct port as [p|]; [|reflexivity];
     destruct (Z.eqb_spec p 0) as [->|Hp]; [reflexivity|];
     match goal with
     | |- context [Services.poll sys ?l ?k p ?r] =>
         pose proof (poll_spec sys k p l r) as H;
         destruct (Services.poll sys l k p r) as [[u|e] [w' t]]
     end; cbn [snd app] in H;
     [exact H
     |destruct H as (He & Ht); exists p; auto]).
Qed.

Lemma waitForReady_polls_the_port_witness :
  Services.waitForReady (Services.ready_at 2) Services.BackendService
    (Some 4000) O
  = (Resolved tt, (3%nat, PortProbe.polls 4000 2 ++ [OpIsPortInUse 4000 true]))
  /\ match Services.waitForReady (Services.ready_at 2)
             Services.BackendService (Some 4000) O with
     | (Resolved _, (_, t)) =>
         exists n, (n < 30)%nat /\
           t = PortProbe.polls 4000 n ++ [OpIsPortInUse 4000 true]
     | _ => False
     end.
Proof.
  split; [reflexivity|].
  exact (proj1 (waitForReady_polls_the_port (Services.ready_at 2)
                  Services.BackendService (Some 4000) O
                  ltac:(discriminate))).
Defined.

(** X6.  [checkPort] of the backend and the frontend service frees the
    port unless the service's environment sets [OATS_AUTO_KILL_PORTS]
    to exactly the string [false]: with that setting it does not even
    look at the port; with the variable unset, or set to anything else,
    it is [freePort]. *)
Theorem checkPort_frees_unless_disabled
  {W : Type} (sys : System W) (k : Services.Kind) (p : Z)
  (env : option (list (string * string))) (w : W) :
  k <> Services.ClientService -> p <> 0 ->
  (Services.autoKill env = false <->
   exists e, env = Some e /\
             Services.lookup "OATS_AUTO_KILL_PORTS" e = Some "false"%string) /\
  Services.checkPort sys k (Some p) env w
  = if Services.autoKill env then freePort sys p w
    else (Resolved tt, (w, [])).
Proof.
  intros Hk Hp; split.
  - unfold Services.autoKill.
    destruct env as [e|].
    + destruct (Services.lookup "OATS_AUTO_KILL_PORTS" e) as [v|] eqn:E.
      * rewrite negb_false_iff, String.eqb_eq; split.
        -- intros ->; eauto.
        -- intros (e' & He & Hl); congruence.
      * split; [discriminate|intros (e' & He & Hl); congruence].
    + split; [discriminate|intros (e' & He & _); discriminate].
  - unfold Services.checkPort.
    apply Z.eqb_neq in Hp; rewrite Hp.
    destruct k; try congruence; reflexivity.
Qed.

Lemma checkPort_frees_unless_disabled_witness :
  Services.checkPort (stubborn ["4242"%string] false)
    Services.BackendService (Some 4000)
    (Some [("OATS_AUTO_KILL_PORTS", "false")]%string) O
  = (Resolved tt, (O, [])).
Proof.
  exact (proj2 (checkPort_frees_unless_disabled
                  (stubborn ["4242"%string] false) Services.BackendService
                  4000 (Some [("OATS_AUTO_KILL_PORTS", "false")]%string) O
                  ltac:(discriminate) ltac:(discriminate))).
Defined.

End PortProbeFacts.


(* ------------------------------------------------------------------ *)
(** ** A service's [start()] and [stop()] run to their end             *)
(* ------------------------------------------------------------------ *)

Section ServiceLifecycleFacts.

Import BaseService ServiceLifecycle.

Lemma own_task {P : Type} (l : list P) (p : P) :
  nth_error (l ++ [p]) (List.length l) = Some p.
Proof. induction l; simpl; auto. Qed.

Lemma own_task_moves {P : Type} (l : list P) (p q : P) :
  update_task (List.length l) (Some q) (l ++ [p]) = l ++ [q].
Proof. induction l as [|h t IH]; simpl; [reflexivity|now rewrite IH]. Qed.

Lemma own_task_ends {P : Type} (l : list P) (p : P) :
  update_task (List.length l) None (l ++ [p]) = l.
Proof. induction l as [|h t IH]; simpl; [reflexivity|now rewrite IH]. Qed.

Lemma no_own_task {P : Type} (l : list P) :
  nth_error l (List.length l) = None.
Proof. induction l; simpl; auto. Qed.

Ltac own_tasks :=
  repeat (cbn -[Services.checkPort Services.waitForReady nth_error
                update_task app List.length];
          rewrite ?own_task_moves, ?own_task_ends, ?own_task, ?no_own_task).



Lemma attempts_rejected {W : Type} (sys : PortManager.System W) port :
  (forall w, fst (PortManager.isPortInUse sys port w) = true) ->
  forall left a d pids r,
    fst (PortManager.attempts sys left port a d pids r)
    = Rejected (PortManager.gave_up port).
Proof.
  intros Hbusy; induction left as [|left IH]; intros a d pids r.
  - unfold PortManager.attempts, PortManager.all_attempts_failed.
    now destruct (PortManager.hasElevatedPrivileges sys (fst r)).
  - cbn [PortManager.attempts fst snd].
    match goal with
    | |- context [PortManager.isPortInUse sys port ?w] =>
        specialize (Hbusy w);
        destruct (PortManager.isPortInUse sys port w) as [inUse w3]
    end.
    simpl in Hbusy; subst inUse; cbn [negb].
    destruct (PortManager.getProcessesUsingPort sys port _) as [newPids w4].
    apply IH.
Qed.

Lemma freePort_rejected {W : Type} (sys : PortManager.System W) port w :
  (forall w', fst (PortManager.isPortInUse sys port w') = true) ->
  (forall w', fst (PortManager.getProcessesUsingPort sys port w') <> []) ->
  fst (PortManager.freePort sys port w) = Rejected (PortManager.gave_up port).
Proof.
  intros Hbusy Hown; unfold PortManager.freePort.
  pose proof (Hbusy w) as H.
  destruct (PortManager.isPortInUse sys port w) as [inUse w1].
  simpl in H; subst inUse; cbn [negb fst snd].
  specialize (Hown w1).
  destruct (PortManager.getProcessesUsingPort sys port w1) as [pids w2].
  destruct pids as [|pid pids]; [now elim Hown|].
  cbn [List.length app].
  replace (Z.of_nat (S (List.length pids)) =? 0) with false
    by (symmetry; apply Z.eqb_neq; lia).
  now apply attempts_rejected.
Qed.

(** X8.  A backend or frontend service whose port stays in use whatever
    is killed does not start: [start()] does what [freePort] does and
    nothing more, then rejects with a [ServiceStartError] carrying
    [freePort]'s message; the service is in [error] and its process was
    never spawned. *)
Theorem start_fails_when_port_cannot_be_freed
  {W : Type} (sys : PortManager.System W) (k : Services.Kind)
  (cfg : ServiceConfig) (env : option (list (string * string))) (w : W)
  (s : Service) (p : Z) :
  k <> Services.ClientService ->
  port cfg = Some p -> p <> 0 ->
  Services.autoKill env = true ->
  (forall w', fst (PortManager.isPortInUse sys p w') = true) ->
  (forall w', fst (PortManager.getProcessesUsingPort sys p w') <> []) ->
  state s = STOPPED ->
  let s' := fst (start_service sys k cfg env w s) in
  state s' = ERROR /\
  error s' = Some (PortManager.gave_up p) /\
  rejected s'
  = rejected s
    ++ [ServiceStartError (name cfg)
          (DevSyncEngine.message_of (PortManager.gave_up p))] /\
  process s' = process s /\
  pending s' = pending s /\
  emitted s' = emitted s ++ [(STOPPED, STARTING); (STARTING, ERROR)] /\
  snd (start_service sys k cfg env w s) = snd (PortManager.freePort sys p w).
Proof.
  intros Hk Hport Hp Hauto Hbusy Hown.
  destruct s as [st er pr pe em rj]; simpl; intros ->.
  assert (Hc : Services.checkPort sys k (Some p) env w
               = PortManager.freePort sys p w).
  { unfold Services.checkPort.
    apply Z.eqb_neq in Hp; rewrite Hp, Hauto.
    destruct k; congruence. }
  pose proof (freePort_rejected sys p w Hbusy Hown) as Hf.
  unfold start_service, start, has_port, resume.
  rewrite Hport, Hc.
  apply Z.eqb_neq in Hp; rewrite Hp.
  destruct (PortManager.freePort sys p w) as [r [w1 t1]].
  simpl in Hf; subst r.
  own_tasks.
  repeat split; now rewrite <- app_assoc.
Qed.

Lemma start_fails_when_port_cannot_be_freed_witness :
  let s' :=
    fst (start_service (PortManager.stubborn ["4242"%string] false)
           Services.BackendService example_config None O init) in
  state s' = ERROR /\
  error s' = Some (PortManager.gave_up 4000) /\
  rejected s'
  = [ServiceStartError "backend"
       "Failed to free port 4000 after 5 attempts with exponential backoff"] /\
  process s' = None.
Proof.
  pose proof (start_fails_when_port_cannot_be_freed
                (PortManager.stubborn ["4242"%string] false)
                Services.BackendService example_config None O init 4000
                ltac:(discriminate) eq_refl ltac:(discriminate) eq_refl
                ltac:(reflexivity) ltac:(discriminate) eq_refl) as H.
  repeat split; apply H.
Defined.


(** X9.  [stop()] of a service that is not stopped, with a kill that
    succeeds, leaves it [stopped] without a process, after the events
    -> stopping -> stopped; nothing is thrown and the recorded error
    stays.  The service can then be started again: the next [start()]
    leaves the [stopped] state. *)
Theorem stop_service_reaches_stopped
  (cfg : ServiceConfig) (s : Service) :
  state s <> STOPPED ->
  let s' := stop_service cfg (Resolved tt) s in
  state s' = STOPPED /\ process s' = None /\
  pending s' = pending s /\ rejected s' = rejected s /\
  error s' = error s /\
  emitted s' = emitted s ++ [(state s, STOPPING); (STOPPING, STOPPED)] /\
  state (start cfg s') <> STOPPED.
Proof.
  destruct s as [st er pr pe em rj]; simpl; intros Hne.
  unfold stop_service, stop, resume.
  destruct st; try (now elim Hne); destruct pr as [child|]; own_tasks;
    repeat split; rewrite <- ?app_assoc; try reflexivity;
    unfold start, has_port, start_spawn;
    destruct (port cfg) as [p|]; try destruct (p =? 0);
    destruct (startProcess cfg); own_tasks; discriminate.
Qed.

Lemma stop_service_reaches_stopped_witness :
  state (stop_service example_config (Resolved tt) running_service) = STOPPED
  /\ process (stop_service example_config (Resolved tt) running_service)
     = None.
Proof.
  pose proof (stop_service_reaches_stopped example_config running_service
                ltac:(discriminate)) as H.
  split; apply H.
Defined.

(** X10.  [start()] does not look at the state again after its
    awaits.  A [stop()] called while [start()] waits for its port check
    finds no process and sets the service to [stopped] at once; the
    start then goes on, spawns the process and sets the service to
    [running]: the events end with stopped -> running. *)
Theorem stop_during_start_is_undone
  (cfg : ServiceConfig) (s : Service) (child : nat) :
  has_port cfg = true -> startProcess cfg = Resolved child ->
  state s = STOPPED -> process s = None -> pending s = [] ->
  let s' := run cfg [Start; Stop; Settle 0 (Resolved tt);
                     Settle 0 (Resolved tt)] s in
  state (run cfg [Start; Stop] s) = STOPPED /\
  state s' = RUNNING /\ process s' = Some child /\
  pending s' = [] /\ rejected s' = rejected s /\
  emitted s'
  = emitted s ++ [(STOPPED, STARTING); (STARTING, STOPPING);
                  (STOPPING, STOPPED); (STOPPED, RUNNING)].
Proof.
  destruct s as [st er pr pe em rj]; simpl.
  intros Hp Hs -> -> ->.
  unfold start, stop, resume, start_spawn; rewrite Hp, Hs; cbn.
  rewrite <- !app_assoc; repeat split; reflexivity.
Qed.

Lemma stop_during_start_is_undone_witness :
  state (run example_config [Start; Stop; Settle 0 (Resolved tt);
                             Settle 0 (Resolved tt)] init) = RUNNING.
Proof.
  apply (stop_during_start_is_undone example_config init 1); reflexivity.
Defined.

Lemma chained_snoc from events mid to :
  chained from events mid = true ->
  chained from (events ++ [(mid, to)]) to = true.
Proof.
  revert from; induction events as [|[a b] l IH]; intros from; simpl.
  - intros H; apply ServiceState_eqb_eq in H; subst mid.
    now destruct from, to.
  - intros H; apply andb_true_iff in H as [H1 H2].
    rewrite H1; simpl; auto.
Qed.

Lemma setState_chained from st s :
  chained from (emitted s) (state s) = true ->
  chained from (emitted (setState st s)) (state (setState st s)) = true.
Proof. intros H; simpl; now apply chained_snoc. Qed.

Lemma step_chained cfg a from s :
  chained from (emitted s) (state s) = true ->
  chained from (emitted (step cfg a s)) (state (step cfg a s)) = true.
Proof.
  intros H; destruct a as [| |i r|code]; simpl.
  - unfold start.
    destruct (negb (ServiceState_eqb (state s) STOPPED)); [exact H|].
    apply (setState_chained from STARTING) in H.
    unfold start_spawn.
    destruct (has_port cfg); [exact H|].
    destruct (startProcess cfg); [exact H|].
    cbn; now apply chained_snoc.
  - unfold stop.
    destruct (ServiceState_eqb (state s) STOPPED); [exact H|].
    apply (setState_chained from STOPPING) in H.
    destruct (process (setState STOPPING s)) eqn:E; [exact H|].
    now apply (setState_chained from STOPPED) in H.
  - unfold resume, start_spawn.
    destruct (nth_error (pending s) i) as [[]|]; [| | |exact H];
      destruct r; try destruct (startProcess cfg); cbn;
      try exact H; now apply chained_snoc.
  - unfold on_exit.
    destruct (ServiceState_eqb (state s) STOPPING); [exact H|].
    destruct (ServiceState_eqb (state s) RUNNING); [|exact H].
    cbn; now apply chained_snoc.
Qed.

Lemma guarded_snoc events ev :
  forallb guarded_event events = true -> guarded_event ev = true ->
  forallb guarded_event (events ++ [ev]) = true.
Proof. intros H1 H2; rewrite forallb_app, H1; simpl; now rewrite H2. Qed.

Lemma step_guarded_events cfg a s :
  forallb guarded_event (emitted s) = true ->
  forallb guarded_event (emitted (step cfg a s)) = true.
Proof.
  intros H; destruct a as [| |i r|code]; simpl.
  - unfold start.
    destruct (ServiceState_eqb (state s) STOPPED) eqn:E; [|exact H].
    assert (H' : forallb guarded_event (emitted (setState STARTING s)) = true)
      by (apply guarded_snoc; [exact H|simpl; exact E]).
    unfold start_spawn; cbn [negb].
    destruct (has_port cfg); [exact H'|].
    destruct (startProcess cfg); [exact H'|].
    cbn; now apply guarded_snoc.
  - unfold stop.
    destruct (ServiceState_eqb (state s) STOPPED) eqn:E; [exact H|].
    assert (H' : forallb guarded_event (emitted (setState STOPPING s)) = true)
      by (apply guarded_snoc; [exact H|simpl; now rewrite E]).
    destruct (process (setState STOPPING s)) eqn:E'; [exact H'|].
    now apply guarded_snoc.
  - unfold resume, start_spawn.
    destruct (nth_error (pending s) i) as [[]|]; [| | |exact H];
      destruct r; try destruct (startProcess cfg); cbn;
      try exact H; now apply guarded_snoc.
  - unfold on_exit.
    destruct (ServiceState_eqb (state s) STOPPING); [exact H|].
    destruct (ServiceState_eqb (state s) RUNNING); [|exact H].
    cbn; now apply guarded_snoc.
Qed.

(** X11.  Whatever calls, settlements and process exits happen, in
    whatever order: the [stateChange] events of a service form a chain
    from [stopped] to its current state - the [oldState] of each is the
    [newState] of the one before - and every event into [starting]
    comes from [stopped], and none into [stopping] does. *)
Theorem stateChange_events_are_chained
  (cfg : ServiceConfig) (l : list Action) :
  let s := run cfg l init in
  chained STOPPED (emitted s) (state s) = true /\
  forallb guarded_event (emitted s) = true.
Proof.
  unfold run.
  assert (H : chained STOPPED (emitted init) (state init) = true /\
              forallb guarded_event (emitted init) = true)
    by (split; reflexivity).
  revert H; generalize init; induction l as [|a l IH]; intros s H.
  - exact H.
  - simpl; apply IH; destruct H as [H1 H2]; split.
    + now apply step_chained.
    + now apply step_guarded_events.
Qed.

End ServiceLifecycleFacts.

Section ParseCommandFacts.

Import ServiceLifecycle.

Lemma split_cons sep s : exists p l, Js.split sep s = p :: l.
Proof.
  induction s as [|c s IH]; simpl; eauto.
  destruct (Ascii.eqb c sep); eauto.
  destruct IH as (p & l & ->); eauto.
Qed.

Lemma join_split sep s : Js.join sep (Js.split sep s) = s.
Proof.
  unfold Js.join; induction s as [|c s IH]; simpl; [reflexivity|].
  destruct (Ascii.eqb_spec c sep) as [->|Hne].
  - destruct (split_cons sep s) as (p & l & E); rewrite E in *.
    destruct l; simpl in *; now rewrite IH.
  - destruct (split_cons sep s) as (p & l & E); rewrite E in *.
    destruct l; simpl in *; now rewrite IH.
Qed.

Lemma split_length sep s :
  List.length (Js.split sep s) = S (count_char sep s).
Proof.
  induction s as [|c s IH]; simpl; [reflexivity|].
  destruct (Ascii.eqb c sep); simpl; [now rewrite IH|].
  destruct (split_cons sep s) as (p & l & E); rewrite E in *; exact IH.
Qed.

Lemma split_pieces sep s :
  Forall (fun p => count_char sep p = O) (Js.split sep s).
Proof.
  induction s as [|c s IH]; simpl; [repeat constructor|].
  destruct (Ascii.eqb c sep) eqn:E; [constructor; auto|].
  destruct (split_cons sep s) as (p & l & E'); rewrite E' in *.
  inversion IH; subst; constructor; auto.
  simpl; now rewrite E.
Qed.

(** X12.  [parseCommand] cuts the command at every single space:
    joining the command and its arguments with spaces gives the
    configured string back, there is one argument for each space of the
    string (so two spaces in a row give an empty argument), and no
    piece holds a space. *)
Theorem parseCommand_splits_at_every_space (c : string) :
  let '(command, args) := parseCommand c in
  Js.join Js.space (command :: args) = c /\
  List.length args = count_char Js.space c /\
  Forall (fun p => count_char Js.space p = O) (command :: args).
Proof.
  unfold parseCommand.
  pose proof (join_split Js.space c) as Hj.
  pose proof (split_length Js.space c) as Hl.
  pose proof (split_pieces Js.space c) as Hp.
  destruct (split_cons Js.space c) as (p & l & E); rewrite E in *.
  cbn [tl].
  assert (Hc : (if String.eqb p EmptyString then EmptyString else p) = p)
    by (destruct (String.eqb_spec p EmptyString); congruence).
  rewrite Hc; repeat split; auto.
Qed.

End ParseCommandFacts.


(* ------------------------------------------------------------------ *)
(** ** Generating, building and linking the client                     *)
(* ------------------------------------------------------------------ *)

Section ClientGenerationFacts.

Import ClientGeneration.

Context {W : Type} (sys : System W).

Lemma failed_fetches_snoc url n :
  failed_fetches url n ++ [OpFetch url; OpWait retryDelay]
  = failed_fetches url (S n).
Proof. induction n as [|n IH]; simpl; [reflexivity|now rewrite IH]. Qed.



Lemma up_to_date_cases h w :
  exists pre,
    snd (up_to_date sys h (w, [])) = (w, pre) /\
    (pre = [] \/ pre = [OpReadHash]) /\
    (fst (up_to_date sys h (w, [])) = true ->
     pre = [OpReadHash] /\
     exists text,
       hashFile sys w = Some (Resolved text) /\ h = Some (Js.trim text) /\
       Js.trim text <> EmptyString).
Proof.
  unfold up_to_date; cbn [fst snd app].
  destruct (hashFile sys w) as [[text|err]|].
  - destruct h as [x|]; cbn [truthy].
    + destruct (String.eqb_spec x EmptyString) as [->|Hx]; cbn [negb].
      * exists []; repeat split; auto; discriminate.
      * exists [OpReadHash]; cbn [fst snd]; repeat split; auto.
        apply String.eqb_eq in H; exists text; repeat split; congruence.
    + exists []; repeat split; auto; discriminate.
  - destruct (truthy h).
    + exists [OpReadHash]; repeat split; auto; discriminate.
    + exists []; repeat split; auto; discriminate.
  - exists []; repeat split; auto; discriminate.
Qed.

Lemma runCommand_cases command cwd r :
  snd (snd (runCommand sys command cwd r)) = snd r ++ [OpRun command cwd] /\
  (fst (runCommand sys command cwd r) = Resolved tt \/
   exists error,
     fst (runCommand sys command cwd r)
     = Rejected (JsError ("Command failed: " ++ command ++ " - "
                          ++ text_of sys error))).
Proof.
  unfold runCommand.
  destruct (execa sys command cwd (fst r)) as [[u|err] w]; cbn [fst snd];
    split; eauto.
Qed.



Lemma fetch_attempts_all_fail cfg :
  (forall w, exists e, fst (fetchSpec sys (apiUrl cfg) w) = Rejected e) ->
  forall left attempt r,
    attempt + Z.of_nat left = maxRetries + 1 -> left <> O ->
    exists err,
      fst (fetch_attempts sys left cfg attempt r)
      = Rejected
          (ApiSpecError
             ("Failed to fetch runtime API spec after 5 attempts: "
              ++ text_of sys err) (apiUrl cfg)) /\
      snd (snd (fetch_attempts sys left cfg attempt r))
      = snd r ++ failed_fetches (apiUrl cfg) (left - 1)
        ++ [OpFetch (apiUrl cfg)].
Proof.
  intros Hfail left attempt r Ha Hleft.
  revert attempt r Ha; induction left as [|left IH]; [congruence|].
  intros attempt r Ha; cbn [fetch_attempts].
  destruct (Hfail (fst r)) as [e He].
  destruct (fetchSpec sys (apiUrl cfg) (fst r)) as [out w1].
  cbn [fst] in He; subst out; cbn [fst snd].
  destruct (Z.ltb_spec attempt maxRetries) as [Hlt|Hge].
  - assert (Hl : left <> O) by (unfold maxRetries in *; lia).
    match goal with
    | |- context [fetch_attempts sys left cfg ?a ?r'] =>
        destruct (IH Hl a r') as (err & Hf & Ht); [lia|]
    end.
    exists err; split; [exact Hf|].
    rewrite Ht; cbn [snd]; rewrite <- !app_assoc.
    replace (S left - 1)%nat with (S (left - 1)) by lia.
    reflexivity.
  - exists e; split; [reflexivity|].
    assert (left = O) by (unfold maxRetries in *; lia); subst left.
    reflexivity.
Qed.

(** X13.  With a runtime spec whose endpoint never answers,
    [generateClient] fetches 5 times, waits 3000 ms after each of the
    first four, and throws an [ApiSpecError] that names the URL and the
    last failure.  It has then neither cleaned the generated files nor
    run a command nor written the hash. *)
Theorem generateClient_gives_up_after_five_fetches
  (cfg : ClientConfig) (h : option string) (w : W) :
  isRuntimeSpec cfg = true ->
  fst (up_to_date sys h (w, [])) = false ->
  (forall w', exists e, fst (fetchSpec sys (apiUrl cfg) w') = Rejected e) ->
  exists err pre,
    fst (generateClient sys cfg h w)
    = Rejected
        (ApiSpecError
           ("Failed to fetch runtime API spec after 5 attempts: "
            ++ text_of sys err) (apiUrl cfg)) /\
    snd (snd (generateClient sys cfg h w))
    = pre ++ failed_fetches (apiUrl cfg) 4 ++ [OpFetch (apiUrl cfg)] /\
    (pre = [] \/ pre = [OpReadHash]).
Proof.
  intros Hrt Hskip Hfail.
  destruct (up_to_date_cases h w) as (pre & Hpre & Hcase & _).
  unfold generateClient.
  destruct (up_to_date sys h (w, [])) as [skip r].
  cbn [fst snd] in *; subst skip r; rewrite Hrt.
  destruct (fetch_attempts_all_fail cfg Hfail (Z.to_nat maxRetries) 1
              (w, pre) eq_refl ltac:(discriminate)) as (err & Hf & Ht).
  destruct (fetch_attempts sys (Z.to_nat maxRetries) cfg 1 (w, pre))
    as [res [w1 t1]]; cbn [fst snd] in *; subst res t1.
  exists err, pre; auto.
Qed.

(** X15.  When the hash file holds, up to surrounding white space, the
    hash of the spec that was last compared, [generateClient] returns
    after reading that file: nothing is fetched, copied, cleaned or
    run. *)
Theorem generateClient_skips_when_hash_is_saved
  (cfg : ClientConfig) (x text : string) (w : W) :
  hashFile sys w = Some (Resolved text) ->
  Js.trim text = x -> x <> EmptyString ->
  generateClient sys cfg (Some x) w = (Resolved tt, (w, [OpReadHash])).
Proof.
  intros Hf Ht Hx; unfold generateClient, up_to_date; cbn [fst snd].
  rewrite Hf; cbn [truthy].
  destruct (String.eqb_spec x EmptyString) as [|_]; [contradiction|].
  cbn [negb app]; rewrite Ht, String.eqb_refl; reflexivity.
Qed.

(** X16.  With a static spec, no generate command and a generator
    other than [@hey-api/openapi-ts], [generateClient] throws its
    [GeneratorError] only after it has copied the spec and removed the
    generated files. *)
Theorem generateClient_cleans_before_it_checks_the_generator
  (cfg : ClientConfig) (h : option string) (w : W) :
  truthy (generateCommand cfg) = false ->
  generator cfg <> "@hey-api/openapi-ts"%string ->
  isRuntimeSpec cfg = false ->
  fst (up_to_date sys h (w, [])) = false ->
  exists pre,
    (pre = [] \/ pre = [OpReadHash]) /\
    generateClient sys cfg h w
    = (Rejected
         (GeneratorError
            ("No generate command specified for generator " ++ generator cfg)
            (generator cfg)),
       (snd (rm sys (snd (copyFile sys w))), pre ++ [OpCopy; OpClean])).
Proof.
  intros Hg Hgen Hrt Hskip.
  destruct (up_to_date_cases h w) as (pre & Hpre & Hcase & _).
  unfold generateClient.
  destruct (up_to_date sys h (w, [])) as [skip r].
  cbn [fst snd] in *; subst skip r; rewrite Hrt.
  exists pre; split; [exact Hcase|].
  unfold regenerate; cbn [fst snd]; rewrite Hg.
  apply String.eqb_neq in Hgen; rewrite Hgen.
  now rewrite <- app_assoc.
Qed.







(** X17.  [linkPackages] emits [packages-linked] exactly when a link
    command is configured and every link command succeeded.  It runs at
    most two commands and none without a link command; it fails only
    with the error of [runCommand]; a touch of the frontend that fails
    does not make it fail. *)
Theorem linkPackages_emits_after_every_link_succeeded
  (cfg : ClientConfig) (w : W) :
  let res := fst (linkPackages sys cfg w) in
  let t := snd (snd (linkPackages sys cfg w)) in
  (existsb is_emit t = true <->
   res = Resolved tt /\ truthy (linkCommand cfg) = true) /\
  (List.length (filter is_run t) <= 2)%nat /\
  (truthy (linkCommand cfg) = false -> t = []) /\
  (forall e, res = Rejected e ->
     exists command error,
       e = JsError ("Command failed: " ++ command ++ " - "
                    ++ text_of sys error)) /\
  ((forall command cwd w', fst (execa sys command cwd w') = Resolved tt) ->
   res = Resolved tt).
Proof.
  cbv zeta; unfold linkPackages.
  assert (Hnone :
    (existsb is_emit [] = true <->
     @Resolved unit tt = Resolved tt /\ false = true) /\
    (List.length (filter is_run []) <= 2)%nat /\
    (false = false -> @nil Op = []) /\
    (forall e, @Resolved unit tt = Rejected e ->
       exists command error,
         e = JsError ("Command failed: " ++ command ++ " - "
                      ++ text_of sys error)) /\
    ((forall command cwd w', fst (execa sys command cwd w') = Resolved tt) ->
     @Resolved unit tt = Resolved tt)).
  { simpl; repeat split; intros; try discriminate; auto.
    destruct H; discriminate. }
  destruct (linkCommand cfg) as [command|]; cbn [truthy]; [|exact Hnone].
  destruct (String.eqb command EmptyString); cbn [negb]; [exact Hnone|].
  clear Hnone.
  destruct (runCommand_cases command (clientPath cfg) (w, [])) as [Ht Hres].
  destruct (runCommand sys command (clientPath cfg) (w, []))
    as [[[]|err] [w1 t1]] eqn:E1; cbn [fst snd app] in *; subst t1.
  - destruct (frontendPath cfg) as [frontend|].
    + destruct (runCommand_cases (frontendLinkCommand cfg) frontend
                  (w1, [OpRun command (clientPath cfg)])) as [Ht2 Hres2].
      destruct (runCommand sys (frontendLinkCommand cfg) frontend
                  (w1, [OpRun command (clientPath cfg)]))
        as [[[]|err] [w2 t2]] eqn:E2; cbn [fst snd app] in *; subst t2.
      * cbn; repeat split; intros; try discriminate; auto.
      * cbn; repeat split; intros; try discriminate; auto.
        -- destruct H; discriminate.
        -- destruct Hres2 as [|[error He]]; [discriminate|].
           inversion H; subst; inversion He; eauto.
        -- exfalso; revert E2; unfold runCommand; cbn [fst snd].
           specialize (H (frontendLinkCommand cfg) frontend w1).
           destruct (execa sys (frontendLinkCommand cfg) frontend w1)
             as [[] ?]; simpl in H; [discriminate|discriminate].
    + cbn; repeat split; intros; try discriminate; auto.
  - cbn; repeat split; intros; try discriminate; auto.
    + destruct H; discriminate.
    + destruct Hres as [|[error He]]; [discriminate|].
      inversion H; subst; inversion He; eauto.
    + exfalso; revert E1; unfold runCommand; cbn [fst snd].
      specialize (H command (clientPath cfg) w).
      destruct (execa sys command (clientPath cfg) w) as [[] ?];
        simpl in H; [discriminate|discriminate].
Qed.


Lemma prefix_app r x : String.prefix r (r ++ x) = true.
Proof.
  induction r as [|c r IH]; simpl; [now destruct x|].
  destruct (Ascii.ascii_dec c c); [exact IH|congruence].
Qed.

Lemma replace_absent pattern replacement s :
  Js.includes pattern s = false -> Js.replace pattern replacement s = s.
Proof.
  induction s as [|c s IH]; cbn [Js.includes Js.replace]; intros H;
    apply orb_false_iff in H as [H1 H2]; rewrite H1; [reflexivity|].
  now rewrite IH.
Qed.

Lemma replace_present pattern replacement s :
  Js.includes pattern s = true ->
  Js.includes replacement (Js.replace pattern replacement s) = true.
Proof.
  induction s as [|c s IH]; cbn [Js.includes Js.replace]; intros H.
  - rewrite orb_false_r in H; rewrite H.
    destruct (replacement ++ Js.drop (String.length pattern) EmptyString)%string
      eqn:E; cbn [Js.includes]; rewrite <- E, prefix_app; reflexivity.
  - destruct (String.prefix pattern (String c s)) eqn:E.
    + destruct (replacement ++ Js.drop (String.length pattern) (String c s))%string
        eqn:E'; cbn [Js.includes]; rewrite <- E', prefix_app; reflexivity.
    + simpl in H; cbn [Js.includes]; rewrite (IH H); apply orb_true_r.
Qed.

(** X18.  [buildClient] with a build command runs one command.  It is
    the configured command when the client has no [build:fast] script,
    and also when the command does not contain [build]; otherwise the
    command that is run contains [build:fast]. *)
Theorem buildClient_fast_build_rewrites_the_command
  (cfg : ClientConfig) (w : W) (command : string) :
  buildCommand cfg = Some command -> command <> EmptyString ->
  exists c,
    snd (snd (buildClient sys cfg w)) = [OpRun c (clientPath cfg)] /\
    (fastBuild sys w = false \/ Js.includes "build" command = false ->
     c = command) /\
    (fastBuild sys w = true -> Js.includes "build" command = true ->
     Js.includes "build:fast" c = true).
Proof.
  intros Hb Hne; unfold buildClient; rewrite Hb; cbn [truthy].
  apply String.eqb_neq in Hne; rewrite Hne; cbn [negb].
  match goal with
  | |- context [runCommand sys ?c ?cwd ?r] =>
      exists c; destruct (runCommand_cases c cwd r) as [Ht _]; rewrite Ht
  end.
  split; [reflexivity|]; split.
  - intros [-> | H]; [reflexivity|].
    destruct (fastBuild sys w); [now apply replace_absent|reflexivity].
  - intros -> H; now apply replace_present.
Qed.

End ClientGenerationFacts.

Section ClientGenerationExamples.

Import ClientGeneration.

Lemma generateClient_gives_up_after_five_fetches_witness :
  exists err pre,
    fst (generateClient (machine None (fun _ => false) false)
           example_config None O)
    = Rejected
        (ApiSpecError
           ("Failed to fetch runtime API spec after 5 attempts: "
            ++ text_of (machine None (fun _ => false) false) err)
           (apiUrl example_config)) /\
    snd (snd (generateClient (machine None (fun _ => false) false)
                example_config None O))
    = pre ++ failed_fetches (apiUrl example_config) 4
      ++ [OpFetch (apiUrl example_config)] /\
    (pre = [] \/ pre = [OpReadHash]).
Proof.
  apply (generateClient_gives_up_after_five_fetches
           (machine None (fun _ => false) false) example_config None O);
    [reflexivity|reflexivity|intros w'; eexists; reflexivity].
Defined.

Lemma generateClient_skips_when_hash_is_saved_witness :
  generateClient
    (machine (Some (Resolved ("3f2a" ++ String Js.newline EmptyString)%string))
       (fun _ => true) false)
    example_config (Some "3f2a"%string) O
  = (Resolved tt, (O, [OpReadHash])).
Proof.
  apply (generateClient_skips_when_hash_is_saved
           (machine
              (Some (Resolved ("3f2a" ++ String Js.newline EmptyString)%string))
              (fun _ => true) false)
           example_config "3f2a"
           ("3f2a" ++ String Js.newline EmptyString)%string O);
    [reflexivity|reflexivity|discriminate].
Defined.

Lemma generateClient_cleans_before_it_checks_the_generator_witness :
  exists pre,
    (pre = [] \/ pre = [OpReadHash]) /\
    generateClient (machine None (fun _ => true) false) static_config None O
    = (Rejected
         (GeneratorError "No generate command specified for generator custom"
            "custom"),
       (O, pre ++ [OpCopy; OpClean])).
Proof.
  apply (generateClient_cleans_before_it_checks_the_generator
           (machine None (fun _ => true) false) static_config None O);
    [reflexivity|discriminate|reflexivity|reflexivity].
Defined.

Lemma buildClient_fast_build_rewrites_the_command_witness :
  exists c,
    snd (snd (buildClient (machine None (fun _ => true) true)
                example_config O))
    = [OpRun c "/work/client"] /\
    (true = false \/ Js.includes "build" "npm run build" = false ->
     c = "npm run build"%string) /\
    (true = true -> Js.includes "build" "npm run build" = true ->
     Js.includes "build:fast" c = true).
Proof.
  apply (buildClient_fast_build_rewrites_the_command
           (machine None (fun _ => true) true) example_config O
           "npm run build"); [reflexivity|discriminate].
Defined.

End ClientGenerationExamples.


(* ------------------------------------------------------------------ *)
(** ** The orchestrator's stop sequence, to its end                    *)
(* ------------------------------------------------------------------ *)

Section OrchestratorFacts.

Import DevSyncOrchestrator.

Lemma caught_length names rs :
  (List.length (caught names rs) <= List.length names)%nat.
Proof.
  revert rs; induction names as [|n names IH]; intros [|[] rs]; simpl;
    try lia; specialize (IH rs); lia.
Qed.

(** X19.  A stop sequence whose awaited calls all resolve runs to its
    end, whether or not the services' own stops reject: the sync engine
    is stopped, every service is asked to stop, each stop that rejects
    is logged, then come [killAll], [unlinkPackages] and the close of
    the configuration watcher.  At the end the flag is reset, the
    engine and the watcher are forgotten, nothing was thrown, and the
    process has exited with code 0 exactly for [shutdown]. *)
Theorem stop_sequence_runs_to_completion
  (c : Caller) (o : Orchestrator) (rs : list (Settled unit)) :
  isShuttingDown o = false -> pending o = [] -> exited o = None ->
  let o' := run [Call c; Settle 0 rs (Resolved tt); Settle 0 [] (Resolved tt);
                 Settle 0 [] (Resolved tt); Settle 0 [] (Resolved tt)] o in
  trace o'
  = trace o ++ [Begin]
    ++ (if syncEngine o then [StopSyncEngine] else [])
    ++ map StopService (services o)
    ++ caught (services o) rs
    ++ [KillAll; UnlinkPackages]
    ++ (if configWatcher o then [CloseConfigWatcher] else [])
    ++ [ShutdownComplete] /\
  isShuttingDown o' = false /\ syncEngine o' = false /\
  configWatcher o' = false /\ pending o' = [] /\
  rejected o' = rejected o /\
  exited o' = match c with shutdown => Some 0 | configChange => None end.
Proof.
  destruct o as [f se sv cw pd tr rj ex]; simpl.
  intros -> -> ->.
  destruct se, cw, c; cbn; rewrite <- ?app_assoc; simpl;
    repeat split; reflexivity.
Qed.


Lemma flag_stays_set l o :
  isShuttingDown o = true -> pending o = [] ->
  isShuttingDown (run l o) = true /\ pending (run l o) = [] /\
  trace (run l o) = trace o /\ rejected (run l o) = rejected o.
Proof.
  revert o; induction l as [|a l IH]; intros o Hf Hp; simpl; auto.
  assert (H : isShuttingDown (step a o) = true /\ pending (step a o) = [] /\
              trace (step a o) = trace o /\ rejected (step a o) = rejected o).
  { unfold step; destruct (exited o); auto.
    destruct a as [c|i rs r].
    - unfold stop; rewrite Hf; destruct c; simpl; auto.
    - unfold resume; rewrite Hp; destruct i; simpl; auto. }
  destruct H as (H1 & H2 & H3 & H4).
  destruct (IH _ H1 H2) as (I1 & I2 & I3 & I4).
  rewrite I1, I2, I3, I4; auto.
Qed.

(** X20.  There is no [try] around the stop sequence.  When the close
    of the configuration watcher rejects, [stop] rejects with that
    error before the flag is reset and before [process.exit]: the flag
    stays set and the watcher stays registered, and whatever is called
    or settles afterwards carries out no further step. *)
Theorem failed_watcher_close_keeps_the_flag
  (c : Caller) (o : Orchestrator) (rs : list (Settled unit)) (err : Error)
  (l : list Action) :
  isShuttingDown o = false -> pending o = [] -> exited o = None ->
  configWatcher o = true ->
  let o' := run [Call c; Settle 0 rs (Resolved tt); Settle 0 [] (Resolved tt);
                 Settle 0 [] (Resolved tt); Settle 0 [] (Rejected err)] o in
  rejected o' = rejected o ++ [err] /\
  exited o' = None /\
  configWatcher o' = true /\
  isShuttingDown (run l o') = true /\
  trace (run l o') = trace o' /\
  rejected (run l o') = rejected o'.
Proof.
  destruct o as [f se sv cw pd tr rj ex]; simpl.
  intros -> -> -> ->.
  match goal with
  | |- context [rejected ?x = rj ++ [err]] => set (o' := x)
  end.
  assert (H : isShuttingDown o' = true /\ pending o' = [] /\
              rejected o' = rj ++ [err] /\ exited o' = None /\
              configWatcher o' = true)
    by (subst o'; destruct se; cbn; auto).
  destruct H as (Hf & Hp & Hr & He & Hw).
  destruct (flag_stays_set l o' Hf Hp) as (I1 & I2 & I3 & I4).
  auto 10.
Qed.

Lemma failed_watcher_close_keeps_the_flag_witness :
  isShuttingDown
    (run [Call shutdown; Call shutdown]
       (run [Call configChange; Settle 0 [] (Resolved tt);
             Settle 0 [] (Resolved tt); Settle 0 [] (Resolved tt);
             Settle 0 [] (Rejected (JsError "close failed"))]
          (started ["backend"; "client"]%string)))
  = true.
Proof.
  apply (failed_watcher_close_keeps_the_flag configChange
           (started ["backend"; "client"]%string) []
           (JsError "close failed") [Call shutdown; Call shutdown]);
    reflexivity.
Defined.

(** X21.  A [shutdown()] that arrives while a stop sequence is in
    progress finds the flag set, so its [stop()] returns at once and it
    calls [process.exit(0)]: the process exits with the first sequence
    still suspended at its first await - the services were asked to
    stop, [killAll], [unlinkPackages] and the close of the watcher
    never run. *)
Theorem second_shutdown_exits_at_once
  (c : Caller) (o : Orchestrator) (l : list Action) :
  isShuttingDown o = false -> pending o = [] -> exited o = None ->
  let o' := run (Call c :: Call shutdown :: l) o in
  exited o' = Some 0 /\
  trace o'
  = trace o ++ [Begin]
    ++ (if syncEngine o then [StopSyncEngine] else [])
    ++ map StopService (services o) /\
  pending o' = [(stopPromises, c)].
Proof.
  intros Hf Hp He o'; subst o'.
  change (run (Call c :: Call shutdown :: l) o)
    with (run l (step (Call shutdown) (step (Call c) o))).
  assert (Hx : exited (step (Call shutdown) (step (Call c) o)) = Some 0).
  { destruct o as [f se sv cw pd tr rj ex]; simpl in *; subst.
    destruct se; reflexivity. }
  rewrite (exited_is_final l _ 0 Hx).
  destruct o as [f se sv cw pd tr rj ex]; simpl in *; subst.
  destruct se; cbn; rewrite <- ?app_assoc; auto.
Qed.

Lemma second_shutdown_exits_at_once_witness :
  exited (run [Call shutdown; Call shutdown; Settle 0 [] (Resolved tt)]
            (started ["backend"; "client"]%string))
  = Some 0 /\
  pending (run [Call shutdown; Call shutdown; Settle 0 [] (Resolved tt)]
             (started ["backend"; "client"]%string))
  = [(stopPromises, shutdown)].
Proof.
  pose proof (second_shutdown_exits_at_once shutdown
                (started ["backend"; "client"]%string)
                [Settle 0 [] (Resolved tt)] eq_refl eq_refl eq_refl) as H.
  split; apply H.
Defined.

Lemma stop_sequence_runs_to_completion_witness :
  trace (run [Call shutdown; Settle 0 [Rejected (JsError "kill failed")]
                (Resolved tt);
              Settle 0 [] (Resolved tt); Settle 0 [] (Resolved tt);
              Settle 0 [] (Resolved tt)] (started ["backend"%string]))
  = [Begin; StopSyncEngine; StopService "backend"; StopFailed "backend";
     KillAll; UnlinkPackages; CloseConfigWatcher; ShutdownComplete].
Proof.
  apply (stop_sequence_runs_to_completion shutdown
           (started ["backend"%string]) [Rejected (JsError "kill failed")]);
    reflexivity.
Defined.

End OrchestratorFacts.


(* ------------------------------------------------------------------ *)
(** ** The shutdown manager's sequence, to its end                     *)
(* ------------------------------------------------------------------ *)

Section ShutdownManagerFacts.

Import ShutdownManager ShutdownSequence.

Lemma shutdown_settled_or_one tg opt m :
  settled_or_one m -> exited m = None ->
  settled_or_one (shutdown tg opt m).
Proof.
  destruct m as [f h pd tr rj ex]; unfold settled_or_one, shutdown; simpl.
  intros H -> _; destruct (H eq_refl) as [[-> ->]|[-> [t ->]]]; simpl.
  - destruct (syncEngine tg); simpl; eauto.
  - eauto.
Qed.

Lemma resume_settled_or_one i rs r m :
  settled_or_one m -> exited m = None ->
  settled_or_one (resume i rs r m).
Proof.
  destruct m as [f h pd tr rj ex]; unfold settled_or_one, resume; simpl.
  intros H ->; destruct (H eq_refl) as [[-> ->]|[-> [t ->]]]; simpl.
  - destruct i; simpl; auto.
  - destruct i as [|[|i]]; simpl; eauto.
    destruct t as [w [se sv cw ul] [keep ex']]; simpl.
    unfold try_resume, unlink_packages, run_handler, close_watcher, complete.
    destruct w, r; simpl;
      repeat match goal with
             | |- context [if ?b then _ else _] => destruct b; simpl
             end; eauto; try discriminate.
Qed.

(** X22.  In every run of the shutdown manager, as long as the process
    has not exited: the flag is set exactly while a shutdown is in
    progress, and at most one is.  The [finally] block resets the flag
    however the shutdown ends, so a shutdown that failed can be tried
    again. *)
Theorem flag_is_reset_when_shutdown_ends
  (handlers : nat) (l : list Action) :
  let m := run l (init handlers) in
  exited m = None ->
  (pending m = [] <-> isShuttingDown m = false) /\
  (List.length (pending m) <= 1)%nat.
Proof.
  cbv zeta.
  assert (H : settled_or_one (run l (init handlers))).
  { unfold run.
    assert (H0 : settled_or_one (init handlers)) by (left; auto).
    revert H0; generalize (init handlers).
    induction l as [|a l IH]; intros m H0; simpl; auto.
    apply IH; unfold step.
    destruct (exited m) eqn:E; auto.
    destruct a; [apply shutdown_settled_or_one|apply resume_settled_or_one];
      auto. }
  intros He; destruct (H He) as [[Hp Hf]|[Hf [t Hp]]]; rewrite Hp, Hf; simpl.
  - split; [tauto|lia].
  - split; [split; discriminate|lia].
Qed.


Lemma flag_is_reset_when_shutdown_ends_witness :
  let m :=
    run [Call {| syncEngine := true; services := ["backend"%string];
                 configWatcher := false; unlinkPackages := false |}
           {| keepConfigWatcher := false; exitProcess := false |};
         Settle 0 [Resolved tt] (Resolved tt);
         Settle 0 [] (Rejected (JsError "killAll failed"))] (init 0) in
  (pending m = [] <-> isShuttingDown m = false) /\
  (List.length (pending m) <= 1)%nat.
Proof.
  apply (flag_is_reset_when_shutdown_ends 0
           [Call {| syncEngine := true; services := ["backend"%string];
                    configWatcher := false; unlinkPackages := false |}
              {| keepConfigWatcher := false; exitProcess := false |};
            Settle 0 [Resolved tt] (Resolved tt);
            Settle 0 [] (Rejected (JsError "killAll failed"))]).
  reflexivity.
Defined.

Lemma handlers_settle tg opt rest :
  forall hs k h tr rj t0 t1,
    h = (k + List.length hs)%nat ->
    run (settle_handlers hs ++ rest)
      (settle_task 0 tg opt
         (try_catch_finally opt
            (run_handler k tg opt
               {| isShuttingDown := true; shutdownHandlers := h;
                  pending := [t0]; trace := tr; rejected := rj;
                  exited := None |})))
    = run rest
        (settle_task 0 tg opt
           (try_catch_finally opt
              (close_watcher tg opt
                 {| isShuttingDown := true; shutdownHandlers := h;
                    pending := [t1]; trace := tr ++ handler_ops k hs;
                    rejected := rj; exited := None |}))).
Proof.
  induction hs as [|r hs IH]; intros k h tr rj t0 t1 Hh.
  - unfold run_handler; cbn [shutdownHandlers].
    replace (k <? h)%nat with false
      by (symmetry; apply Nat.ltb_ge; simpl in Hh; lia).
    unfold close_watcher, complete; simpl; rewrite app_nil_r.
    destruct (negb (keepConfigWatcher opt) && configWatcher tg),
      (exitProcess opt); reflexivity.
  - unfold run_handler at 1; cbn [shutdownHandlers].
    replace (k <? h)%nat with true
      by (symmetry; apply Nat.ltb_lt; simpl in Hh; lia).
    change (settle_handlers (r :: hs) ++ rest)
      with (Settle 0 [] r :: settle_handlers hs ++ rest).
    destruct r as [u|err]; cbn -[run_handler close_watcher run].
    + change (run (Settle 0 [] (Resolved u) :: settle_handlers hs ++ rest) ?m)
        with (run (settle_handlers hs ++ rest)
                (step (Settle 0 [] (Resolved u)) m)).
      cbn -[run_handler close_watcher run].
      etransitivity;
        [exact (IH (S k) h (tr ++ [RunHandler k]) rj
                  {| waits_for := handler k; targets := tg; options := opt |}
                  t1 ltac:(simpl in Hh; lia))|].
      now rewrite <- app_assoc.
    + change (run (Settle 0 [] (Rejected err) :: settle_handlers hs ++ rest) ?m)
        with (run (settle_handlers hs ++ rest)
                (step (Settle 0 [] (Rejected err)) m)).
      cbn -[run_handler close_watcher run].
      etransitivity;
        [exact (IH (S k) h ((tr ++ [RunHandler k]) ++ [HandlerFailed k]) rj
                  {| waits_for := handler k; targets := tg; options := opt |}
                  t1 ltac:(simpl in Hh; lia))|].
      now rewrite <- !app_assoc.
Qed.

Lemma handlers_settle_all tg opt rest hs k m :
  shutdownHandlers m = (k + List.length hs)%nat ->
  exited m = None -> isShuttingDown m = true ->
  (exists t0, pending m = [t0]) ->
  run (settle_handlers hs ++ rest)
    (settle_task 0 tg opt
       (try_catch_finally opt (run_handler k tg opt m)))
  = run rest
      (settle_task 0 tg opt
         (try_catch_finally opt
            (close_watcher tg opt (log (handler_ops k hs) m)))).
Proof.
  destruct m as [f h pd tr rj ex]; simpl.
  intros -> -> -> [t0 ->].
  apply handlers_settle; reflexivity.
Qed.

Lemma run_app l1 l2 m : run (l1 ++ l2) m = run l2 (run l1 m).
Proof. apply fold_left_app. Qed.

Lemma shutdown_prefix tg opt rs n :
  exists m,
    run (Call tg opt :: Settle 0 rs (Resolved tt) :: Settle 0 [] (Resolved tt)
         :: (if unlinkPackages tg then [Settle 0 [] (Resolved tt)] else []))
      (init n)
    = settle_task 0 tg opt (try_catch_finally opt (run_handler 0 tg opt m)) /\
    shutdownHandlers m = n /\ exited m = None /\ isShuttingDown m = true /\
    (exists t0, pending m = [t0]) /\ rejected m = [] /\
    trace m
    = [Begin]
      ++ (if syncEngine tg then [StopSyncEngine] else [])
      ++ map StopService (services tg)
      ++ caught (services tg) rs
      ++ [KillAll]
      ++ (if unlinkPackages tg then [UnlinkPackages] else []).
Proof.
  destruct tg as [se sv cw ul], opt as [keep ex].
  destruct se, ul; eexists; (split; [reflexivity|]); cbn;
    rewrite <- ?app_assoc; repeat split; eauto.
Qed.

Lemma shutdown_suffix tg opt m :
  exited m = None -> isShuttingDown m = true ->
  (exists t0, pending m = [t0]) ->
  let m' :=
    run [Settle 0 [] (Resolved tt)]
      (settle_task 0 tg opt
         (try_catch_finally opt (close_watcher tg opt m))) in
  trace m'
  = trace m
    ++ (if negb (keepConfigWatcher opt) && configWatcher tg
        then [CloseConfigWatcher] else [])
    ++ [ShutdownComplete] /\
  exited m' = (if exitProcess opt then Some 0 else None) /\
  rejected m' = rejected m /\ pending m' = [].
Proof.
  destruct m as [f h pd tr rj e]; simpl.
  intros -> -> [t0 ->].
  destruct tg as [se sv cw ul], opt as [keep ex].
  destruct keep, cw, ex; cbn; rewrite <- ?app_assoc; auto.
Qed.

(** X23.  A shutdown whose [killAll], [unlinkPackages] and watcher
    close resolve calls every registered handler, in the order of
    registration, one after the other; a handler that rejects is logged
    and the next one is still called.  The handlers come after
    [unlinkPackages] and before the close of the configuration watcher;
    the process then exits with code 0 unless [exitProcess] is
    false. *)
Theorem handlers_run_in_order
  (tg : Targets) (opt : ShutdownOptions) (rs hs : list (Settled unit)) :
  let m :=
    run (Call tg opt :: Settle 0 rs (Resolved tt) :: Settle 0 [] (Resolved tt)
         :: (if unlinkPackages tg then [Settle 0 [] (Resolved tt)] else [])
         ++ settle_handlers hs ++ [Settle 0 [] (Resolved tt)])
      (init (List.length hs)) in
  trace m
  = [Begin]
    ++ (if syncEngine tg then [StopSyncEngine] else [])
    ++ map StopService (services tg)
    ++ caught (services tg) rs
    ++ [KillAll]
    ++ (if unlinkPackages tg then [UnlinkPackages] else [])
    ++ handler_ops 0 hs
    ++ (if negb (keepConfigWatcher opt) && configWatcher tg
        then [CloseConfigWatcher] else [])
    ++ [ShutdownComplete] /\
  exited m = (if exitProcess opt then Some 0 else None) /\
  rejected m = [] /\ pending m = [].
Proof.
  cbv zeta.
  destruct (shutdown_prefix tg opt rs (List.length hs))
    as (m & Hrun & Hh & He & Hf & Hp & Hr & Ht).
  change (Call tg opt :: Settle 0 rs (Resolved tt) :: Settle 0 [] (Resolved tt)
          :: (if unlinkPackages tg then [Settle 0 [] (Resolved tt)] else [])
          ++ settle_handlers hs ++ [Settle 0 [] (Resolved tt)])
    with ((Call tg opt :: Settle 0 rs (Resolved tt)
           :: Settle 0 [] (Resolved tt)
           :: (if unlinkPackages tg then [Settle 0 [] (Resolved tt)] else []))
          ++ settle_handlers hs ++ [Settle 0 [] (Resolved tt)]).
  rewrite run_app, Hrun, handlers_settle_all by auto.
  destruct (shutdown_suffix tg opt (log (handler_ops 0 hs) m))
    as (S1 & S2 & S3 & S4);
    [exact He|exact Hf|destruct Hp as [t0 Hp]; exists t0; exact Hp|].
  rewrite S1, S2, S3, S4; cbn [trace rejected log]; rewrite Ht, Hr.
  rewrite <- !app_assoc; auto.
Qed.

End ShutdownManagerFacts.


(* ------------------------------------------------------------------ *)
(** ** Killing a process                                               *)
(* ------------------------------------------------------------------ *)

Section ProcessManagerFacts.

Import ProcessManager.

Lemma settled_is_final isWindows c events k :
  settled k = true ->
  let k' :=
    fold_left (fun k e => handle isWindows c (fst e) (snd e) k) events k in
  settled k' = true /\ sent k' = sent k /\ resolved k' = resolved k.
Proof.
  cbv zeta; revert k; induction events as [|[now e] l IH]; intros k H;
    simpl; auto.
  assert (Hs : settled (handle isWindows c now e k) = true /\
               sent (handle isWindows c now e k) = sent k /\
               resolved (handle isWindows c now e k) = resolved k).
  { destruct e as [t| |]; simpl; rewrite ?H; auto;
      unfold cleanup; simpl; rewrite ?H; auto. }
  destruct Hs as (H1 & H2 & H3).
  destruct (IH _ H1) as (I1 & I2 & I3).
  rewrite I1, I2, I3; auto.
Qed.

(** The callbacks fire at 0, 150, 750 and 2000 ms; on Windows at 0, 500
    and 2000 ms. *)
Lemma clock_times isWindows :
  clock isWindows
  = if isWindows
    then [(0, Fire Terminate); (500, Fire Escalate); (2000, Fire Fallback)]
    else [(0, Fire Interrupt); (150, Fire Terminate); (750, Fire Escalate);
          (2000, Fire Fallback)].
Proof. destruct isWindows; reflexivity. Qed.

(** X24.  [killProcess] of a running child always resolves, at the
    latest by its fallback after 2000 ms, and never rejects: it
    resolves when the child exits (or fails), if that is within
    2000 ms, and at 2000 ms otherwise.  Until the child exits (or
    fails) it tries, in this order, SIGINT at 0 ms, SIGTERM at 150 ms
    and SIGKILL at 750 ms - on Windows a forced kill at 0 ms and
    another at 500 ms; the SIGKILL goes through
    [PlatformUtils.killProcess] when the child has a pid.  The signals
    sent are those whose time has come when the child exits: once the
    child has exited no further signal is sent. *)
Theorem killProcess_always_resolves
  (isWindows tie : bool) (c : Child) (ms : Z) (e : option Event) :
  exitCode c = None -> (forall t, e <> Some (Fire t)) ->
  let k := killProcess isWindows (Some c) (timeline isWindows tie ms e) in
  resolved k
  = Some (match e with Some _ => Z.min ms 2000 | None => 2000 end) /\
  (exists at_ms, resolved k = Some at_ms /\ at_ms <= 2000) /\
  sent k
  = match e with
    | Some _ =>
        filter (fun s => due tie ms (fst (fst s))) (escalation isWindows c)
    | None => escalation isWindows c
    end.
Proof.
  intros Hc He; cbv zeta.
  unfold killProcess; rewrite Hc; unfold timeline; rewrite clock_times.
  unfold escalation.
  destruct e as [[t| |]|]; try (exfalso; apply (He t); reflexivity);
    destruct isWindows, tie; cbn -[Z.leb Z.ltb Z.min];
    repeat match goal with
           | |- context [?a <=? ?b] =>
               destruct (Z.leb_spec a b); cbn -[Z.leb Z.ltb Z.min]
           | |- context [?a <? ?b] =>
               destruct (Z.ltb_spec a b); cbn -[Z.leb Z.ltb Z.min]
           end; try lia;
    (split; [f_equal; lia|split; [eexists; split; [reflexivity|lia]|]]);
    destruct (has_pid c); reflexivity.
Qed.

Lemma killProcess_always_resolves_witness :
  let c := {| exitCode := None; pid := Some 4242 |} in
  let k :=
    killProcess false (Some c) (timeline false false 300 (Some ChildExit)) in
  resolved k = Some 300 /\
  sent k = [(0, SIGINT, ChildKill); (150, SIGTERM, ChildKill)].
Proof.
  pose proof (killProcess_always_resolves false false
           {| exitCode := None; pid := Some 4242 |} 300 (Some ChildExit)
           eq_refl ltac:(discriminate)) as H.
  cbv zeta in *.
  destruct H as (H1 & _ & H2).
  split; [exact H1|exact H2].
Defined.

(** X25.  The earlier [killProcess] has no such fallback.  Its promise
    resolves when the child exits, or after 5000 ms if the first signal
    could not be delivered; the SIGKILL of that timer is sent in no
    other case.  A child that received the first signal and does not
    exit leaves the promise pending. *)
Theorem earlier_killProcess_resolves_only_on_exit
  (isWindows delivered redelivered : bool) (events : list Event0) :
  let k := killProcess0 isWindows (Some false) delivered redelivered events in
  (resolved0 k = true <->
   In ChildExit0 events \/ (delivered = false /\ In Fire0 events)) /\
  (In SIGKILL (tl (sent0 k)) <-> delivered = false /\ In Fire0 events).
Proof.
  cbv zeta; unfold killProcess0.
  set (k0 := {| killed := delivered;
                sent0 := [processTermSignal isWindows];
                resolved0 := false |}).
  assert (H : forall l k,
    let k' := fold_left (fun k e => handle0 redelivered e k) l k in
    (resolved0 k' = true <->
     resolved0 k = true \/ In ChildExit0 l
     \/ (killed k = false /\ In Fire0 l)) /\
    (exists extra, sent0 k' = sent0 k ++ extra /\
       (In SIGKILL extra <-> killed k = false /\ In Fire0 l))).
  { induction l as [|e l IH]; intros k; cbv zeta; simpl.
    - split; [tauto|].
      exists []; rewrite app_nil_r; simpl; tauto.
    - destruct k as [kd st rs]; destruct e; [destruct kd|]; simpl;
        match goal with
        | |- context [fold_left _ l ?k'] =>
            destruct (IH k') as (I2 & extra & I3 & I4)
        end; cbv zeta in *; simpl in *; rewrite I2, I3.
      + split; [intuition discriminate|].
        exists extra; split; [reflexivity|].
        rewrite I4; intuition discriminate.
      + split; [intuition auto|].
        exists (SIGKILL :: extra); rewrite <- app_assoc.
        split; [reflexivity|]; simpl; tauto.
      + split; [intuition auto|].
        exists extra; split; [reflexivity|].
        rewrite I4; intuition discriminate. }
  destruct (H events k0) as (H2 & extra & H3 & H4); cbv zeta in *.
  split.
  - rewrite H2; subst k0; simpl; intuition discriminate.
  - rewrite H3; subst k0; simpl; exact H4.
Qed.

End ProcessManagerFacts.


(* ------------------------------------------------------------------ *)
(** ** The sync engine's watcher and polling                           *)
(* ------------------------------------------------------------------ *)

Section SyncWatchFacts.

Import SyncWatch.

Lemma prefix_includes p s : String.prefix p s = true -> Js.includes p s = true.
Proof. intros H; destruct s; cbn [Js.includes]; rewrite H; reflexivity. Qed.

Lemma includes_tail c p s :
  Js.includes (String c p) s = true -> Js.includes p s = true.
Proof.
  induction s as [|c' s IH]; cbn [Js.includes]; intros H.
  - simpl in H; discriminate.
  - apply orb_true_iff in H as [H|H].
    + simpl in H; destruct (Ascii.ascii_dec c c'); [|discriminate].
      rewrite (prefix_includes _ _ H); apply orb_true_r.
    + rewrite (IH H); apply orb_true_r.
Qed.

(** X26.  A changed file is relevant when it ends in [.json], [.yaml]
    or [.yml]; and, for a runtime spec only, when it ends in [.py] and
    its path contains none of [__pycache__], [.venv] and [env/].  The
    test for [venv/] in the code excludes nothing that the test for
    [env/] does not exclude. *)
Theorem isRelevantFile_cases (cfg : WatchConfig) (filePath : string) :
  isRelevantFile cfg filePath
  = (Js.endsWith ".json" filePath || Js.endsWith ".yaml" filePath
     || Js.endsWith ".yml" filePath)
    || (isRuntimeSpec cfg && Js.endsWith ".py" filePath
        && negb (Js.includes "__pycache__" filePath)
        && negb (Js.includes ".venv" filePath)
        && negb (Js.includes "env/" filePath)).
Proof.
  unfold isRelevantFile.
  destruct (Js.includes "venv/" filePath) eqn:E.
  - rewrite (includes_tail _ _ _ E); simpl.
    rewrite !andb_false_r, orb_false_r; reflexivity.
  - destruct (isRuntimeSpec cfg), (Js.endsWith ".py" filePath),
      (Js.includes "__pycache__" filePath), (Js.includes ".venv" filePath),
      (Js.includes "env/" filePath); simpl;
      rewrite ?orb_true_r, ?orb_false_r; reflexivity.
Qed.


Lemma step_kept cfg a e : kept cfg e -> kept cfg (step cfg a e).
Proof.
  destruct e as [ir w p o wl il pd ev rj]; unfold kept, held.
  destruct a as [watched| |i r]; unfold step, start, start_end, stop,
    stop_end, resume; cbn [isRunning watcher polling intervals watching
                           pending];
    destruct (isRuntimeSpec cfg) eqn:E; intros (H1 & H2 & H3);
    try (destruct (H2 eq_refl) as [-> ->]);
    try (rewrite (H3 eq_refl));
    destruct ir; destruct H1 as [-> H1]; try subst w;
    try (destruct w; [|now elim H1]);
    try (destruct (nth_error pd i) as [[]|]);
    try destruct r; try destruct watched;
    try destruct (runInitialGeneration cfg);
    cbn; rewrite ?Z.eqb_refl; repeat split; auto; try discriminate.
Qed.

(** X27.  Whatever is called and however the awaited calls settle: an
    engine that is not running holds neither a polling interval nor a
    watcher; a running one holds exactly its polling interval, for a
    runtime spec, or its watcher, for a static one.  For a runtime spec
    at most one interval runs at any time, of the configured period or
    of 5000 ms when none (or 0) is configured, and no watcher is ever
    opened; for a static spec no interval is ever set. *)
Theorem engine_holds_one_handle_while_running
  (cfg : WatchConfig) (l : list Action) :
  let e := run cfg l init in
  held cfg e /\
  (isRuntimeSpec cfg = true ->
   intervals e = (if isRunning e then [pollIntervalMs cfg] else []) /\
   watching e = []) /\
  (isRuntimeSpec cfg = false -> intervals e = []) /\
  pollIntervalMs cfg <> 0.
Proof.
  cbv zeta.
  assert (H : kept cfg (run cfg l init)).
  { unfold run.
    assert (H0 : kept cfg init) by (unfold kept, held; simpl; auto).
    revert H0; generalize init; induction l as [|a l IH]; intros e H0;
      simpl; auto.
    apply IH, step_kept, H0. }
  destruct H as (H1 & H2 & H3); repeat split; auto.
  - apply H2; assumption.
  - apply H2; assumption.
  - unfold pollIntervalMs.
    destruct (pollingInterval cfg) as [ms|]; [|discriminate].
    destruct (Z.eqb_spec ms 0); [discriminate|assumption].
Qed.

(** X28.  [start()] followed by [stop()], the watcher being created
    and the awaited calls resolving: the engine is not running, no
    watcher is open and no interval runs, nothing was thrown, and the
    events are [started], then [stopped]. *)
Theorem stop_closes_what_start_opened (cfg : WatchConfig) :
  let e := run cfg [Start (Resolved tt); Settle 0 (Resolved tt); Stop;
                    Settle 0 (Resolved tt)] init in
  isRunning e = false /\ watcher e = None /\ polling e = None /\
  watching e = [] /\ intervals e = [] /\ pending e = [] /\
  rejected e = [] /\ events e = [started; stopped].
Proof.
  cbv zeta; unfold run; cbn [fold_left step].
  unfold start, start_end; simpl.
  destruct (isRuntimeSpec cfg), (runInitialGeneration cfg); cbn;
    rewrite ?Z.eqb_refl; repeat split; reflexivity.
Qed.

End SyncWatchFacts.


(* ------------------------------------------------------------------ *)
(** ** The orchestrator's start                                        *)
(* ------------------------------------------------------------------ *)

Section OrchestratorStartFacts.

Import DevSyncOrchestrator OrchestratorStart.

Lemma attempt_spec l :
  forall done0,
    match attempt l done0 with
    | (done, None) =>
        done = done0 ++ map fst l /\
        Forall (fun s => exists u, snd s = Resolved u) l
    | (done, Some err) =>
        exists l1 s l2,
          l = l1 ++ (s, Rejected err) :: l2 /\
          done = done0 ++ map fst l1 ++ [s]
    end.
Proof.
  induction l as [|[s [u|err]] l IH]; intros done0; simpl.
  - rewrite app_nil_r; auto.
  - specialize (IH (done0 ++ [s])).
    destruct (attempt l (done0 ++ [s])) as [done [err|]].
    + destruct IH as (l1 & s' & l2 & -> & ->).
      exists ((s, Resolved u) :: l1), s', l2; simpl.
      rewrite <- !app_assoc; auto.
    + destruct IH as [-> H]; rewrite <- app_assoc; split; [reflexivity|].
      constructor; [eexists; reflexivity|exact H].
  - exists [], s, l; auto.
Qed.

Lemma is_engine_In done :
  existsb is_engine done = true <-> In StartSyncEngine done.
Proof.
  rewrite existsb_exists; split.
  - intros ([] & H & E); try discriminate; exact H.
  - intros H; exists StartSyncEngine; auto.
Qed.

Lemma only_stops op names rs tail :
  (forall n, op <> StopService n) -> (forall n, op <> StopFailed n) ->
  In op (map StopService names ++ caught names rs ++ tail) ->
  In op tail.
Proof.
  intros H1 H2; rewrite !in_app_iff; intros [H|[H|H]]; [| |exact H]; exfalso.
  - apply in_map_iff in H as (n & E & _); symmetry in E; now apply H1 in E.
  - revert rs H; induction names as [|n names IH]; intros [|[] rs] H;
      simpl in H; try contradiction; eauto.
    destruct H as [H|H]; [symmetry in H; now apply H2 in H|eauto].
Qed.

Ltac stops_only H :=
  simpl in H; repeat (destruct H as [H|H]; [discriminate|]);
  rewrite <- ?app_assoc in H;
  apply only_stops in H; [|intros ?; discriminate|intros ?; discriminate];
  simpl in H; intuition discriminate.

(** X29.  [start()] awaits the link of the client package, the start of
    each service and the start of the sync engine, one after the other,
    and then watches the configuration file.  When one of them rejects,
    the [catch] block awaits [shutdown()] before it rethrows: the stop
    sequence runs - it stops the sync engine exactly when its start had
    been reached - and [process.exit(0)] ends the process, so the error
    never reaches the caller of [start()] and the exit code is 0.
    [start()] rejects only when the stop sequence itself fails, and
    then with the error of that sequence. *)
Theorem start_failure_never_reaches_the_caller
  (os : StartOutcomes) (so : StopOutcomes) (names : list string) :
  let '(o', done, ending) := start os so (created names) in
  match ending with
  | Returned =>
      done = map fst (steps os (created names)) ++ [WatchConfigFile] /\
      Forall (fun s => exists u, snd s = Resolved u)
        (steps os (created names)) /\
      configWatcher o' = true /\ syncEngine o' = true /\ trace o' = []
  | ProcessExited code =>
      code = 0 /\ In ShutdownComplete (trace o') /\
      (In StopSyncEngine (trace o') <-> In StartSyncEngine done) /\
      exists err, In (last done LinkClientPackage, Rejected err)
                    (steps os (created names))
  | Threw err =>
      (kill so = Rejected err \/ unlink so = Rejected err) /\
      isShuttingDown o' = true /\ ~ In ShutdownComplete (trace o')
  end.
Proof.
  unfold start.
  remember (steps os (created names)) as st eqn:Hst.
  pose proof (attempt_spec st []) as Ha.
  destruct (attempt st []) as [done [error|]].
  - destruct Ha as (l1 & s & l2 & Hl & Hd); simpl in Hd.
    assert (Hlast : last done LinkClientPackage = s)
      by (rewrite Hd; apply last_last).
    assert (Hin : In (s, Rejected error) st)
      by (rewrite Hl; apply in_or_app; right; left; reflexivity).
    pose proof (is_engine_In done) as He.
    destruct so as [rs k1 k2 k3].
    destruct (existsb is_engine done), k1 as [[]|x1], k2 as [[]|x2]; cbn;
      rewrite ?Hlast;
      repeat match goal with |- _ /\ _ => split end;
      eauto;
      try (rewrite <- ?app_assoc; simpl; rewrite ?in_app_iff; simpl;
           intuition discriminate);
      try (let H := fresh in intros H; stops_only H).
    split; intros H; exfalso; [stops_only H|apply He in H; discriminate].
  - destruct Ha as [Hd Hf]; simpl in Hd; subst done.
    assert (He : existsb is_engine (map fst st) = true).
    { apply is_engine_In; subst st; unfold steps.
      rewrite !map_app, !in_app_iff; simpl; auto. }
    rewrite He; cbn; auto.
Qed.

End OrchestratorStartFacts.


(* ------------------------------------------------------------------ *)
(** ** Linking and unlinking the client package                        *)
(* ------------------------------------------------------------------ *)

Section PackageLinksFacts.

Import PackageLinks.

Context {W : Type} (existsSync : string -> bool)
  (exec : string -> string -> W -> Settled unit * W).

Lemma unlink_each_commands cfg frontend :
  frontendPath cfg = Some frontend -> frontend <> EmptyString ->
  forall names l,
    commands (unlink_each existsSync exec cfg names l)
    = commands l
      ++ map (fun name =>
                (detectPackageManager existsSync frontend ++ " unlink "
                 ++ name, frontend)%string) names /\
    linkedPackages (unlink_each existsSync exec cfg names l)
    = linkedPackages l.
Proof.
  intros Hf Hne; induction names as [|n names IH]; intros l; simpl.
  - now rewrite app_nil_r.
  - rewrite Hf; cbn [truthy].
    apply String.eqb_neq in Hne; rewrite Hne; cbn [negb].
    unfold runCommand.
    destruct (exec _ _ (machine l)) as [r w]; cbn [snd].
    match goal with
    | |- context [unlink_each existsSync exec cfg names ?x] =>
        destruct (IH x) as [H1 H2]
    end.
    rewrite H1, H2; simpl; rewrite <- app_assoc; auto.
Qed.

(** X30.  The client package is recorded as linked as soon as the link
    in the client's directory has succeeded, before the link in the
    frontend is tried.  So [unlinkPackages] after [linkClientPackage]
    runs the unlink command, in the frontend's directory, exactly when
    that first link succeeded - also when the link in the frontend then
    failed - and it leaves no package recorded, whether or not the
    unlink command succeeds.  The package manager is the one of the
    frontend's lock file, [yarn.lock] coming first, else [npm]. *)
Theorem packages_are_unlinked_when_their_link_began
  (cfg : LinkConfig) (frontend : string) (l : Links) :
  frontendPath cfg = Some frontend -> frontend <> EmptyString ->
  linkedPackages l = [] ->
  let pm := detectPackageManager existsSync frontend in
  let '(r, l1) := linkClientPackage existsSync exec cfg l in
  let l2 := unlinkPackages existsSync exec cfg l1 in
  linkedPackages l2 = [] /\
  (In pm ["yarn"; "pnpm"; "npm"]%string) /\
  (existsSync (DevSyncEngine.join frontend "yarn.lock") = true ->
   pm = "yarn"%string) /\
  exists linked : bool,
    commands l2
    = commands l1
      ++ (if linked
          then [((pm ++ " unlink " ++ clientName cfg)%string, frontend)]
          else []) /\
    (linked = true <->
     exists u w,
       exec (pm ++ " link")%string (clientPath cfg) (machine l)
       = (Resolved u, w)).
Proof.
  intros Hf Hne Hl; cbv zeta.
  unfold linkClientPackage; rewrite Hf.
  set (pm := detectPackageManager existsSync frontend).
  assert (Hpm : In pm ["yarn"; "pnpm"; "npm"]%string /\
                (existsSync (DevSyncEngine.join frontend "yarn.lock") = true ->
                 pm = "yarn"%string)).
  { subst pm; unfold detectPackageManager.
    destruct (existsSync (DevSyncEngine.join frontend "yarn.lock"));
      [simpl; auto|].
    destruct (existsSync (DevSyncEngine.join frontend "pnpm-lock.yaml"));
      simpl; split; auto; discriminate. }
  destruct Hpm as [Hpm1 Hpm2].
  destruct l as [lp m cs]; simpl in Hl; subst lp.
  unfold runCommand, add; cbn [machine commands linkedPackages existsb app].
  fold pm.
  destruct (exec (pm ++ " link")%string (clientPath cfg) m)
    as [[u|err] w] eqn:E1; cbn [machine commands linkedPackages].
  - destruct (exec (pm ++ " link " ++ clientName cfg)%string frontend w)
      as [r2 w2].
    unfold unlinkPackages; cbn [linkedPackages].
    match goal with
    | |- context [unlink_each existsSync exec cfg ?n ?x] =>
        destruct (unlink_each_commands cfg frontend Hf Hne n x) as [H1 _]
    end.
    cbn [commands machine]; rewrite H1; cbn [commands map].
    repeat split; auto.
    exists true; split; [reflexivity|].
    split; [eauto|reflexivity].
  - unfold unlinkPackages; cbn [linkedPackages unlink_each commands machine].
    repeat split; auto.
    exists false; rewrite app_nil_r; split; [reflexivity|].
    split; [discriminate|intros (u & w' & H); discriminate].
Qed.

End PackageLinksFacts.

Section PackageLinksExamples.

Import PackageLinks.

Lemma packages_are_unlinked_when_their_link_began_witness :
  let l := {| linkedPackages := []; machine := O; commands := [] |} in
  let l2 :=
    unlinkPackages lock_files shell example_config
      (snd (linkClientPackage lock_files shell example_config l)) in
  linkedPackages l2 = [] /\
  fst (linkClientPackage lock_files shell example_config l)
  = Rejected (JsError "Command failed with exit code 1") /\
  commands l2
  = [("yarn link", "/work/client");
     ("yarn link @work/api-client", "/work/frontend");
     ("yarn unlink @work/api-client", "/work/frontend")]%string.
Proof.
  cbv zeta.
  pose proof (packages_are_unlinked_when_their_link_began lock_files shell
                example_config "/work/frontend"
                {| linkedPackages := []; machine := O; commands := [] |}
                eq_refl ltac:(discriminate) eq_refl) as H.
  cbv zeta in H.
  destruct (linkClientPackage lock_files shell example_config
              {| linkedPackages := []; machine := O; commands := [] |})
    as [r l1] eqn:E.
  split; [exact (proj1 H)|].
  inversion E; subst; split; reflexivity.
Defined.

End PackageLinksExamples.
